(** * A shallow embedding of the FSM runtime (fsm.h / fsm.c)

    The development follows the layout of the C sources:

    - the data model of [fsm.h] and of the private structures of [fsm.c]
      (states, transitions, the per-object state record);
    - the builder ([fsmCreateState], [fsmTransition], [fsmCatchTransition] ...);
    - the verifier ([fsmVerifyFsm]);
    - the execution engine ([fsmExecute] and its two private helpers).

    Modelling conventions.

    - A C [int] is a [Z].  The only arithmetic the engine performs on an
      [int] is [iNestDepth++] and [iNestDepth--], both guarded by constants
      below five, so no wrap-around can occur and none is written out.
    - A singly linked [FSM_LIST] is a Rocq [list], head first; the tail
      insertion of [_fsmAddObjectToList] is [l ++ [x]].
    - A callback is a function pointer.  Pointers are addresses ([fptr]);
      a possibly-NULL pointer is an [option fptr].  What a callback does to
      the application (its context and message) is given by the functions
      [condition_fn], [action_fn], [entry_fn], [exit_fn], [verify_fn] on an
      abstract [World]; callbacks do not touch the graph or the object
      state record.  Every invocation is also appended to a call log.
    - The object state record is caller-owned memory that [fsmExecute]
      mutates: it is threaded through a state monad.  [iNestedStateIds] is
      an array of exactly four [int]s; an access outside of it is undefined
      behaviour in C and is an explicit [Aborted (OutOfBounds i)] outcome
      here. *)

From Stdlib Require Import ZArith List Bool Lia Sorted.
Import ListNotations.
Local Open Scope Z_scope.

(** ** Constants of fsm.h and fsm.c *)

Definition FSM_CATCH_TRANSITION : Z := -1.
Definition FSM_ST_SAME : Z := -1.
Definition FSM_ST_PARENT : Z := -2.
Definition FSM_ST_ANY : Z := -3.
Definition FSM_MAX_STATE_NEST_DEPTH : Z := 4.

(* The constants stay folded under [simpl] and [cbn]. *)
Arguments FSM_CATCH_TRANSITION : simpl never.
Arguments FSM_ST_SAME : simpl never.
Arguments FSM_ST_PARENT : simpl never.
Arguments FSM_ST_ANY : simpl never.
Arguments FSM_MAX_STATE_NEST_DEPTH : simpl never.

Inductive FSM_VERIFY_ERROR : Set :=
| eFSM_VERIFY_ERROR_NONE
| eFSM_VERIFY_ERROR_NOENTRY
| eFSM_VERIFY_ERROR_NOEXIT.

Inductive FSM_EXECUTION_RESULT : Set :=
| eFSM_RESULT_NEW_STATE
| eFSM_RESULT_NO_CHANGE
| eFSM_RESULT_NO_TRANSITION
| eFSM_RESULT_ACTION_FAILURE
| eFSM_RESULT_INTERNAL_FAILURE.

Definition result_eqb (a b : FSM_EXECUTION_RESULT) : bool :=
  match a, b with
  | eFSM_RESULT_NEW_STATE, eFSM_RESULT_NEW_STATE
  | eFSM_RESULT_NO_CHANGE, eFSM_RESULT_NO_CHANGE
  | eFSM_RESULT_NO_TRANSITION, eFSM_RESULT_NO_TRANSITION
  | eFSM_RESULT_ACTION_FAILURE, eFSM_RESULT_ACTION_FAILURE
  | eFSM_RESULT_INTERNAL_FAILURE, eFSM_RESULT_INTERNAL_FAILURE => true
  | _, _ => false
  end.

(** ** Data model *)

(** The address of an application callback. *)
Definition fptr : Set := nat.

Definition FSM_FUNC_CONDITION : Set := option fptr.
Definition FSM_FUNC_ACTION : Set := option fptr.
Definition FSM_FUNC_ENTRY : Set := option fptr.
Definition FSM_FUNC_EXIT : Set := option fptr.
Definition FSM_FUNC_VERIFY_CB : Set := option fptr.

(** [FSM_TRANSITION]; the nodes of [listConditions] and [listActions] hold
    one function pointer each. *)
Record FSM_TRANSITION : Set := {
  iNewStateId : Z;
  bSubState : bool;
  iEventId : Z;
  listConditions : list FSM_FUNC_CONDITION;
  listActions : list FSM_FUNC_ACTION
}.

(** [FSM_STATE] without its back pointer [pFsm], which the builder below
    replaces by passing the control block explicitly. *)
Record FSM_STATE : Set := {
  iStateId : Z;
  fpEntryAction : FSM_FUNC_ENTRY;
  listTransitions : list FSM_TRANSITION;
  fpExitAction : FSM_FUNC_EXIT;
  bComplex : bool;
  iInitialSubStateId : Z
}.

(** [FSM_CB], the control block behind an FSM handle. *)
Record FSM_CB : Set := {
  listStates : list FSM_STATE;
  bCreateError : bool
}.

(** [int iNestedStateIds[FSM_MAX_STATE_NEST_DEPTH]]. *)
Record NestedStateIds : Set := {
  slot0 : Z;
  slot1 : Z;
  slot2 : Z;
  slot3 : Z
}.

Definition nest_get (a : NestedStateIds) (i : Z) : option Z :=
  if i =? 0 then Some (slot0 a)
  else if i =? 1 then Some (slot1 a)
  else if i =? 2 then Some (slot2 a)
  else if i =? 3 then Some (slot3 a)
  else None.

Definition nest_set (a : NestedStateIds) (i v : Z) : option NestedStateIds :=
  if i =? 0 then Some {| slot0 := v; slot1 := slot1 a; slot2 := slot2 a; slot3 := slot3 a |}
  else if i =? 1 then Some {| slot0 := slot0 a; slot1 := v; slot2 := slot2 a; slot3 := slot3 a |}
  else if i =? 2 then Some {| slot0 := slot0 a; slot1 := slot1 a; slot2 := v; slot3 := slot3 a |}
  else if i =? 3 then Some {| slot0 := slot0 a; slot1 := slot1 a; slot2 := slot2 a; slot3 := v |}
  else None.

Definition nest_to_list (a : NestedStateIds) : list Z :=
  [slot0 a; slot1 a; slot2 a; slot3 a].

(** [FSM_OBJECT_STATE]. *)
Record FSM_OBJECT_STATE : Set := {
  iNestDepth : Z;
  iNestedStateIds : NestedStateIds;
  iPreviousStateId : Z
}.

(** The nest depth indexes the four-element array. *)
Definition depth_ok (o : FSM_OBJECT_STATE) : Prop :=
  0 <= iNestDepth o <= FSM_MAX_STATE_NEST_DEPTH - 1.

(** [fsmSetStartState] on a non-NULL record. *)
Definition fsmSetStartState (o : FSM_OBJECT_STATE) (a_iStartingStateId a_iPreviousStateId : Z)
  : FSM_OBJECT_STATE :=
  {| iNestDepth := 0;
     iNestedStateIds :=
       {| slot0 := a_iStartingStateId;
          slot1 := slot1 (iNestedStateIds o);
          slot2 := slot2 (iNestedStateIds o);
          slot3 := slot3 (iNestedStateIds o) |};
     iPreviousStateId := a_iPreviousStateId |}.

(** ** Private list helpers of fsm.c *)

(** [_fsmGetState]: the first state object of the list whose id matches. *)
Fixpoint _fsmGetState (a_pList : list FSM_STATE) (a_iStateId : Z) : option FSM_STATE :=
  match a_pList with
  | [] => None
  | l_pState :: rest =>
      if iStateId l_pState =? a_iStateId then Some l_pState
      else _fsmGetState rest a_iStateId
  end.

(** [_fsmGetTransition]: the first transition object of the list whose
    event id matches, as a pointer into the list: the node found and the
    nodes linked after it. *)
Fixpoint _fsmGetTransition (a_pList : list FSM_TRANSITION) (a_iEventId : Z)
  : option (FSM_TRANSITION * list FSM_TRANSITION) :=
  match a_pList with
  | [] => None
  | l_pTransition :: rest =>
      if iEventId l_pTransition =? a_iEventId then Some (l_pTransition, rest)
      else _fsmGetTransition rest a_iEventId
  end.

(** [_fsmAddObjectToList]: append at the tail. *)
Definition _fsmAddObjectToList {A : Type} (a_pList : list A) (a_pObject : A) : list A :=
  a_pList ++ [a_pObject].

(** ** The application: callbacks and the call log *)

(** One entry of the call log: which callback was invoked. *)
Inductive Call : Set :=
| CallCondition (f : fptr)
| CallAction (f : fptr)
| CallEntry (f : fptr)
| CallExit (f : fptr)
| CallVerify (f : fptr) (iStateId : Z) (eFsmVerifyErr : FSM_VERIFY_ERROR).

(** The callback capability set.  [World] is whatever the application
    context and message give the callbacks access to.  The [bool] of a
    condition or action is [false] exactly when the C function returns
    [FSM_FALSE]. *)
Class Callbacks (World : Type) : Type := {
  condition_fn : fptr -> World -> bool * World;
  action_fn : fptr -> World -> bool * World;
  entry_fn : fptr -> World -> World;
  exit_fn : fptr -> World -> World;
  verify_fn : fptr -> Z -> FSM_VERIFY_ERROR -> World -> World
}.

(** The application side of a run: its world and the calls made so far,
    oldest first. *)
Record Env (World : Type) : Type := {
  world : World;
  calls : list Call
}.
Arguments world {World} _.
Arguments calls {World} _.

(** Everything [fsmExecute] can change: the caller's object state record
    and the application. *)
Record Machine (World : Type) : Type := {
  obj : FSM_OBJECT_STATE;
  env : Env World
}.
Arguments obj {World} _.
Arguments env {World} _.

(** Why a run left the defined behaviour of the C program ([OutOfBounds],
    [NullDereference]) or of this model ([OutOfFuel], the bound of the
    entry loop, shown unreachable below). *)
Inductive Abort : Set :=
| OutOfBounds (i : Z)
| NullDereference
| OutOfFuel.

Inductive Outcome (World A : Type) : Type :=
| Returned (a : A) (m : Machine World)
| Aborted (why : Abort) (m : Machine World).
Arguments Returned {World A} _ _.
Arguments Aborted {World A} _ _.

Definition M (World A : Type) : Type := Machine World -> Outcome World A.

Definition ret {World A : Type} (a : A) : M World A := fun m => Returned a m.

Definition bind {World A B : Type} (c : M World A) (k : A -> M World B) : M World B :=
  fun m =>
    match c m with
    | Returned a m' => k a m'
    | Aborted why m' => Aborted why m'
    end.

Definition abort {World A : Type} (why : Abort) : M World A := fun m => Aborted why m.

(** A computation that always returns and leaves the object state record
    alone. *)
Definition search_only {World A : Type} (c : M World A) : Prop :=
  forall m, exists a m', c m = Returned a m' /\ obj m' = obj m.

(** An abort that is an access outside [iNestedStateIds]. *)
Definition overrun (why : Abort) : Prop := exists i, why = OutOfBounds i.

Declare Scope fsm_scope.
Delimit Scope fsm_scope with fsm.
Notation "x <- c ;; k" := (bind c (fun x => k))
  (at level 61, c at next level, right associativity) : fsm_scope.
Notation "c ;;; k" := (bind c (fun _ => k))
  (at level 61, right associativity) : fsm_scope.
Local Open Scope fsm_scope.

(** A statement that either returns from the enclosing function or falls
    through to the next statement. *)
Inductive Flow (A : Type) : Type :=
| Return (r : FSM_EXECUTION_RESULT)
| Continue (a : A).
Arguments Return {A} _.
Arguments Continue {A} _.

(** The local variables of [fsmExecute] that outlive the search. *)
Record Locals : Set := {
  l_eResult : FSM_EXECUTION_RESULT;
  l_iNewStateId : Z;
  l_bNewStateIsSubState : bool;
  l_iStateChangeDepth : Z
}.

Section Engine.
Context {World : Type} {app : Callbacks World}.

Definition record_call (c : Call) (w : World) (e : Env World) : Env World :=
  {| world := w; calls := calls e ++ [c] |}.

(** *** Accessors of the object state record *)

Definition get_depth : M World Z :=
  fun m => Returned (iNestDepth (obj m)) m.

Definition set_depth (d : Z) : M World unit :=
  fun m =>
    Returned tt
      {| obj := {| iNestDepth := d;
                   iNestedStateIds := iNestedStateIds (obj m);
                   iPreviousStateId := iPreviousStateId (obj m) |};
         env := env m |}.

Definition set_previous (id : Z) : M World unit :=
  fun m =>
    Returned tt
      {| obj := {| iNestDepth := iNestDepth (obj m);
                   iNestedStateIds := iNestedStateIds (obj m);
                   iPreviousStateId := id |};
         env := env m |}.

(** [a_pObjectState->iNestedStateIds[i]] as an rvalue. *)
Definition read_nested (i : Z) : M World Z :=
  fun m =>
    match nest_get (iNestedStateIds (obj m)) i with
    | Some id => Returned id m
    | None => Aborted (OutOfBounds i) m
    end.

(** [a_pObjectState->iNestedStateIds[i] = id]. *)
Definition write_nested (i id : Z) : M World unit :=
  fun m =>
    match nest_set (iNestedStateIds (obj m)) i id with
    | Some a =>
        Returned tt
          {| obj := {| iNestDepth := iNestDepth (obj m);
                       iNestedStateIds := a;
                       iPreviousStateId := iPreviousStateId (obj m) |};
             env := env m |}
    | None => Aborted (OutOfBounds i) m
    end.

(** *** Calling back into the application *)

Definition on_env {A : Type} (f : Env World -> A * Env World) : M World A :=
  fun m => Returned (fst (f (env m))) {| obj := obj m; env := snd (f (env m)) |}.

Definition invoke_condition (f : fptr) : M World bool :=
  on_env (fun e =>
    (fst (condition_fn f (world e)),
     record_call (CallCondition f) (snd (condition_fn f (world e))) e)).

Definition invoke_action (f : fptr) : M World bool :=
  on_env (fun e =>
    (fst (action_fn f (world e)),
     record_call (CallAction f) (snd (action_fn f (world e))) e)).

Definition invoke_entry (f : fptr) : M World unit :=
  on_env (fun e => (tt, record_call (CallEntry f) (entry_fn f (world e)) e)).

Definition invoke_exit (f : fptr) : M World unit :=
  on_env (fun e => (tt, record_call (CallExit f) (exit_fn f (world e)) e)).

(** *** [_fsmExecuteTransition] *)

(** The [while] loop over [listActions]; the value is [l_bActionsPass]
    when the loop ends.  A NULL action pointer is stepped over.  A failing
    action clears the flag, which ends the loop, unless the transition is
    the catch transition. *)
Fixpoint action_loop (a_iEventId : Z) (l : list FSM_FUNC_ACTION) : M World bool :=
  match l with
  | [] => ret true
  | None :: rest => action_loop a_iEventId rest
  | Some f :: rest =>
      ok <- invoke_action f ;;
      if negb ok && negb (FSM_CATCH_TRANSITION =? a_iEventId)
      then ret false
      else action_loop a_iEventId rest
  end.

Definition _fsmExecuteTransition (a_pTransition : FSM_TRANSITION)
  : M World FSM_EXECUTION_RESULT :=
  l_bActionsPass <- action_loop (iEventId a_pTransition) (listActions a_pTransition) ;;
  if negb l_bActionsPass then ret eFSM_RESULT_ACTION_FAILURE
  else if FSM_ST_SAME =? iNewStateId a_pTransition then ret eFSM_RESULT_NO_CHANGE
  else ret eFSM_RESULT_NEW_STATE.

(** *** [_fsmExecuteState] *)

(** The inner [while] loop over [listConditions]; the value is
    [l_bConditionsPass] when the loop ends. *)
Fixpoint condition_loop (l : list FSM_FUNC_CONDITION) : M World bool :=
  match l with
  | [] => ret true
  | None :: rest => condition_loop rest
  | Some f :: rest =>
      ok <- invoke_condition f ;;
      if ok then condition_loop rest else ret false
  end.

(** The search of the outer [while] loop: walk the transition list with
    [_fsmGetTransition], evaluate the conditions of each transition of
    the event, [continue] when they fail.  The value is the transition
    at which [l_bTransitionPass] is set, if any. *)
Fixpoint transition_loop (a_iEventId : Z) (l : list FSM_TRANSITION)
  : M World (option FSM_TRANSITION) :=
  match l with
  | [] => ret None
  | l_pTransition :: rest =>
      if iEventId l_pTransition =? a_iEventId then
        l_bConditionsPass <- condition_loop (listConditions l_pTransition) ;;
        if l_bConditionsPass then ret (Some l_pTransition)
        else transition_loop a_iEventId rest
      else transition_loop a_iEventId rest
  end.

(** The rest of the loop body, run once because [l_bTransitionPass] ends
    the loop: execute the transition and, on an action failure, the catch
    transition of the same state.  The value is [l_eResult] and the final
    [l_pTransition], which is NULL when the catch lookup found nothing. *)
Definition run_matched (a_pstCurrentState : FSM_STATE) (l_pTransition : FSM_TRANSITION)
  : M World (FSM_EXECUTION_RESULT * option FSM_TRANSITION) :=
  l_eResult <- _fsmExecuteTransition l_pTransition ;;
  if result_eqb eFSM_RESULT_ACTION_FAILURE l_eResult then
    match _fsmGetTransition (listTransitions a_pstCurrentState) FSM_CATCH_TRANSITION with
    | Some (l_pCatch, _) =>
        l_eResult' <- _fsmExecuteTransition l_pCatch ;;
        ret (l_eResult', Some l_pCatch)
    | None => ret (l_eResult, None)
    end
  else ret (l_eResult, Some l_pTransition).

(** The epilogue: on [eFSM_RESULT_NEW_STATE] the out parameters
    [*a_piNewStateId] and [*a_pbIsSubState] are written from
    [l_pTransition]. *)
Definition store_target (out : Z * bool)
    (r : FSM_EXECUTION_RESULT * option FSM_TRANSITION)
  : M World (FSM_EXECUTION_RESULT * (Z * bool)) :=
  if result_eqb eFSM_RESULT_NEW_STATE (fst r) then
    match snd r with
    | Some l_pTransition =>
        ret (fst r, (iNewStateId l_pTransition, bSubState l_pTransition))
    | None => abort NullDereference
    end
  else ret (fst r, out).

(** [out] holds the values of [*a_piNewStateId] and [*a_pbIsSubState] on
    entry; the value holds them on return. *)
Definition _fsmExecuteState (a_iEventId : Z) (a_pstCurrentState : FSM_STATE)
    (out : Z * bool)
  : M World (FSM_EXECUTION_RESULT * (Z * bool)) :=
  found <- transition_loop a_iEventId (listTransitions a_pstCurrentState) ;;
  match found with
  | None => ret (eFSM_RESULT_NO_TRANSITION, out)
  | Some l_pTransition =>
      r <- run_matched a_pstCurrentState l_pTransition ;;
      store_target out r
  end.

(** *** [fsmExecute] *)

Definition after_state (loc : Locals) (r : FSM_EXECUTION_RESULT * (Z * bool)) : Locals :=
  {| l_eResult := fst r;
     l_iNewStateId := fst (snd r);
     l_bNewStateIsSubState := snd (snd r);
     l_iStateChangeDepth := l_iStateChangeDepth loc |}.

Definition at_depth (loc : Locals) (d : Z) : Locals :=
  {| l_eResult := l_eResult loc;
     l_iNewStateId := l_iNewStateId loc;
     l_bNewStateIsSubState := l_bNewStateIsSubState loc;
     l_iStateChangeDepth := d |}.

(** The first [for] loop: [n] iterations remain, [l_iNestDepthCnt] is the
    index of the next one.  [Return] is the [return] inside the loop,
    [Continue] covers both the [break] and the normal end of the loop. *)
Fixpoint nest_loop (l_pFsm : FSM_CB) (a_iEventId : Z) (n : nat)
    (l_iNestDepthCnt : Z) (loc : Locals) : M World (Flow Locals) :=
  match n with
  | O => ret (Continue loc)
  | S n' =>
      id <- read_nested l_iNestDepthCnt ;;
      match _fsmGetState (listStates l_pFsm) id with
      | None => ret (Return eFSM_RESULT_NO_TRANSITION)
      | Some l_pstCurrentState =>
          r <- _fsmExecuteState a_iEventId l_pstCurrentState
                 (l_iNewStateId loc, l_bNewStateIsSubState loc) ;;
          if result_eqb eFSM_RESULT_NO_TRANSITION (fst r)
          then nest_loop l_pFsm a_iEventId n' (l_iNestDepthCnt + 1) (after_state loc r)
          else ret (Continue (at_depth (after_state loc r) l_iNestDepthCnt))
      end
  end.

(** The any-state fallback. *)
Definition any_state_fallback (l_pFsm : FSM_CB) (a_iEventId : Z) (loc : Locals)
  : M World Locals :=
  if result_eqb eFSM_RESULT_NO_TRANSITION (l_eResult loc) then
    match _fsmGetState (listStates l_pFsm) FSM_ST_ANY with
    | Some l_pAnyState =>
        r <- _fsmExecuteState a_iEventId l_pAnyState
               (l_iNewStateId loc, l_bNewStateIsSubState loc) ;;
        ret (after_state loc r)
    | None => ret loc
    end
  else ret loc.

Definition initial_locals : Locals :=
  {| l_eResult := eFSM_RESULT_NO_TRANSITION;
     l_iNewStateId := -1;
     l_bNewStateIsSubState := false;
     l_iStateChangeDepth := 0 |}.

(** The search half of [fsmExecute]: the nest scan, then the any-state
    fallback. *)
Definition find_transition (l_pFsm : FSM_CB) (a_iEventId : Z) : M World (Flow Locals) :=
  d <- get_depth ;;
  x <- nest_loop l_pFsm a_iEventId (Z.to_nat (d + 1)) 0 initial_locals ;;
  match x with
  | Return r => ret (Return r)
  | Continue loc =>
      loc' <- any_state_fallback l_pFsm a_iEventId loc ;;
      ret (Continue loc')
  end.

(** The exit [for] loop, counting down: [n] iterations remain. *)
Fixpoint exit_loop (l_pFsm : FSM_CB) (n : nat) (l_iNestDepthCnt : Z) : M World unit :=
  match n with
  | O => ret tt
  | S n' =>
      id <- read_nested l_iNestDepthCnt ;;
      match _fsmGetState (listStates l_pFsm) id with
      | Some l_pstExittingState =>
          match fpExitAction l_pstExittingState with
          | Some f => invoke_exit f
          | None => ret tt
          end
      | None => ret tt
      end ;;;
      exit_loop l_pFsm n' (l_iNestDepthCnt - 1)
  end.

(** The STATE EXIT block. *)
Definition state_exit (l_pFsm : FSM_CB) (loc : Locals) : M World (Flow unit) :=
  d <- get_depth ;;
  cur <- read_nested d ;;
  set_previous cur ;;;
  if l_bNewStateIsSubState loc then
    d <- get_depth ;;
    if d >=? FSM_MAX_STATE_NEST_DEPTH then ret (Return eFSM_RESULT_INTERNAL_FAILURE)
    else set_depth (d + 1) ;;; ret (Continue tt)
  else
    d <- get_depth ;;
    exit_loop l_pFsm (Z.to_nat (d - l_iStateChangeDepth loc + 1)) d ;;;
    if FSM_ST_PARENT =? l_iNewStateId loc then
      d <- get_depth ;;
      (if d >? 0 then set_depth (d - 1) else ret tt) ;;;
      ret (Continue tt)
    else
      set_depth (l_iStateChangeDepth loc) ;;;
      ret (Continue tt).

(** The entry [do ... while (l_bComplexState)] loop.  [fuel] bounds the
    number of iterations. *)
Fixpoint entry_loop (l_pFsm : FSM_CB) (fuel : nat) (l_iNewStateId : Z)
  : M World (Flow unit) :=
  match fuel with
  | O => abort OutOfFuel
  | S fuel' =>
      d <- get_depth ;;
      write_nested d l_iNewStateId ;;;
      match _fsmGetState (listStates l_pFsm) l_iNewStateId with
      | None => ret (Continue tt)
      | Some l_pNewState =>
          match fpEntryAction l_pNewState with
          | Some f => invoke_entry f
          | None => ret tt
          end ;;;
          if bComplex l_pNewState && negb (FSM_ST_SAME =? iInitialSubStateId l_pNewState)
          then
            d <- get_depth ;;
            if d >=? FSM_MAX_STATE_NEST_DEPTH - 1
            then ret (Return eFSM_RESULT_INTERNAL_FAILURE)
            else
              set_depth (d + 1) ;;;
              entry_loop l_pFsm fuel' (iInitialSubStateId l_pNewState)
          else ret (Continue tt)
      end
  end.

(** The STATE ENTRY block. *)
Definition state_entry (l_pFsm : FSM_CB) (loc : Locals) : M World (Flow unit) :=
  if negb (FSM_ST_PARENT =? l_iNewStateId loc)
  then entry_loop l_pFsm (Z.to_nat FSM_MAX_STATE_NEST_DEPTH) (l_iNewStateId loc)
  else ret (Continue tt).

(** The body of [if (eFSM_RESULT_NEW_STATE == l_eResult)]. *)
Definition change_state (l_pFsm : FSM_CB) (loc : Locals) : M World FSM_EXECUTION_RESULT :=
  x <- state_exit l_pFsm loc ;;
  match x with
  | Return r => ret r
  | Continue _ =>
      y <- state_entry l_pFsm loc ;;
      match y with
      | Return r => ret r
      | Continue _ => ret (l_eResult loc)
      end
  end.

Definition fsmExecute (a_hFsm : option FSM_CB) (a_iEventId : Z)
  : M World FSM_EXECUTION_RESULT :=
  match a_hFsm with
  | None => ret eFSM_RESULT_NO_TRANSITION
  | Some l_pFsm =>
      if FSM_CATCH_TRANSITION =? a_iEventId then ret eFSM_RESULT_NO_TRANSITION
      else
        x <- find_transition l_pFsm a_iEventId ;;
        match x with
        | Return r => ret r
        | Continue loc =>
            if result_eqb eFSM_RESULT_NEW_STATE (l_eResult loc)
            then change_state l_pFsm loc
            else ret (l_eResult loc)
        end
  end.

End Engine.

(** ** The builder *)

(** A graph under construction: the control block and the outcomes of the
    [malloc] calls still to come ([true]: memory is returned; an exhausted
    list: out of memory). *)
Record Builder : Set := {
  cb : FSM_CB;
  heap : list bool
}.

(** [_fsmCreateObject]: whether a zeroed object was obtained. *)
Definition _fsmCreateObject (b : Builder) : bool * Builder :=
  match heap b with
  | [] => (false, b)
  | ok :: rest => (ok, {| cb := cb b; heap := rest |})
  end.

Definition set_create_error (b : Builder) : Builder :=
  {| cb := {| listStates := listStates (cb b); bCreateError := true |};
     heap := heap b |}.

Definition set_states (b : Builder) (l : list FSM_STATE) : Builder :=
  {| cb := {| listStates := l; bCreateError := bCreateError (cb b) |};
     heap := heap b |}.

(** A state handle is the address of a state object; the objects of
    [listStates] are never moved or freed while the graph is built, so the
    position in the list stands for the address.  [None] is NULL. *)
Definition state_handle : Set := option nat.

Fixpoint state_position (l : list FSM_STATE) (a_iStateId : Z) : option nat :=
  match l with
  | [] => None
  | s :: rest =>
      if iStateId s =? a_iStateId then Some O
      else option_map S (state_position rest a_iStateId)
  end.

(** Assignment through a state pointer. *)
Fixpoint update_state (l : list FSM_STATE) (h : nat) (f : FSM_STATE -> FSM_STATE)
  : list FSM_STATE :=
  match l, h with
  | [], _ => []
  | s :: rest, O => f s :: rest
  | s :: rest, S h' => s :: update_state rest h' f
  end.

Definition fsmCreateFsm (heap0 : list bool) : option Builder :=
  match heap0 with
  | true :: rest =>
      Some {| cb := {| listStates := []; bCreateError := false |}; heap := rest |}
  | _ => None
  end.

Definition fsmHasCreateErrorOccurred (a_hFsm : option FSM_CB) : bool :=
  match a_hFsm with
  | None => true
  | Some l_pFsm => bCreateError l_pFsm
  end.

Definition fsmCreateState (b : Builder) (a_iStateId : Z)
    (fpEntry : FSM_FUNC_ENTRY) (fpExit : FSM_FUNC_EXIT) : state_handle * Builder :=
  if 0 >? a_iStateId then (None, set_create_error b)
  else
    match _fsmGetState (listStates (cb b)) a_iStateId with
    | Some _ => (None, set_create_error b)
    | None =>
        let (ok, b1) := _fsmCreateObject b in
        if ok then
          (Some (length (listStates (cb b1))),
           set_states b1
             (_fsmAddObjectToList (listStates (cb b1))
                {| iStateId := a_iStateId;
                   fpEntryAction := fpEntry;
                   listTransitions := [];
                   fpExitAction := fpExit;
                   bComplex := false;
                   iInitialSubStateId := FSM_ST_SAME |}))
        else (None, set_create_error b1)
    end.

Definition fsmCreateComplexState (b : Builder) (a_iStateId a_iInitialSubStateId : Z)
    (fpEntry : FSM_FUNC_ENTRY) (fpExit : FSM_FUNC_EXIT) : state_handle * Builder :=
  match fsmCreateState b a_iStateId fpEntry fpExit with
  | (None, b1) => (None, b1)
  | (Some h, b1) =>
      (Some h,
       set_states b1
         (update_state (listStates (cb b1)) h
            (fun s =>
               {| iStateId := iStateId s;
                  fpEntryAction := fpEntryAction s;
                  listTransitions := listTransitions s;
                  fpExitAction := fpExitAction s;
                  bComplex := true;
                  iInitialSubStateId := a_iInitialSubStateId |})))
  end.

(** The object of the any-state is zeroed by [_fsmCreateObject] and only
    its id and its two callbacks are assigned. *)
Definition fsmCreateAnyState (b : Builder) : state_handle * Builder :=
  match state_position (listStates (cb b)) FSM_ST_ANY with
  | Some h => (Some h, b)
  | None =>
      let (ok, b1) := _fsmCreateObject b in
      if ok then
        (Some (length (listStates (cb b1))),
         set_states b1
           (_fsmAddObjectToList (listStates (cb b1))
              {| iStateId := FSM_ST_ANY;
                 fpEntryAction := None;
                 listTransitions := [];
                 fpExitAction := None;
                 bComplex := false;
                 iInitialSubStateId := 0 |}))
      else (None, set_create_error b1)
  end.

Definition add_action (t : FSM_TRANSITION) (f : fptr) : FSM_TRANSITION :=
  {| iNewStateId := iNewStateId t;
     bSubState := bSubState t;
     iEventId := iEventId t;
     listConditions := listConditions t;
     listActions := _fsmAddObjectToList (listActions t) (Some f) |}.

(** The [do ... while] loop over the variable arguments: [fns] are the
    function pointers given before the terminating NULL.  The value tells
    whether every action object could be allocated. *)
Fixpoint add_actions (fns : list fptr) (t : FSM_TRANSITION) (b : Builder)
  : bool * FSM_TRANSITION * Builder :=
  match fns with
  | [] => (true, t, b)
  | f :: rest =>
      let (ok, b1) := _fsmCreateObject b in
      if ok then add_actions rest (add_action t f) b1
      else (false, t, set_create_error b1)
  end.

Definition add_transition (s : FSM_STATE) (t : FSM_TRANSITION) : FSM_STATE :=
  {| iStateId := iStateId s;
     fpEntryAction := fpEntryAction s;
     listTransitions := _fsmAddObjectToList (listTransitions s) t;
     fpExitAction := fpExitAction s;
     bComplex := bComplex s;
     iInitialSubStateId := iInitialSubStateId s |}.

(** [fsmCatchTransition].  The outer [option] is [None] when the handle
    does not point to a state object of the graph. *)
Definition fsmCatchTransition (b : Builder) (a_hState : state_handle)
    (a_iNewStateId : Z) (fns : list fptr) : option (bool * Builder) :=
  match a_hState with
  | None => Some (false, b)
  | Some h =>
      match nth_error (listStates (cb b)) h with
      | None => None
      | Some l_pState =>
          match _fsmGetTransition (listTransitions l_pState) FSM_CATCH_TRANSITION with
          | Some _ => Some (false, b)
          | None =>
              let (ok, b1) := _fsmCreateObject b in
              if ok then
                let '(done, t, b2) :=
                  add_actions fns
                    {| iNewStateId := a_iNewStateId;
                       bSubState := false;
                       iEventId := FSM_CATCH_TRANSITION;
                       listConditions := [];
                       listActions := [] |} b1 in
                Some (done,
                      set_states b2
                        (update_state (listStates (cb b2)) h (fun s => add_transition s t)))
              else Some (false, set_create_error b1)
          end
      end
  end.

(** [fsmTransition] ([is_sub = false]) and [fsmTransitionSub]
    ([is_sub = true]), which differ in [bSubState] only.  The condition
    object is allocated without a NULL check: a failed allocation there is
    a NULL dereference, the second way to get [None]. *)
Definition fsmTransition_gen (is_sub : bool) (b : Builder) (a_hState : state_handle)
    (a_iEventId : Z) (a_fpCondition : FSM_FUNC_CONDITION) (a_iNewStateId : Z)
    (fns : list fptr) : option (bool * Builder) :=
  match a_hState with
  | None => Some (false, b)
  | Some h =>
      match nth_error (listStates (cb b)) h with
      | None => None
      | Some _ =>
          if (FSM_CATCH_TRANSITION =? a_iEventId) || (FSM_ST_ANY =? a_iNewStateId)
          then Some (false, set_create_error b)
          else
            let (ok, b1) := _fsmCreateObject b in
            if ok then
              let t0 := {| iNewStateId := a_iNewStateId;
                           bSubState := is_sub;
                           iEventId := a_iEventId;
                           listConditions := [];
                           listActions := [] |} in
              let with_condition :=
                match a_fpCondition with
                | None => Some (t0, b1)
                | Some c =>
                    let (okc, b2) := _fsmCreateObject b1 in
                    if okc then
                      Some ({| iNewStateId := a_iNewStateId;
                               bSubState := is_sub;
                               iEventId := a_iEventId;
                               listConditions := [Some c];
                               listActions := [] |}, b2)
                    else None
                end in
              match with_condition with
              | None => None
              | Some (t1, b2) =>
                  let '(done, t, b3) := add_actions fns t1 b2 in
                  Some (done,
                        set_states b3
                          (update_state (listStates (cb b3)) h
                             (fun s => add_transition s t)))
              end
            else Some (false, set_create_error b1)
      end
  end.

Definition fsmTransition := fsmTransition_gen false.
Definition fsmTransitionSub := fsmTransition_gen true.

(** ** The verifier *)

(** [_fsmIsStateEntered]: some transition of some state has the id as its
    new state. *)
Definition _fsmIsStateEntered (a_pFsm : FSM_CB) (a_iStateId : Z) : bool :=
  existsb
    (fun l_pState =>
       existsb (fun l_pTransition => iNewStateId l_pTransition =? a_iStateId)
         (listTransitions l_pState))
    (listStates a_pFsm).

(** [_fsmIsStateExitted]: some state object with the id has a transition
    whose new state is neither that id nor [FSM_ST_SAME]. *)
Definition _fsmIsStateExitted (a_pFsm : FSM_CB) (a_iStateId : Z) : bool :=
  existsb
    (fun l_pState =>
       (iStateId l_pState =? a_iStateId) &&
       existsb
         (fun l_pTransition =>
            negb (iNewStateId l_pTransition =? a_iStateId) &&
            negb (iNewStateId l_pTransition =? FSM_ST_SAME))
         (listTransitions l_pState))
    (listStates a_pFsm).

Section Verifier.
Context {World : Type} {app : Callbacks World}.

(** [if (a_fpVerifyCb) (a_fpVerifyCb)(id, err);] *)
Definition report (a_fpVerifyCb : FSM_FUNC_VERIFY_CB) (id : Z) (err : FSM_VERIFY_ERROR)
    (e : Env World) : Env World :=
  match a_fpVerifyCb with
  | Some f => record_call (CallVerify f id err) (verify_fn f id err (world e)) e
  | None => e
  end.

(** The first loop of [fsmVerifyFsm]; [rc] is [l_bRc]. *)
Fixpoint verify_entered (l_pFsm : FSM_CB) (a_fpVerifyCb : FSM_FUNC_VERIFY_CB)
    (l : list FSM_STATE) (rc : bool) (e : Env World) : bool * Env World :=
  match l with
  | [] => (rc, e)
  | l_pState :: rest =>
      if negb (FSM_ST_ANY =? iStateId l_pState)
         && negb (_fsmIsStateEntered l_pFsm (iStateId l_pState))
      then verify_entered l_pFsm a_fpVerifyCb rest false
             (report a_fpVerifyCb (iStateId l_pState) eFSM_VERIFY_ERROR_NOENTRY e)
      else verify_entered l_pFsm a_fpVerifyCb rest rc e
  end.

(** The inner loop of the second pass, over the transitions of one state. *)
Fixpoint verify_exitted_of (l_pFsm : FSM_CB) (a_fpVerifyCb : FSM_FUNC_VERIFY_CB)
    (l : list FSM_TRANSITION) (rc : bool) (e : Env World) : bool * Env World :=
  match l with
  | [] => (rc, e)
  | l_pTransition :: rest =>
      if (iNewStateId l_pTransition >=? 0)
         && negb (_fsmIsStateExitted l_pFsm (iNewStateId l_pTransition))
      then verify_exitted_of l_pFsm a_fpVerifyCb rest false
             (report a_fpVerifyCb (iNewStateId l_pTransition) eFSM_VERIFY_ERROR_NOEXIT e)
      else verify_exitted_of l_pFsm a_fpVerifyCb rest rc e
  end.

(** The second loop of [fsmVerifyFsm]. *)
Fixpoint verify_exitted (l_pFsm : FSM_CB) (a_fpVerifyCb : FSM_FUNC_VERIFY_CB)
    (l : list FSM_STATE) (rc : bool) (e : Env World) : bool * Env World :=
  match l with
  | [] => (rc, e)
  | l_pState :: rest =>
      let r := verify_exitted_of l_pFsm a_fpVerifyCb (listTransitions l_pState) rc e in
      verify_exitted l_pFsm a_fpVerifyCb rest (fst r) (snd r)
  end.

Definition fsmVerifyFsm (a_hFsm : option FSM_CB) (a_fpVerifyCb : FSM_FUNC_VERIFY_CB)
    (e : Env World) : bool * Env World :=
  match a_hFsm with
  | None => (false, e)
  | Some l_pFsm =>
      let r := verify_entered l_pFsm a_fpVerifyCb (listStates l_pFsm) true e in
      verify_exitted l_pFsm a_fpVerifyCb (listStates l_pFsm) (fst r) (snd r)
  end.

End Verifier.

(** *** What the verifier is specified to find *)

(** A non-ANY state whose id is the target of no transition of any state. *)
Definition NoEntry (g : FSM_CB) (id : Z) : Prop :=
  (exists s, In s (listStates g) /\ iStateId s = id /\ id <> FSM_ST_ANY) /\
  forall s t, In s (listStates g) -> In t (listTransitions s) -> iNewStateId t <> id.

(** A concrete target [id >= 0] of some transition such that no state
    object with that id has a transition to a different, non-SAME id. *)
Definition NoExit (g : FSM_CB) (id : Z) : Prop :=
  (exists s t, In s (listStates g) /\ In t (listTransitions s) /\
               iNewStateId t = id /\ 0 <= id) /\
  forall s t, In s (listStates g) -> iStateId s = id -> In t (listTransitions s) ->
              iNewStateId t = id \/ iNewStateId t = FSM_ST_SAME.

(** Every violation of the two rules, in the order of the two passes: one
    entry per offending state, then one per offending transition. *)
Definition violations (g : FSM_CB) : list (Z * FSM_VERIFY_ERROR) :=
  map (fun s => (iStateId s, eFSM_VERIFY_ERROR_NOENTRY))
    (filter
       (fun s => negb (FSM_ST_ANY =? iStateId s)
                 && negb (_fsmIsStateEntered g (iStateId s)))
       (listStates g))
  ++
  map (fun t => (iNewStateId t, eFSM_VERIFY_ERROR_NOEXIT))
    (filter
       (fun t => (iNewStateId t >=? 0) && negb (_fsmIsStateExitted g (iNewStateId t)))
       (flat_map listTransitions (listStates g))).

Definition verify_call (f : fptr) (v : Z * FSM_VERIFY_ERROR) : Call :=
  CallVerify f (fst v) (snd v).

(** The callback invocations that hand over a list of violations. *)
Definition reported (a_fpVerifyCb : FSM_FUNC_VERIFY_CB)
    (vs : list (Z * FSM_VERIFY_ERROR)) : list Call :=
  match a_fpVerifyCb with
  | Some f => map (verify_call f) vs
  | None => []
  end.

(** ** The transition search as the specification words it *)

(** A candidate: the nest index it was found at, the state at that index
    and the transition. *)
Definition Candidate : Set := (Z * FSM_STATE * FSM_TRANSITION)%type.

Definition cand_index (c : Candidate) : Z := fst (fst c).
Definition cand_state (c : Candidate) : FSM_STATE := snd (fst c).
Definition cand_transition (c : Candidate) : FSM_TRANSITION := snd c.

(** The transitions of a state that share the event id, in declaration
    order. *)
Definition same_event (a_iEventId : Z) (s : FSM_STATE) : list FSM_TRANSITION :=
  filter (fun t => iEventId t =? a_iEventId) (listTransitions s).

(** The active part of the stack, outermost first, each id with its nest
    index: indices [0 .. iNestDepth]. *)
Definition active_ids (o : FSM_OBJECT_STATE) : list (Z * Z) :=
  firstn (Z.to_nat (iNestDepth o + 1))
    (combine [0; 1; 2; 3] (nest_to_list (iNestedStateIds o))).

(** The ids read by [n] iterations of a scan that starts at index [k]. *)
Fixpoint ids_from (a : NestedStateIds) (n : nat) (k : Z) : list (Z * Z) :=
  match n with
  | O => []
  | S n' =>
      match nest_get a k with
      | Some id => (k, id) :: ids_from a n' (k + 1)
      | None => []
      end
  end.

(** Candidates of a list of active ids when an id that names no state
    simply contributes no candidate. *)
Fixpoint candidates_skipping (g : FSM_CB) (a_iEventId : Z) (l : list (Z * Z))
  : list Candidate :=
  match l with
  | [] => []
  | (k, id) :: rest =>
      match _fsmGetState (listStates g) id with
      | Some s => map (fun t => (k, s, t)) (same_event a_iEventId s)
      | None => []
      end ++ candidates_skipping g a_iEventId rest
  end.

(** Candidates of the active ids that come before the first id naming no
    state. *)
Fixpoint candidates_until_unknown (g : FSM_CB) (a_iEventId : Z) (l : list (Z * Z))
  : list Candidate :=
  match l with
  | [] => []
  | (k, id) :: rest =>
      match _fsmGetState (listStates g) id with
      | Some s =>
          map (fun t => (k, s, t)) (same_event a_iEventId s)
          ++ candidates_until_unknown g a_iEventId rest
      | None => []
      end
  end.

(** The nest index of the first active id that names no state. *)
Fixpoint first_unknown (g : FSM_CB) (l : list (Z * Z)) : option Z :=
  match l with
  | [] => None
  | (k, id) :: rest =>
      match _fsmGetState (listStates g) id with
      | Some _ => first_unknown g rest
      | None => Some k
      end
  end.

Section Specification.
Context {World : Type} {app : Callbacks World}.

(** Try the candidates in order; the first whose condition chain
    evaluates all-true is the match. *)
Fixpoint first_passing (l : list Candidate) : M World (option Candidate) :=
  match l with
  | [] => ret None
  | c :: rest =>
      ok <- condition_loop (listConditions (cand_transition c)) ;;
      if ok then ret (Some c) else first_passing rest
  end.

(** What [fsmExecute] does once the search is over. *)
Definition finish (g : FSM_CB) (loc : Locals) : M World FSM_EXECUTION_RESULT :=
  if result_eqb eFSM_RESULT_NEW_STATE (l_eResult loc)
  then change_state g loc
  else ret (l_eResult loc).

(** Steps C and D for a match found in the nest. *)
Definition take_candidate (g : FSM_CB) (c : Candidate) : M World FSM_EXECUTION_RESULT :=
  r <- run_matched (cand_state c) (cand_transition c) ;;
  out <- store_target (-1, false) r ;;
  finish g (at_depth (after_state initial_locals out) (cand_index c)).

(** Step B and what follows it. *)
Definition take_any_state (g : FSM_CB) (a_iEventId : Z) : M World FSM_EXECUTION_RESULT :=
  loc <- any_state_fallback g a_iEventId initial_locals ;;
  finish g loc.

(** [fsmExecute] as claimed: ids naming no state are passed over. *)
Definition execute_skipping (g : FSM_CB) (a_iEventId : Z) : M World FSM_EXECUTION_RESULT :=
  fun m =>
    (sel <- first_passing (candidates_skipping g a_iEventId (active_ids (obj m))) ;;
     match sel with
     | Some c => take_candidate g c
     | None => take_any_state g a_iEventId
     end) m.

(** [fsmExecute] with the scan ending at the first id naming no state. *)
Definition execute_until_unknown (g : FSM_CB) (a_iEventId : Z)
  : M World FSM_EXECUTION_RESULT :=
  fun m =>
    (sel <- first_passing (candidates_until_unknown g a_iEventId (active_ids (obj m))) ;;
     match sel with
     | Some c => take_candidate g c
     | None =>
         match first_unknown g (active_ids (obj m)) with
         | Some _ => ret eFSM_RESULT_NO_TRANSITION
         | None => take_any_state g a_iEventId
         end
     end) m.

(** Every non-NULL action of a list is invoked, whatever it returns. *)
Fixpoint invoke_all (l : list FSM_FUNC_ACTION) : M World unit :=
  match l with
  | [] => ret tt
  | None :: rest => invoke_all rest
  | Some f :: rest => invoke_action f ;;; invoke_all rest
  end.

(** The log entries of the non-NULL callbacks of a list. *)
Fixpoint action_calls (l : list FSM_FUNC_ACTION) : list Call :=
  match l with
  | [] => []
  | None :: rest => action_calls rest
  | Some f :: rest => CallAction f :: action_calls rest
  end.

Definition entry_calls (s : FSM_STATE) : list Call :=
  match fpEntryAction s with
  | Some f => [CallEntry f]
  | None => []
  end.

End Specification.

(** What the scan does with its verdict [sel] over the ids [l]: run the
    match, or stop at an unknown id, or fall through without a match. *)
Definition scan_verdict {World : Type} {app : Callbacks World}
    (g : FSM_CB) (loc : Locals) (l : list (Z * Z)) (sel : option Candidate)
  : M World (Flow Locals) :=
  match sel with
  | Some c =>
      r <- run_matched (cand_state c) (cand_transition c) ;;
      out <- store_target (l_iNewStateId loc, l_bNewStateIsSubState loc) r ;;
      ret (Continue (at_depth (after_state loc out) (cand_index c)))
  | None =>
      match first_unknown g l with
      | Some _ => ret (Return eFSM_RESULT_NO_TRANSITION)
      | None => ret (Continue loc)
      end
  end.

Definition is_exit_call (c : Call) : Prop := exists f, c = CallExit f.
Definition is_condition_call (c : Call) : Prop := exists f, c = CallCondition f.

(** ** A scripted application and small graphs *)

(** The world of the scripted application is the list of the callbacks
    that fail: a condition or an action returns [FSM_FALSE] exactly when
    its address is listed.  No callback changes the world. *)
Definition fails (f : fptr) (w : list fptr) : bool := existsb (Nat.eqb f) w.

#[export] Instance scripted : Callbacks (list fptr) := {|
  condition_fn := fun f w => (negb (fails f w), w);
  action_fn := fun f w => (negb (fails f w), w);
  entry_fn := fun _ w => w;
  exit_fn := fun _ w => w;
  verify_fn := fun _ _ _ w => w
|}.

Definition simple_transition (ev target : Z) : FSM_TRANSITION :=
  {| iNewStateId := target; bSubState := false; iEventId := ev;
     listConditions := []; listActions := [] |}.

Definition simple_state (id : Z) (ts : list FSM_TRANSITION) : FSM_STATE :=
  {| iStateId := id; fpEntryAction := None; listTransitions := ts;
     fpExitAction := None; bComplex := false; iInitialSubStateId := FSM_ST_SAME |}.

Definition any_state (ts : list FSM_TRANSITION) : FSM_STATE :=
  {| iStateId := FSM_ST_ANY; fpEntryAction := None; listTransitions := ts;
     fpExitAction := None; bComplex := false; iInitialSubStateId := 0 |}.

(** An object that has just been given its start state, in an application
    whose failing callbacks are [failing]. *)
Definition started (start : Z) (failing : list fptr) : Machine (list fptr) :=
  {| obj := fsmSetStartState
              {| iNestDepth := 0;
                 iNestedStateIds := {| slot0 := 0; slot1 := 0; slot2 := 0; slot3 := 0 |};
                 iPreviousStateId := 0 |}
              start FSM_ST_SAME;
     env := {| world := failing; calls := [] |} |}.

(** The machine a run ends in. *)
Definition machine_of {World A : Type} (o : Outcome World A) : Machine World :=
  match o with
  | Returned _ m => m
  | Aborted _ m => m
  end.

(** Graph with a dangling initial substate: state 0 is complex with
    initial substate 9, and no state 9 exists.  Events: 0 enters state 0
    from state 4, 1 nests state 2 below state 0, 5 leaves state 2; the
    any-state also handles 5. *)
Definition g_dangling : FSM_CB :=
  {| listStates :=
       [ simple_state 4 [simple_transition 0 0];
         {| iStateId := 0; fpEntryAction := None;
            listTransitions :=
              [{| iNewStateId := 2; bSubState := true; iEventId := 1;
                  listConditions := []; listActions := [] |}];
            fpExitAction := None; bComplex := true; iInitialSubStateId := 9 |};
         simple_state 2 [simple_transition 5 3];
         simple_state 3 [simple_transition 0 4];
         any_state [simple_transition 5 3] ];
     bCreateError := false |}.

(** The builder calls that produce [g_dangling]. *)
Definition build_dangling : option FSM_CB :=
  match fsmCreateFsm (repeat true 16) with
  | None => None
  | Some b0 =>
      let (h4, b1) := fsmCreateState b0 4 None None in
      match fsmTransition b1 h4 0 None 0 [] with
      | None => None
      | Some (_, b2) =>
      let (h0, b3) := fsmCreateComplexState b2 0 9 None None in
      match fsmTransitionSub b3 h0 1 None 2 [] with
      | None => None
      | Some (_, b4) =>
      let (h2, b5) := fsmCreateState b4 2 None None in
      match fsmTransition b5 h2 5 None 3 [] with
      | None => None
      | Some (_, b6) =>
      let (h3, b7) := fsmCreateState b6 3 None None in
      match fsmTransition b7 h3 0 None 4 [] with
      | None => None
      | Some (_, b8) =>
      let (hany, b9) := fsmCreateAnyState b8 in
      match fsmTransition b9 hany 5 None 3 [] with
      | None => None
      | Some (_, b10) => Some (cb b10)
      end end end end end
  end.

(** The object after events 0 and 1 from start state 4: stack [0; 9; 2]. *)
Definition m_dangling : Machine (list fptr) :=
  machine_of (fsmExecute (Some g_dangling) 1
                (machine_of (fsmExecute (Some g_dangling) 0 (started 4 [])))).

(** Graph with a self-nesting sub-state transition: event 1 in state 0
    nests state 1 below the current state. *)
Definition g_nesting : FSM_CB :=
  {| listStates :=
       [ simple_state 0
           [{| iNewStateId := 1; bSubState := true; iEventId := 1;
               listConditions := []; listActions := [] |}];
         simple_state 1 [simple_transition 2 FSM_ST_PARENT] ];
     bCreateError := false |}.

Definition build_nesting : option FSM_CB :=
  match fsmCreateFsm (repeat true 8) with
  | None => None
  | Some b0 =>
      let (h0, b1) := fsmCreateState b0 0 None None in
      match fsmTransitionSub b1 h0 1 None 1 [] with
      | None => None
      | Some (_, b2) =>
      let (h1, b3) := fsmCreateState b2 1 None None in
      match fsmTransition b3 h1 2 None FSM_ST_PARENT [] with
      | None => None
      | Some (_, b4) => Some (cb b4)
      end end
  end.

(** The object after three events 1 from start state 0: stack
    [0; 1; 1; 1], nest depth 3. *)
Definition m_nested3 : Machine (list fptr) :=
  machine_of (fsmExecute (Some g_nesting) 1
    (machine_of (fsmExecute (Some g_nesting) 1
      (machine_of (fsmExecute (Some g_nesting) 1 (started 0 [])))))).

(** Graph whose any-state has a catch transition.  Event 5 is handled by
    the any-state only, with action 11; its catch transition runs action 12
    and targets state 1.  State 0 has a transition of its own with the
    actions 20, 21, 22 and a catch transition with the actions 23, 24. *)
Definition g_catch : FSM_CB :=
  {| listStates :=
       [ simple_state 0
           [ {| iNewStateId := 2; bSubState := false; iEventId := 7;
                listConditions := [Some 30%nat];
                listActions := [Some 20%nat; Some 21%nat; Some 22%nat] |};
             {| iNewStateId := 1; bSubState := false; iEventId := FSM_CATCH_TRANSITION;
                listConditions := []; listActions := [Some 23%nat; Some 24%nat] |} ];
         simple_state 1 [simple_transition 0 0];
         simple_state 2 [simple_transition 0 0];
         any_state
           [ {| iNewStateId := 2; bSubState := false; iEventId := 5;
                listConditions := []; listActions := [Some 11%nat] |};
             {| iNewStateId := 1; bSubState := false; iEventId := FSM_CATCH_TRANSITION;
                listConditions := []; listActions := [Some 12%nat] |} ] ];
     bCreateError := false |}.

Definition build_catch : option FSM_CB :=
  match fsmCreateFsm (repeat true 32) with
  | None => None
  | Some b0 =>
      let (h0, b1) := fsmCreateState b0 0 None None in
      match fsmTransition b1 h0 7 (Some 30%nat) 2 [20%nat; 21%nat; 22%nat] with
      | None => None
      | Some (_, b2) =>
      match fsmCatchTransition b2 h0 1 [23%nat; 24%nat] with
      | None => None
      | Some (_, b3) =>
      let (h1, b4) := fsmCreateState b3 1 None None in
      match fsmTransition b4 h1 0 None 0 [] with
      | None => None
      | Some (_, b5) =>
      let (h2, b6) := fsmCreateState b5 2 None None in
      match fsmTransition b6 h2 0 None 0 [] with
      | None => None
      | Some (_, b7) =>
      let (hany, b8) := fsmCreateAnyState b7 in
      match fsmTransition b8 hany 5 None 2 [11%nat] with
      | None => None
      | Some (_, b9) =>
      match fsmCatchTransition b9 hany 1 [12%nat] with
      | None => None
      | Some (_, b10) => Some (cb b10)
      end end end end end end
  end.

(** Graph with a two-level default chain: state 1 is complex with initial
    substate 2, state 2 is complex with initial substate 3, state 3 is
    simple.  The entry callbacks are 41, 42 and 43, the exit callbacks
    40, 51, 52 and 53.  Event 1 in state 0 targets state 1; event 2
    targets state 42, which does not exist.  Event 6 has a transition both
    in the outer state 1 (to state 0) and in the inner state 3 (to the
    parent). *)
Definition g_chain : FSM_CB :=
  {| listStates :=
       [ {| iStateId := 0; fpEntryAction := None;
            listTransitions := [simple_transition 1 1; simple_transition 2 42];
            fpExitAction := Some 40%nat; bComplex := false;
            iInitialSubStateId := FSM_ST_SAME |};
         {| iStateId := 1; fpEntryAction := Some 41%nat;
            listTransitions := [simple_transition 9 0; simple_transition 6 0];
            fpExitAction := Some 51%nat; bComplex := true; iInitialSubStateId := 2 |};
         {| iStateId := 2; fpEntryAction := Some 42%nat;
            listTransitions := [simple_transition 8 FSM_ST_PARENT];
            fpExitAction := Some 52%nat; bComplex := true; iInitialSubStateId := 3 |};
         {| iStateId := 3; fpEntryAction := Some 43%nat;
            listTransitions :=
              [simple_transition 7 FSM_ST_PARENT; simple_transition 6 FSM_ST_PARENT];
            fpExitAction := Some 53%nat; bComplex := false;
            iInitialSubStateId := FSM_ST_SAME |} ];
     bCreateError := false |}.

(** The object after event 1 from start state 0: stack [1; 2; 3]. *)
Definition m_chain : Machine (list fptr) :=
  machine_of (fsmExecute (Some g_chain) 1 (started 0 [])).

(** A builder whose state 0 already has a catch transition. *)
Definition b_with_catch : Builder :=
  {| cb := {| listStates :=
                [ simple_state 0
                    [ simple_transition 1 1;
                      {| iNewStateId := 1; bSubState := false;
                         iEventId := FSM_CATCH_TRANSITION;
                         listConditions := []; listActions := [Some 23%nat] |} ];
                  simple_state 1 [simple_transition 1 0] ];
              bCreateError := false |};
     heap := repeat true 8 |}.

Definition build_with_catch : option Builder :=
  match fsmCreateFsm (repeat true 15) with
  | None => None
  | Some b0 =>
      let (h0, b1) := fsmCreateState b0 0 None None in
      match fsmTransition b1 h0 1 None 1 [] with
      | None => None
      | Some (_, b2) =>
      match fsmCatchTransition b2 h0 1 [23%nat] with
      | None => None
      | Some (_, b3) =>
      let (h1, b4) := fsmCreateState b3 1 None None in
      match fsmTransition b4 h1 1 None 0 [] with
      | None => None
      | Some (_, b5) => Some b5
      end end end
  end.

(** ** The rest of the public interface *)

(** [fsmGetCurrentState].  The argument is the pointer ([None] is NULL);
    the value is [None] when the read of [iNestedStateIds[iNestDepth]]
    is outside the array. *)
Definition fsmGetCurrentState (a_pstFsmObjectState : option FSM_OBJECT_STATE) : option Z :=
  match a_pstFsmObjectState with
  | Some o => nest_get (iNestedStateIds o) (iNestDepth o)
  | None => Some FSM_ST_SAME
  end.

(** [fsmGetCurrentTopLevelState]. *)
Definition fsmGetCurrentTopLevelState (a_pstFsmObjectState : option FSM_OBJECT_STATE) : Z :=
  match a_pstFsmObjectState with
  | Some o => slot0 (iNestedStateIds o)
  | None => FSM_ST_SAME
  end.

(** [fsmGetPreviousState]. *)
Definition fsmGetPreviousState (a_pstFsmObjectState : option FSM_OBJECT_STATE) : Z :=
  match a_pstFsmObjectState with
  | Some o => iPreviousStateId o
  | None => FSM_ST_SAME
  end.

Definition add_condition (t : FSM_TRANSITION) (f : fptr) : FSM_TRANSITION :=
  {| iNewStateId := iNewStateId t;
     bSubState := bSubState t;
     iEventId := iEventId t;
     listConditions := _fsmAddObjectToList (listConditions t) (Some f);
     listActions := listActions t |}.

(** The condition loop of [fsmTransitionEx]: [fns] are the condition
    pointers given before the terminating NULL.  The test after the
    allocation looks at the function pointer, which is not NULL there, so a
    failed allocation is followed by a write through NULL: [None]. *)
Fixpoint add_conditions (fns : list fptr) (t : FSM_TRANSITION) (b : Builder)
  : option (FSM_TRANSITION * Builder) :=
  match fns with
  | [] => Some (t, b)
  | f :: rest =>
      let (ok, b1) := _fsmCreateObject b in
      if ok then add_conditions rest (add_condition t f) b1
      else None
  end.

Definition set_target (t : FSM_TRANSITION) (a_iNewStateId : Z) : FSM_TRANSITION :=
  {| iNewStateId := a_iNewStateId;
     bSubState := false;
     iEventId := iEventId t;
     listConditions := listConditions t;
     listActions := listActions t |}.

(** [fsmTransitionEx].  The transition object is linked into the state
    before its conditions, target and actions are read; the target is
    checked against [FSM_ST_ANY] after that. *)
Definition fsmTransitionEx (b : Builder) (a_hState : state_handle) (a_iEventId : Z)
    (conds : list fptr) (a_iNewStateId : Z) (fns : list fptr)
  : option (bool * Builder) :=
  match a_hState with
  | None => Some (false, b)
  | Some h =>
      match nth_error (listStates (cb b)) h with
      | None => None
      | Some _ =>
          if FSM_CATCH_TRANSITION =? a_iEventId
          then Some (false, set_create_error b)
          else
            let (ok, b1) := _fsmCreateObject b in
            if ok then
              match add_conditions conds
                      {| iNewStateId := 0; bSubState := false; iEventId := a_iEventId;
                         listConditions := []; listActions := [] |} b1 with
              | None => None
              | Some (t1, b2) =>
                  if FSM_ST_ANY =? a_iNewStateId
                  then
                    Some (false,
                          set_create_error
                            (set_states b2
                               (update_state (listStates (cb b2)) h
                                  (fun s => add_transition s (set_target t1 a_iNewStateId)))))
                  else
                    let '(done, t, b3) := add_actions fns (set_target t1 a_iNewStateId) b2 in
                    Some (done,
                          set_states b3
                            (update_state (listStates (cb b3)) h
                               (fun s => add_transition s t)))
              end
            else Some (false, set_create_error b1)
      end
  end.

(** *** Construction programs *)

(** One call of the construction interface on a graph under
    construction. *)
Inductive BuildOp : Set :=
| OpCreateState (a_iStateId : Z) (fpEntry : FSM_FUNC_ENTRY) (fpExit : FSM_FUNC_EXIT)
| OpCreateComplexState (a_iStateId a_iInitialSubStateId : Z)
    (fpEntry : FSM_FUNC_ENTRY) (fpExit : FSM_FUNC_EXIT)
| OpCreateAnyState
| OpTransition (is_sub : bool) (a_hState : state_handle) (a_iEventId : Z)
    (a_fpCondition : FSM_FUNC_CONDITION) (a_iNewStateId : Z) (fns : list fptr)
| OpTransitionEx (a_hState : state_handle) (a_iEventId : Z) (conds : list fptr)
    (a_iNewStateId : Z) (fns : list fptr)
| OpCatchTransition (a_hState : state_handle) (a_iNewStateId : Z) (fns : list fptr).

Definition handle_ok (r : state_handle * Builder) : bool * Builder :=
  (match fst r with Some _ => true | None => false end, snd r).

(** The call, with what it returned reduced to success ([true]: a
    non-NULL handle or [FSM_TRUE]). *)
Definition run_op (op : BuildOp) (b : Builder) : option (bool * Builder) :=
  match op with
  | OpCreateState id fpEntry fpExit => Some (handle_ok (fsmCreateState b id fpEntry fpExit))
  | OpCreateComplexState id init fpEntry fpExit =>
      Some (handle_ok (fsmCreateComplexState b id init fpEntry fpExit))
  | OpCreateAnyState => Some (handle_ok (fsmCreateAnyState b))
  | OpTransition is_sub h ev c target fns => fsmTransition_gen is_sub b h ev c target fns
  | OpTransitionEx h ev conds target fns => fsmTransitionEx b h ev conds target fns
  | OpCatchTransition h target fns => fsmCatchTransition b h target fns
  end.

(** A sequence of calls, return values ignored. *)
Fixpoint run_ops (ops : list BuildOp) (b : Builder) : option Builder :=
  match ops with
  | [] => Some b
  | op :: rest =>
      match run_op op b with
      | Some (_, b1) => run_ops rest b1
      | None => None
      end
  end.

(** *** Invariants of a graph *)

Definition unique_ids (g : FSM_CB) : Prop := NoDup (map iStateId (listStates g)).

Definition real_or_any_ids (g : FSM_CB) : Prop :=
  Forall (fun s => 0 <= iStateId s \/ iStateId s = FSM_ST_ANY) (listStates g).

Definition catch_transitions (s : FSM_STATE) : list FSM_TRANSITION :=
  filter (fun t => iEventId t =? FSM_CATCH_TRANSITION) (listTransitions s).

Definition one_catch (g : FSM_CB) : Prop :=
  Forall (fun s => (length (catch_transitions s) <= 1)%nat) (listStates g).

Definition no_sub_transitions (g : FSM_CB) : Prop :=
  forall s t, In s (listStates g) -> In t (listTransitions s) -> bSubState t = false.

(** Every state object of [l] is still at its place in [l'], with the same
    id and callbacks and with its transitions as a prefix of the new
    list. *)
Definition states_extended (l l' : list FSM_STATE) : Prop :=
  forall h s, nth_error l h = Some s ->
    exists s', nth_error l' h = Some s' /\
               iStateId s' = iStateId s /\
               fpEntryAction s' = fpEntryAction s /\
               fpExitAction s' = fpExitAction s /\
               exists more, listTransitions s' = listTransitions s ++ more.

(** *** Exit callbacks in the order of the exit loop *)

Definition exit_call_of (g : FSM_CB) (id : Z) : list Call :=
  match _fsmGetState (listStates g) id with
  | Some s =>
      match fpExitAction s with
      | Some f => [CallExit f]
      | None => []
      end
  | None => []
  end.

(** The exit callbacks of the states at [n] nest indices counting down
    from [k]. *)
Fixpoint exit_calls (g : FSM_CB) (a : NestedStateIds) (n : nat) (k : Z) : list Call :=
  match n with
  | O => []
  | S n' =>
      match nest_get a k with
      | Some id => exit_call_of g id ++ exit_calls g a n' (k - 1)
      | None => []
      end
  end.

Definition is_action_call (c : Call) : Prop := exists f, c = CallAction f.

(** The depth a PARENT transition leaves. *)
Definition parent_depth (d : Z) : Z := if d >? 0 then d - 1 else 0.

(** How one construction call can change the list of states: not at all,
    by one new state object at the tail, or by one new transition at the
    tail of the transition list of one state. *)
Inductive Grown (l : list FSM_STATE) : list FSM_STATE -> Prop :=
| Grown_same : Grown l l
| Grown_state (s : FSM_STATE) :
    _fsmGetState l (iStateId s) = None ->
    0 <= iStateId s \/ iStateId s = FSM_ST_ANY ->
    listTransitions s = [] ->
    Grown l (l ++ [s])
| Grown_transition (h : nat) (s : FSM_STATE) (t : FSM_TRANSITION) :
    nth_error l h = Some s ->
    (iEventId t = FSM_CATCH_TRANSITION -> catch_transitions s = []) ->
    Grown l (update_state l h (fun s0 => add_transition s0 t)).

(** The calls whose failure is recorded in the creation-error flag: all
    but [fsmCatchTransition], and all but those given a NULL handle. *)
Definition failure_is_flagged (op : BuildOp) : Prop :=
  match op with
  | OpCreateState _ _ _ | OpCreateComplexState _ _ _ _ | OpCreateAnyState => True
  | OpTransition _ h _ _ _ _ => h <> None
  | OpTransitionEx h _ _ _ _ => h <> None
  | OpCatchTransition _ _ _ => False
  end.

(** *** Construction programs used as examples *)

(** The calls that produce [g_catch]; the handles are the positions of
    the states: 0, 1, 2, and 3 for the any-state. *)
Definition ops_catch : list BuildOp :=
  [ OpCreateState 0 None None;
    OpTransition false (Some 0%nat) 7 (Some 30%nat) 2 [20%nat; 21%nat; 22%nat];
    OpCatchTransition (Some 0%nat) 1 [23%nat; 24%nat];
    OpCreateState 1 None None;
    OpTransition false (Some 1%nat) 0 None 0 [];
    OpCreateState 2 None None;
    OpTransition false (Some 2%nat) 0 None 0 [];
    OpCreateAnyState;
    OpTransition false (Some 3%nat) 5 None 2 [11%nat];
    OpCatchTransition (Some 3%nat) 1 [12%nat] ].

(** A fresh graph with room for [n] more objects. *)
Definition fresh_builder (n : nat) : Builder :=
  {| cb := {| listStates := []; bCreateError := false |}; heap := repeat true n |}.

(** A graph under construction that holds [g_catch], with room for [n]
    more objects. *)
Definition b_catch (n : nat) : Builder := {| cb := g_catch; heap := repeat true n |}.

(** An id the graph itself supplies to the stack: the target of one of its
    transitions, or the initial substate id of one of its complex
    states. *)
Definition graph_id (g : FSM_CB) (x : Z) : Prop :=
  (exists s t, In s (listStates g) /\ In t (listTransitions s) /\ iNewStateId t = x)
  \/ (exists s, In s (listStates g) /\ bComplex s = true /\ iInitialSubStateId s = x).

Definition is_entry_call (c : Call) : Prop := exists f, c = CallEntry f.

(** A computation that, when it returns, has appended to the call log
    only calls of the kind [P]. *)
Definition logs_only {World A : Type} (P : Call -> Prop) (c : M World A) : Prop :=
  forall m a m', c m = Returned a m' ->
    exists xs, calls (env m') = calls (env m) ++ xs /\ Forall P xs.

(** What the search leaves in the locals: never the internal failure;
    without a new state the target id and the sub-state flag still hold
    their initial values; with one they are copied from a transition of the
    graph whose target is not SAME. *)
Definition target_of (g : FSM_CB) (loc : Locals) : Prop :=
  l_eResult loc <> eFSM_RESULT_INTERNAL_FAILURE /\
  ((l_eResult loc <> eFSM_RESULT_NEW_STATE /\
    l_iNewStateId loc = -1 /\ l_bNewStateIsSubState loc = false)
   \/ (l_eResult loc = eFSM_RESULT_NEW_STATE /\
       exists s t, In s (listStates g) /\ In t (listTransitions s) /\
                   iNewStateId t = l_iNewStateId loc /\
                   bSubState t = l_bNewStateIsSubState loc /\
                   iNewStateId t <> FSM_ST_SAME)).

(** What [_fsmExecuteState] writes through its out parameters. *)
Definition state_outcome (s : FSM_STATE) (out : Z * bool)
    (r : FSM_EXECUTION_RESULT * (Z * bool)) : Prop :=
  fst r <> eFSM_RESULT_INTERNAL_FAILURE /\
  ((fst r <> eFSM_RESULT_NEW_STATE /\ snd r = out)
   \/ (fst r = eFSM_RESULT_NEW_STATE /\
       exists t, In t (listTransitions s) /\
                 snd r = (iNewStateId t, bSubState t) /\
                 iNewStateId t <> FSM_ST_SAME)).

(** A graph whose only transition is a sub-state transition to PARENT. *)
Definition g_sub_parent : FSM_CB :=
  {| listStates :=
       [ simple_state 0
           [{| iNewStateId := FSM_ST_PARENT; bSubState := true; iEventId := 1;
               listConditions := []; listActions := [] |}] ];
     bCreateError := false |}.

(** ** Graphs that keep the stack on known states *)

(** Every transition target is SAME, or PARENT on a transition that is
    not a sub-state transition, or the id of a state of the graph; every
    initial substate of a complex state is SAME or the id of a state of
    the graph. *)
Definition closed_graph (g : FSM_CB) : Prop :=
  (forall s t, In s (listStates g) -> In t (listTransitions s) ->
     iNewStateId t = FSM_ST_SAME
     \/ (iNewStateId t = FSM_ST_PARENT /\ bSubState t = false)
     \/ (iNewStateId t <> FSM_ST_PARENT /\
         _fsmGetState (listStates g) (iNewStateId t) <> None))
  /\ (forall s, In s (listStates g) -> bComplex s = true ->
        iInitialSubStateId s = FSM_ST_SAME
        \/ _fsmGetState (listStates g) (iInitialSubStateId s) <> None).


(** Keeping the slots of the stack as they are. *)
Definition keeps_stack {World A : Type} (c : M World A) : Prop :=
  forall m a m', c m = Returned a m' ->
    iNestedStateIds (obj m') = iNestedStateIds (obj m).






(** ** [fsmDestroyFsm] *)

(** An object handed to [_fsmDeleteObject]. *)
Inductive FSM_OBJECT : Set :=
| ObjCondition (f : FSM_FUNC_CONDITION)
| ObjAction (f : FSM_FUNC_ACTION)
| ObjTransition (t : FSM_TRANSITION)
| ObjState (s : FSM_STATE)
| ObjFsm.

(** The body of the transition loop: the condition objects, the action
    objects, then the transition object. *)
Definition delete_transition (t : FSM_TRANSITION) : list FSM_OBJECT :=
  map ObjCondition (listConditions t) ++ map ObjAction (listActions t) ++ [ObjTransition t].

(** The body of the state loop: the transitions, then the state object. *)
Definition delete_state (s : FSM_STATE) : list FSM_OBJECT :=
  flat_map delete_transition (listTransitions s) ++ [ObjState s].

(** [fsmDestroyFsm]: the objects freed, in the order of the calls of
    [_fsmDeleteObject]; no list node is a NULL pointer, so each call
    frees. *)
Definition fsmDestroyFsm (a_hFsm : option FSM_CB) : list FSM_OBJECT :=
  match a_hFsm with
  | None => []
  | Some l_pFsm => flat_map delete_state (listStates l_pFsm) ++ [ObjFsm]
  end.

(** The number of [malloc] calls still to come that return memory. *)
Definition allocations_left (h : list bool) : nat :=
  length (filter (fun ok => ok) h).

(** The objects a destruction would free now plus the allocations still
    available. *)
Definition balance (b : Builder) : nat :=
  (length (fsmDestroyFsm (Some (cb b))) + allocations_left (heap b))%nat.

(** ** Construction programs and the engine *)

(** Whether the call is [fsmTransitionSub]. *)
Definition is_sub_call (op : BuildOp) : bool :=
  match op with
  | OpTransition is_sub _ _ _ _ _ => is_sub
  | _ => false
  end.

Definition flat_states (l : list FSM_STATE) : Prop :=
  Forall (fun s => Forall (fun t => bSubState t = false) (listTransitions s)) l.

(** A sequence of calls, with what each returned. *)
Fixpoint run_ops_results (ops : list BuildOp) (b : Builder)
  : option (list bool * Builder) :=
  match ops with
  | [] => Some ([], b)
  | op :: rest =>
      match run_op op b with
      | Some (r, b1) =>
          match run_ops_results rest b1 with
          | Some (rs, b') => Some (r :: rs, b')
          | None => None
          end
      | None => None
      end
  end.

(** A graph with an any-state beside a complex state: event 1 in state 2
    enters the complex state 0, whose initial substate is 1; event 9 is
    handled by the any-state only, with target 2. *)
Definition g_any_nested : FSM_CB :=
  {| listStates :=
       [ {| iStateId := 0; fpEntryAction := None; listTransitions := [];
            fpExitAction := Some 70%nat; bComplex := true; iInitialSubStateId := 1 |};
         {| iStateId := 1; fpEntryAction := None; listTransitions := [];
            fpExitAction := Some 71%nat; bComplex := false;
            iInitialSubStateId := FSM_ST_SAME |};
         {| iStateId := 2; fpEntryAction := Some 72%nat;
            listTransitions := [simple_transition 1 0];
            fpExitAction := None; bComplex := false;
            iInitialSubStateId := FSM_ST_SAME |};
         any_state [simple_transition 9 2] ];
     bCreateError := false |}.

(** The object after event 1 from start state 2: stack [0; 1], nest depth 1. *)
Definition m_any_nested : Machine (list fptr) :=
  machine_of (fsmExecute (Some g_any_nested) 1 (started 2 [])).

(** A graph with a sub-state transition to an id that names no state:
    event 1 in state 0 nests state 1 below the current state, event 2
    nests the absent id 42. *)
Definition g_absent_sub : FSM_CB :=
  {| listStates :=
       [ simple_state 0
           [{| iNewStateId := 1; bSubState := true; iEventId := 1;
               listConditions := []; listActions := [] |};
            {| iNewStateId := 42; bSubState := true; iEventId := 2;
               listConditions := []; listActions := [] |}];
         simple_state 1 [] ];
     bCreateError := false |}.

Definition build_absent_sub : option FSM_CB :=
  match fsmCreateFsm (repeat true 8) with
  | None => None
  | Some b0 =>
      let (h0, b1) := fsmCreateState b0 0 None None in
      match fsmTransitionSub b1 h0 1 None 1 [] with
      | None => None
      | Some (_, b2) =>
      match fsmTransitionSub b2 h0 2 None 42 [] with
      | None => None
      | Some (_, b3) =>
      let (h1, b4) := fsmCreateState b3 1 None None in
      Some (cb b4)
      end end
  end.

(** The object after three events 1 from start state 0: stack
    [0; 1; 1; 1], nest depth 3. *)
Definition m_absent3 : Machine (list fptr) :=
  machine_of (fsmExecute (Some g_absent_sub) 1
    (machine_of (fsmExecute (Some g_absent_sub) 1
      (machine_of (fsmExecute (Some g_absent_sub) 1 (started 0 [])))))).

(** * Properties *)

(** ** The example graphs are what the builder produces *)

Example build_dangling_graph : build_dangling = Some g_dangling.
Proof. reflexivity. Qed.

Example build_nesting_graph : build_nesting = Some g_nesting.
Proof. reflexivity. Qed.

Example build_catch_graph : build_catch = Some g_catch.
Proof. reflexivity. Qed.

Example build_with_catch_builder : build_with_catch = Some b_with_catch.
Proof. reflexivity. Qed.

Example m_dangling_stack :
  obj m_dangling
  = {| iNestDepth := 2;
       iNestedStateIds := {| slot0 := 0; slot1 := 9; slot2 := 2; slot3 := 0 |};
       iPreviousStateId := 9 |}.
Proof. reflexivity. Qed.

Example m_chain_stack :
  obj m_chain
  = {| iNestDepth := 2;
       iNestedStateIds := {| slot0 := 1; slot1 := 2; slot2 := 3; slot3 := 0 |};
       iPreviousStateId := 0 |}.
Proof. reflexivity. Qed.

(** From the stack [1; 2; 3], a transition matched at depth 2 with target
    PARENT: only state 3 is exited, the depth drops to 1, nothing is
    entered. *)
Example parent_target_pops_one_level :
  fsmExecute (Some g_chain) 7 m_chain
  = Returned eFSM_RESULT_NEW_STATE
      {| obj := {| iNestDepth := 1;
                   iNestedStateIds := {| slot0 := 1; slot1 := 2; slot2 := 3; slot3 := 0 |};
                   iPreviousStateId := 3 |};
         env := {| world := [];
                   calls := calls (env m_chain) ++ [CallExit 53%nat] |} |}.
Proof. reflexivity. Qed.



(** ** The monad *)

Section MonadFacts.
Context {World : Type}.

Lemma bind_returned {A B : Type} (c : M World A) (k : A -> M World B) m a m' :
  c m = Returned a m' -> bind c k m = k a m'.
Proof. intros H. unfold bind. rewrite H. reflexivity. Qed.

Lemma bind_aborted {A B : Type} (c : M World A) (k : A -> M World B) m why m' :
  c m = Aborted why m' -> bind c k m = Aborted why m'.
Proof. intros H. unfold bind. rewrite H. reflexivity. Qed.

Lemma bind_same_start {A B : Type} (c c' : M World A) (k : A -> M World B) m :
  c m = c' m -> bind c k m = bind c' k m.
Proof. intros H. unfold bind. rewrite H. reflexivity. Qed.

Lemma bind_ret_l {A B : Type} (a : A) (k : A -> M World B) m :
  bind (ret a) k m = k a m.
Proof. reflexivity. Qed.

Lemma bind_assoc {A B C : Type} (c : M World A) (k : A -> M World B)
    (h : B -> M World C) m :
  bind (bind c k) h m = bind c (fun a => bind (k a) h) m.
Proof. unfold bind. destruct (c m); reflexivity. Qed.

Lemma search_only_ret {A : Type} (a : A) : search_only (ret (World := World) a).
Proof. intros m. exists a, m. split; reflexivity. Qed.

Lemma search_only_bind {A B : Type} (c : M World A) (k : A -> M World B) :
  search_only c -> (forall a, search_only (k a)) -> search_only (bind c k).
Proof.
  intros Hc Hk m.
  destruct (Hc m) as (a & m1 & E1 & O1).
  destruct (Hk a m1) as (b & m2 & E2 & O2).
  exists b, m2. split.
  - rewrite (bind_returned _ _ _ _ _ E1). exact E2.
  - congruence.
Qed.

End MonadFacts.

Lemma result_eqb_eq a b : result_eqb a b = true <-> a = b.
Proof. destruct a, b; simpl; split; intros H; congruence. Qed.

Lemma result_eqb_refl a : result_eqb a a = true.
Proof. destruct a; reflexivity. Qed.

(** ** The search touches the application only *)

Section SearchFacts.
Context {World : Type} {app : Callbacks World}.

Lemma search_only_on_env {A : Type} (f : Env World -> A * Env World) :
  search_only (on_env f).
Proof. intros m. eexists _, _. split; reflexivity. Qed.

Lemma search_only_condition_loop l : search_only (condition_loop l).
Proof.
  induction l as [|[f|] l IH]; cbn.
  - apply search_only_ret.
  - apply search_only_bind; [apply search_only_on_env|].
    intros [|]; [exact IH | apply search_only_ret].
  - exact IH.
Qed.

Lemma search_only_action_loop ev l : search_only (action_loop ev l).
Proof.
  induction l as [|[f|] l IH]; cbn.
  - apply search_only_ret.
  - apply search_only_bind; [apply search_only_on_env|].
    intros ok. destruct (negb ok && negb (FSM_CATCH_TRANSITION =? ev));
      [apply search_only_ret | exact IH].
  - exact IH.
Qed.

Lemma search_only_fsmExecuteTransition t : search_only (_fsmExecuteTransition t).
Proof.
  unfold _fsmExecuteTransition.
  apply search_only_bind; [apply search_only_action_loop|].
  intros pass. destruct (negb pass); [apply search_only_ret|].
  destruct (FSM_ST_SAME =? iNewStateId t); apply search_only_ret.
Qed.

Lemma search_only_transition_loop ev l : search_only (transition_loop ev l).
Proof.
  induction l as [|t l IH]; cbn.
  - apply search_only_ret.
  - destruct (iEventId t =? ev); [|exact IH].
    apply search_only_bind; [apply search_only_condition_loop|].
    intros [|]; [apply search_only_ret | exact IH].
Qed.

(** [_fsmExecuteTransition] never answers "no transition" or "internal
    failure", and a failure is possible for ordinary transitions only. *)
Lemma fsmExecuteTransition_result t m r m' :
  _fsmExecuteTransition t m = Returned r m' ->
  r = eFSM_RESULT_ACTION_FAILURE
  \/ (r = eFSM_RESULT_NO_CHANGE /\ iNewStateId t = FSM_ST_SAME)
  \/ (r = eFSM_RESULT_NEW_STATE /\ iNewStateId t <> FSM_ST_SAME).
Proof.
  unfold _fsmExecuteTransition, bind.
  destruct (action_loop (iEventId t) (listActions t) m) as [pass m1|]; [|discriminate].
  destruct pass; cbn.
  - destruct (Z.eqb_spec FSM_ST_SAME (iNewStateId t)); intros H; inversion H; auto.
  - intros H; inversion H; auto.
Qed.

(** The final [l_pTransition] of the loop body is NULL only together
    with an action failure. *)
Lemma run_matched_result s t m r m' :
  run_matched s t m = Returned r m' ->
  (fst r = eFSM_RESULT_ACTION_FAILURE /\ snd r = None)
  \/ (exists t', snd r = Some t' /\
        ((fst r = eFSM_RESULT_NO_CHANGE /\ iNewStateId t' = FSM_ST_SAME)
         \/ (fst r = eFSM_RESULT_NEW_STATE /\ iNewStateId t' <> FSM_ST_SAME)
         \/ (fst r = eFSM_RESULT_ACTION_FAILURE))).
Proof.
  unfold run_matched, bind.
  destruct (_fsmExecuteTransition t m) as [r1 m1|] eqn:E1; [|discriminate].
  destruct (result_eqb eFSM_RESULT_ACTION_FAILURE r1) eqn:Er.
  - destruct (_fsmGetTransition (listTransitions s) FSM_CATCH_TRANSITION) as [[c rest]|].
    + destruct (_fsmExecuteTransition c m1) as [r2 m2|] eqn:E2; [|discriminate].
      intros H; inversion H; subst; simpl. right. exists c. split; [reflexivity|].
      destruct (fsmExecuteTransition_result _ _ _ _ E2) as [?|[?|?]]; auto.
    + intros H; inversion H; subst; simpl. left.
      apply result_eqb_eq in Er. auto.
  - intros H; inversion H; subst; simpl. right. exists t. split; [reflexivity|].
    destruct (fsmExecuteTransition_result _ _ _ _ E1) as [?|[?|?]]; auto.
Qed.

Lemma search_only_run_matched s t : search_only (run_matched s t).
Proof.
  unfold run_matched.
  apply search_only_bind; [apply search_only_fsmExecuteTransition|].
  intros r. destruct (result_eqb eFSM_RESULT_ACTION_FAILURE r); [|apply search_only_ret].
  destruct (_fsmGetTransition (listTransitions s) FSM_CATCH_TRANSITION) as [[c rest]|];
    [|apply search_only_ret].
  apply search_only_bind; [apply search_only_fsmExecuteTransition|].
  intros r'. apply search_only_ret.
Qed.

(** After a match: the result is never "no transition", the out
    parameters are written exactly on "new state", and no NULL pointer is
    dereferenced. *)
Lemma matched_outcome s t out m :
  exists r l_pT m',
    run_matched s t m = Returned (r, l_pT) m' /\ obj m' = obj m /\
    r <> eFSM_RESULT_NO_TRANSITION /\ r <> eFSM_RESULT_INTERNAL_FAILURE /\
    bind (run_matched s t) (fun x => store_target out x) m =
      Returned (r, match l_pT with
                   | Some t' =>
                       if result_eqb eFSM_RESULT_NEW_STATE r
                       then (iNewStateId t', bSubState t') else out
                   | None => out
                   end) m'.
Proof.
  destruct (search_only_run_matched s t m) as ([r l_pT] & m' & E & O).
  exists r, l_pT, m'. split; [exact E|]. split; [exact O|].
  pose proof (run_matched_result _ _ _ _ _ E) as R. simpl in R.
  rewrite (bind_returned _ _ _ _ _ E). unfold store_target; simpl.
  destruct R as [[-> ->]|(t' & -> & [[-> _]|[[-> _]| ->]])]; simpl;
    repeat split; try discriminate; reflexivity.
Qed.

Lemma search_only_fsmExecuteState ev s out : search_only (_fsmExecuteState ev s out).
Proof.
  intros m. unfold _fsmExecuteState.
  destruct (search_only_transition_loop ev (listTransitions s) m) as (found & m1 & E1 & O1).
  rewrite (bind_returned _ _ _ _ _ E1).
  destruct found as [t|].
  - destruct (matched_outcome s t out m1) as (r & l_pT & m2 & _ & O2 & _ & _ & E2).
    rewrite E2. eexists _, _. split; [reflexivity | congruence].
  - eexists _, _. split; [reflexivity | exact O1].
Qed.

End SearchFacts.

(** ** The nest scan is a first-match search over a flat candidate list *)

Lemma active_ids_from (o : FSM_OBJECT_STATE) :
  depth_ok o ->
  active_ids o = ids_from (iNestedStateIds o) (Z.to_nat (iNestDepth o + 1)) 0.
Proof.
  unfold depth_ok, active_ids, FSM_MAX_STATE_NEST_DEPTH. intros H.
  assert (D : iNestDepth o = 0 \/ iNestDepth o = 1 \/ iNestDepth o = 2 \/ iNestDepth o = 3)
    by lia.
  destruct D as [-> | [-> | [-> | ->]]]; reflexivity.
Qed.

Lemma nest_get_in_range (a : NestedStateIds) (k : Z) :
  0 <= k <= 3 -> exists id, nest_get a k = Some id.
Proof.
  intros H.
  assert (D : k = 0 \/ k = 1 \/ k = 2 \/ k = 3) by lia.
  destruct D as [-> | [-> | [-> | ->]]]; eexists; reflexivity.
Qed.

Lemma nest_get_out_of_range (a : NestedStateIds) (k : Z) :
  k < 0 \/ 3 < k -> nest_get a k = None.
Proof.
  intros H. unfold nest_get.
  destruct (Z.eqb_spec k 0); [lia|].
  destruct (Z.eqb_spec k 1); [lia|].
  destruct (Z.eqb_spec k 2); [lia|].
  destruct (Z.eqb_spec k 3); [lia|].
  reflexivity.
Qed.

Lemma candidates_index_sorted g ev : forall n a k c,
  In c (candidates_until_unknown g ev (ids_from a n k)) -> k <= cand_index c.
Proof.
  induction n as [|n IH]; intros a k c; cbn; [tauto|].
  destruct (nest_get a k) as [id|]; cbn; [|tauto].
  destruct (_fsmGetState (listStates g) id) as [s|]; [|cbn; tauto].
  rewrite in_app_iff, in_map_iff. intros [(t & <- & _)|H].
  - cbn. lia.
  - apply IH in H. lia.
Qed.

Section ScanFacts.
Context {World : Type} {app : Callbacks World}.

Lemma search_only_first_passing l : search_only (first_passing l).
Proof.
  induction l as [|c l IH]; cbn.
  - apply search_only_ret.
  - apply search_only_bind; [apply search_only_condition_loop|].
    intros [|]; [apply search_only_ret | exact IH].
Qed.

(** The walk of one state's transition list with [_fsmGetTransition] is
    the first-match search over its same-event transitions. *)
Lemma first_passing_state (k : Z) (s : FSM_STATE) ev rest : forall l m,
  first_passing (map (fun t => (k, s, t)) (filter (fun t => iEventId t =? ev) l) ++ rest) m =
  match transition_loop ev l m with
  | Returned (Some t) m1 => Returned (Some (k, s, t)) m1
  | Returned None m1 => first_passing rest m1
  | Aborted why m1 => Aborted why m1
  end.
Proof.
  induction l as [|t l IH]; intros m; cbn.
  - destruct (first_passing rest m); reflexivity.
  - destruct (iEventId t =? ev); cbn; [|apply IH].
    unfold bind; cbn.
    destruct (condition_loop (listConditions t) m) as [[|] m1|]; cbn;
      [reflexivity | apply IH | reflexivity].
Qed.

(** The loop as the source iterates it: each round asks
    [_fsmGetTransition] for the next transition of the event after the
    current node. *)
Lemma transition_loop_next ev l m :
  transition_loop ev l m =
  match _fsmGetTransition l ev with
  | None => Returned None m
  | Some (t, rest) =>
      (pass <- condition_loop (listConditions t) ;;
       if pass then ret (Some t) else transition_loop ev rest) m
  end.
Proof.
  induction l as [|t l IH]; cbn; [reflexivity|].
  destruct (iEventId t =? ev); [reflexivity | exact IH].
Qed.

Lemma after_state_no_transition loc :
  l_eResult loc = eFSM_RESULT_NO_TRANSITION ->
  after_state loc
    (eFSM_RESULT_NO_TRANSITION, (l_iNewStateId loc, l_bNewStateIsSubState loc)) = loc.
Proof. destruct loc; cbn; intros ->; reflexivity. Qed.

Lemma nest_loop_scan g ev : forall n cnt loc m,
  0 <= cnt -> cnt + Z.of_nat n <= 4 ->
  l_eResult loc = eFSM_RESULT_NO_TRANSITION ->
  nest_loop g ev n cnt loc m =
  (sel <- first_passing
            (candidates_until_unknown g ev (ids_from (iNestedStateIds (obj m)) n cnt)) ;;
   scan_verdict g loc (ids_from (iNestedStateIds (obj m)) n cnt) sel) m.
Proof.
  induction n as [|n IH]; intros cnt loc m Hc Hn Hloc.
  - reflexivity.
  - cbn [nest_loop ids_from].
    destruct (nest_get_in_range (iNestedStateIds (obj m)) cnt ltac:(lia)) as (id & Eid).
    assert (Er : read_nested cnt m = Returned id m) by (unfold read_nested; rewrite Eid; reflexivity).
    rewrite (bind_returned _ _ _ _ _ Er). rewrite Eid.
    cbn [candidates_until_unknown first_unknown].
    destruct (_fsmGetState (listStates g) id) as [s|] eqn:Es;
      [|unfold bind; cbn; rewrite Es; reflexivity].
    unfold bind at 2. unfold same_event. rewrite first_passing_state.
    unfold _fsmExecuteState. rewrite bind_assoc.
    destruct (search_only_transition_loop ev (listTransitions s) m) as (found & m1 & E1 & O1).
    rewrite (bind_returned _ _ _ _ _ E1). rewrite E1.
    destruct found as [t|].
    + cbn [scan_verdict cand_state cand_transition cand_index fst snd].
      rewrite bind_assoc.
      destruct (matched_outcome s t (l_iNewStateId loc, l_bNewStateIsSubState loc) m1)
        as (r & l_pT & m2 & E2 & _ & Hr & _ & E3).
      unfold bind in E3 |- *. rewrite E2 in E3 |- *.
      destruct (store_target (l_iNewStateId loc, l_bNewStateIsSubState loc) (r, l_pT) m2)
        as [out m3|]; [|discriminate].
      inversion E3; subst. cbn [fst].
      destruct (result_eqb eFSM_RESULT_NO_TRANSITION r) eqn:Eq; [|reflexivity].
      apply result_eqb_eq in Eq. congruence.
    + rewrite bind_ret_l. cbn [fst result_eqb].
      rewrite after_state_no_transition by exact Hloc.
      rewrite (IH (cnt + 1) loc m1 ltac:(lia) ltac:(lia) Hloc).
      rewrite O1. unfold bind.
      destruct (first_passing _ m1) as [[c|] m2|]; try reflexivity.
      cbn. rewrite Es. reflexivity.
Qed.

End ScanFacts.

Lemma candidates_until_unknown_sorted g ev : forall n a k,
  StronglySorted (fun c c' => cand_index c <= cand_index c')
    (candidates_until_unknown g ev (ids_from a n k)).
Proof.
  induction n as [|n IH]; intros a k; cbn; [constructor|].
  destruct (nest_get a k) as [id|]; cbn; [|constructor].
  destruct (_fsmGetState (listStates g) id) as [s|]; [|constructor].
  induction (same_event ev s) as [|t ts IHts]; cbn; [apply IH|].
  constructor; [exact IHts|].
  apply Forall_forall. intros c. rewrite in_app_iff, in_map_iff.
  intros [(t' & <- & _)|H]; cbn; [lia|].
  apply candidates_index_sorted in H. lia.
Qed.

Lemma sorted_after_split {A : Type} (R : A -> A -> Prop) (c : A) (post : list A) :
  forall pre, StronglySorted R (pre ++ c :: post) -> Forall (R c) post.
Proof.
  induction pre as [|x pre IH]; cbn; intros H; apply StronglySorted_inv in H.
  - tauto.
  - apply IH. tauto.
Qed.

Section ExecuteFacts.
Context {World : Type} {app : Callbacks World}.

Lemma get_depth_run (m : Machine World) :
  get_depth m = Returned (iNestDepth (obj m)) m.
Proof. reflexivity. Qed.

(** The match of a first-match search is one of the candidates. *)
Lemma first_passing_split : forall l (m : Machine World) c m',
  first_passing l m = Returned (Some c) m' -> exists pre post, l = pre ++ c :: post.
Proof.
  induction l as [|c0 l IH]; intros m c m'; cbn [first_passing].
  - discriminate.
  - unfold bind.
    destruct (condition_loop (listConditions (cand_transition c0)) m) as [[|] m1|];
      [| |discriminate].
    + intros H; cbv [ret] in H; inversion H; subst. exists [], l. reflexivity.
    + intros H. destruct (IH _ _ _ H) as (pre & post & ->).
      exists (c0 :: pre), post. reflexivity.
Qed.

(** The search half of [fsmExecute] in terms of the flat search. *)
Lemma find_transition_scan g ev (m : Machine World) :
  depth_ok (obj m) ->
  find_transition g ev m =
  (sel <- first_passing (candidates_until_unknown g ev (active_ids (obj m))) ;;
   x <- scan_verdict g initial_locals (active_ids (obj m)) sel ;;
   match x with
   | Return r => ret (Return r)
   | Continue loc =>
       loc' <- any_state_fallback g ev loc ;;
       ret (Continue loc')
   end) m.
Proof.
  intros Hd. unfold find_transition.
  rewrite (bind_returned _ _ _ _ _ (get_depth_run m)).
  unfold bind at 1.
  rewrite nest_loop_scan;
    [| lia | unfold depth_ok, FSM_MAX_STATE_NEST_DEPTH in Hd; lia | reflexivity].
  rewrite <- active_ids_from by exact Hd.
  unfold bind. destruct (first_passing _ m) as [sel m1|]; reflexivity.
Qed.

(** [fsmExecute] is the first-match search over the candidates that
    precede the first unknown id, followed by steps B to D. *)
Lemma fsmExecute_scan g ev (m : Machine World) :
  depth_ok (obj m) -> ev <> FSM_CATCH_TRANSITION ->
  fsmExecute (Some g) ev m = execute_until_unknown g ev m.
Proof.
  intros Hd Hev. unfold fsmExecute, execute_until_unknown.
  destruct (Z.eqb_spec FSM_CATCH_TRANSITION ev) as [E|_]; [congruence|].
  rewrite (bind_same_start _ _ _ _ (find_transition_scan g ev m Hd)).
  rewrite !bind_assoc.
  destruct (search_only_first_passing
              (candidates_until_unknown g ev (active_ids (obj m))) m)
    as (sel & m1 & E1 & O1).
  rewrite !(bind_returned _ _ _ _ _ E1).
  destruct sel as [c|].
  - cbn [scan_verdict]. unfold take_candidate.
    destruct (matched_outcome (cand_state c) (cand_transition c) (-1, false) m1)
      as (r & l_pT & m2 & E2 & _ & Hr & _ & E3).
    cbn [initial_locals l_iNewStateId l_bNewStateIsSubState].
    rewrite !bind_assoc. rewrite !(bind_returned _ _ _ _ _ E2).
    unfold bind in E3. rewrite E2 in E3.
    rewrite !bind_assoc. rewrite !(bind_returned _ _ _ _ _ E3).
    rewrite !bind_ret_l. unfold any_state_fallback.
    cbn [at_depth after_state l_eResult fst snd].
    destruct (result_eqb eFSM_RESULT_NO_TRANSITION r) eqn:Eq.
    + apply result_eqb_eq in Eq. congruence.
    + reflexivity.
  - cbn [scan_verdict].
    destruct (first_unknown g (active_ids (obj m))); [reflexivity|].
    unfold take_any_state, finish, bind, ret.
    destruct (any_state_fallback g ev initial_locals m1); reflexivity.
Qed.

End ExecuteFacts.

(** C1 (amended).  For every graph, every object state whose nest depth is
    within the array and every event id other than the catch id,
    [fsmExecute] selects its transition by scanning the nest indices
    outermost first up to the first index whose id names no state: the
    same-event transitions of the states at these indices are tried in
    scan order and, within a state, in declaration order; one whose
    condition chain fails is skipped; the first whose chain is all-true is
    the match.  If there is none and an index names no state the call
    answers "no transition"; otherwise the any-state is consulted.  The
    candidates are ordered by nest index, so every candidate that is not
    tried because of the match is at the same or a deeper nest index: an
    outer match wins over an inner one. *)
Theorem C1_scan_selects_first_match :
  forall (World : Type) (app : Callbacks World) (g : FSM_CB) (ev : Z) (m : Machine World),
    depth_ok (obj m) -> ev <> FSM_CATCH_TRANSITION ->
    fsmExecute (Some g) ev m = execute_until_unknown g ev m
    /\ StronglySorted (fun c c' => cand_index c <= cand_index c')
         (candidates_until_unknown g ev (active_ids (obj m)))
    /\ forall c m',
         first_passing (candidates_until_unknown g ev (active_ids (obj m))) m
           = Returned (Some c) m' ->
         exists pre post,
           candidates_until_unknown g ev (active_ids (obj m)) = pre ++ c :: post /\
           forall c', In c' post -> cand_index c <= cand_index c'.
Proof.
  intros World app g ev m Hd Hev.
  assert (Hs : StronglySorted (fun c c' => cand_index c <= cand_index c')
                 (candidates_until_unknown g ev (active_ids (obj m))))
    by (rewrite active_ids_from by exact Hd; apply candidates_until_unknown_sorted).
  split; [apply fsmExecute_scan; assumption|]. split; [exact Hs|].
  intros c m' Hsel. destruct (first_passing_split _ _ _ _ Hsel) as (pre & post & E).
  exists pre, post. split; [exact E|].
  rewrite E in Hs. apply sorted_after_split in Hs.
  apply Forall_forall. exact Hs.
Qed.

Lemma C1_scan_selects_first_match_witness :
  depth_ok (obj m_chain) /\ 6 <> FSM_CATCH_TRANSITION /\
  map cand_index (candidates_until_unknown g_chain 6 (active_ids (obj m_chain))) = [0; 2] /\
  fsmExecute (Some g_chain) 6 m_chain = execute_until_unknown g_chain 6 m_chain /\
  fsmExecute (Some g_chain) 6 m_chain
    = Returned eFSM_RESULT_NEW_STATE
        {| obj := {| iNestDepth := 0;
                     iNestedStateIds := {| slot0 := 0; slot1 := 2; slot2 := 3; slot3 := 0 |};
                     iPreviousStateId := 3 |};
           env := {| world := [];
                     calls := calls (env m_chain)
                              ++ [CallExit 53%nat; CallExit 52%nat; CallExit 51%nat] |} |}.
Proof.
  assert (Hd : depth_ok (obj m_chain)) by (vm_compute; split; discriminate).
  assert (Hev : 6 <> FSM_CATCH_TRANSITION) by discriminate.
  split; [exact Hd|]. split; [exact Hev|]. split; [vm_compute; reflexivity|].
  split; [exact (proj1 (C1_scan_selects_first_match _ _ g_chain 6 m_chain Hd Hev))|].
  vm_compute. reflexivity.
Defined.

(** C1 as stated fails: with the stack [0; 9; 2], where no state 9 exists,
    the first enabled transition of event 5 in scan order is the one of
    state 2 at index 2, but [fsmExecute] selects nothing. *)
Lemma C1_counterexample :
  execute_skipping g_dangling 5 m_dangling
  = Returned eFSM_RESULT_NEW_STATE
      {| obj := {| iNestDepth := 2;
                   iNestedStateIds := {| slot0 := 0; slot1 := 9; slot2 := 3; slot3 := 0 |};
                   iPreviousStateId := 2 |};
         env := {| world := []; calls := [] |} |}
  /\ fsmExecute (Some g_dangling) 5 m_dangling
     = Returned eFSM_RESULT_NO_TRANSITION m_dangling
  /\ fsmExecute (Some g_dangling) 5 m_dangling <> execute_skipping g_dangling 5 m_dangling.
Proof.
  split; [vm_compute; reflexivity|].
  split; [vm_compute; reflexivity|].
  vm_compute. discriminate.
Qed.

(** ** An unknown id ends the scan *)

Lemma first_unknown_bounds g ev : forall n a k0 k,
  first_unknown g (ids_from a n k0) = Some k ->
  k0 <= k /\
  forall c, In c (candidates_until_unknown g ev (ids_from a n k0)) -> cand_index c < k.
Proof.
  induction n as [|n IH]; intros a k0 k; cbn; [discriminate|].
  destruct (nest_get a k0) as [id|]; cbn; [|discriminate].
  destruct (_fsmGetState (listStates g) id) as [s|].
  - intros H. destruct (IH _ _ _ H) as [Hk Hc]. split; [lia|].
    intros c. rewrite in_app_iff, in_map_iff. intros [(t & <- & _)|Hin].
    + cbn. lia.
    + apply Hc, Hin.
  - intros H. inversion H; subst. split; [lia|]. cbn. tauto.
Qed.

Section LogFacts.
Context {World : Type} {app : Callbacks World}.

Lemma condition_loop_log l : forall (m : Machine World) b m',
  condition_loop l m = Returned b m' ->
  exists cs, calls (env m') = calls (env m) ++ cs /\ Forall is_condition_call cs.
Proof.
  induction l as [|[f|] l IH]; intros m b m'; cbn.
  - intros H; inversion H; subst. exists []. rewrite app_nil_r. auto.
  - unfold bind. cbn.
    destruct (fst (condition_fn f (world (env m)))).
    + intros H. apply IH in H. destruct H as (cs & E & F). cbn in E.
      exists (CallCondition f :: cs). rewrite E, <- app_assoc. split; [reflexivity|].
      constructor; [exists f; reflexivity | exact F].
    + intros H; inversion H; subst. cbn. exists [CallCondition f].
      split; [reflexivity|]. constructor; [exists f; reflexivity | constructor].
  - apply IH.
Qed.

Lemma first_passing_log l : forall (m : Machine World) sel m',
  first_passing l m = Returned sel m' ->
  exists cs, calls (env m') = calls (env m) ++ cs /\ Forall is_condition_call cs.
Proof.
  induction l as [|c l IH]; intros m sel m'; cbn.
  - intros H; inversion H; subst. exists []. rewrite app_nil_r. auto.
  - unfold bind.
    destruct (condition_loop (listConditions (cand_transition c)) m) as [b m1|] eqn:E1;
      [|discriminate].
    destruct (condition_loop_log _ _ _ _ E1) as (cs1 & L1 & F1).
    destruct b.
    + intros H; inversion H; subst. exists cs1. auto.
    + intros H. destruct (IH _ _ _ H) as (cs2 & L2 & F2).
      exists (cs1 ++ cs2). rewrite L2, L1, <- app_assoc. split; [reflexivity|].
      apply Forall_app; auto.
Qed.

End LogFacts.

(** C10.  When the scan of the active nest indices meets an id that names
    no state of the graph before any transition has matched, [fsmExecute]
    answers "no transition" at once: only the conditions of the states
    before that index have been evaluated, no deeper index and no
    any-state is consulted, and the object state record is unchanged. *)
Theorem C10_unknown_state_ends_scan :
  forall (World : Type) (app : Callbacks World) (g : FSM_CB) (ev k : Z)
         (m m1 : Machine World),
    depth_ok (obj m) -> ev <> FSM_CATCH_TRANSITION ->
    first_unknown g (active_ids (obj m)) = Some k ->
    first_passing (candidates_until_unknown g ev (active_ids (obj m))) m
      = Returned None m1 ->
    fsmExecute (Some g) ev m = Returned eFSM_RESULT_NO_TRANSITION m1
    /\ obj m1 = obj m
    /\ (forall c, In c (candidates_until_unknown g ev (active_ids (obj m))) ->
                  cand_index c < k)
    /\ exists cs, calls (env m1) = calls (env m) ++ cs /\ Forall is_condition_call cs.
Proof.
  intros World app g ev k m m1 Hd Hev Hk Hnone.
  split; [|split; [|split]].
  - rewrite fsmExecute_scan by assumption.
    unfold execute_until_unknown.
    rewrite (bind_returned _ _ _ _ _ Hnone). rewrite Hk. reflexivity.
  - destruct (search_only_first_passing
                (candidates_until_unknown g ev (active_ids (obj m))) m)
      as (sel & m' & E & O).
    rewrite Hnone in E. inversion E; subst. exact O.
  - rewrite active_ids_from in Hk |- * by exact Hd.
    apply (first_unknown_bounds g ev _ _ _ _ Hk).
  - apply (first_passing_log _ _ _ _ Hnone).
Qed.

Lemma C10_unknown_state_ends_scan_witness :
  depth_ok (obj m_dangling) /\ 5 <> FSM_CATCH_TRANSITION /\
  _fsmGetState (listStates g_dangling) FSM_ST_ANY
    = Some (any_state [simple_transition 5 3]) /\
  fsmExecute (Some g_dangling) 5 m_dangling
    = Returned eFSM_RESULT_NO_TRANSITION m_dangling.
Proof.
  assert (Hd : depth_ok (obj m_dangling)) by (vm_compute; split; discriminate).
  assert (Hev : 5 <> FSM_CATCH_TRANSITION) by discriminate.
  assert (Hk : first_unknown g_dangling (active_ids (obj m_dangling)) = Some 1)
    by (vm_compute; reflexivity).
  assert (Hn : first_passing
                 (candidates_until_unknown g_dangling 5 (active_ids (obj m_dangling)))
                 m_dangling = Returned None m_dangling)
    by (vm_compute; reflexivity).
  split; [exact Hd|]. split; [exact Hev|]. split; [vm_compute; reflexivity|].
  exact (proj1 (C10_unknown_state_ends_scan _ _ g_dangling 5 1 m_dangling m_dangling
                  Hd Hev Hk Hn)).
Defined.

(** ** Only a state change writes the object state record *)

Section ChangeFacts.
Context {World : Type} {app : Callbacks World}.

Lemma bind_inv {A B : Type} (c : M World A) (k : A -> M World B) m b m' :
  bind c k m = Returned b m' ->
  exists a m1, c m = Returned a m1 /\ k a m1 = Returned b m'.
Proof.
  unfold bind. destruct (c m) as [a m1|]; [|discriminate].
  intros H. exists a, m1. auto.
Qed.

Lemma read_nested_inv i (m : Machine World) id m' :
  read_nested i m = Returned id m' ->
  m' = m /\ nest_get (iNestedStateIds (obj m)) i = Some id.
Proof.
  unfold read_nested. destruct (nest_get (iNestedStateIds (obj m)) i); [|discriminate].
  intros H; cbv [ret] in H; inversion H; subst. auto.
Qed.

(** The nest scan leaves the record alone and reports a change depth
    within the scanned indices. *)
Lemma nest_loop_keeps g ev : forall n cnt loc (m : Machine World) x m',
  nest_loop g ev n cnt loc m = Returned x m' ->
  obj m' = obj m /\
  match x with
  | Return r => r = eFSM_RESULT_NO_TRANSITION
  | Continue loc' =>
      (l_eResult loc' = eFSM_RESULT_NO_TRANSITION /\
       l_iStateChangeDepth loc' = l_iStateChangeDepth loc)
      \/ (l_eResult loc' <> eFSM_RESULT_NO_TRANSITION /\
          cnt <= l_iStateChangeDepth loc' < cnt + Z.of_nat n)
      \/ (l_eResult loc = l_eResult loc' /\ n = O /\
          l_iStateChangeDepth loc' = l_iStateChangeDepth loc)
  end.
Proof.
  induction n as [|n IH]; intros cnt loc m x m'.
  - cbn. intros H; cbv [ret] in H; inversion H; subst. split; [reflexivity|]. right; right. auto.
  - cbn [nest_loop]. intros H.
    apply bind_inv in H. destruct H as (id & m0 & Hr & H).
    apply read_nested_inv in Hr. destruct Hr as [-> _].
    destruct (_fsmGetState (listStates g) id) as [s|].
    + apply bind_inv in H. destruct H as (r & m1 & Hs & H).
      destruct (search_only_fsmExecuteState ev s
                  (l_iNewStateId loc, l_bNewStateIsSubState loc) m)
        as (r' & m1' & Hs' & O1).
      rewrite Hs in Hs'. inversion Hs'; subst r' m1'.
      destruct (result_eqb eFSM_RESULT_NO_TRANSITION (fst r)) eqn:Eq.
      * apply IH in H. destruct H as [O2 Hx]. split; [congruence|].
        destruct x as [r0|loc']; [exact Hx|].
        apply result_eqb_eq in Eq.
        destruct Hx as [[Ha Hb]|[[Ha Hb]|[Ha [Hb Hc]]]].
        -- left. cbn in Hb. auto.
        -- right; left. split; [exact Ha | lia].
        -- left. cbn in Ha, Hc. split; [congruence | exact Hc].
      * cbv [ret] in H; inversion H; subst. split; [exact O1|]. right; left. cbn.
        split; [|lia]. intros E. rewrite E in Eq. discriminate.
    + cbv [ret] in H; inversion H; subst. split; reflexivity.
Qed.

Lemma any_state_fallback_keeps g ev loc (m : Machine World) loc' m' :
  any_state_fallback g ev loc m = Returned loc' m' ->
  obj m' = obj m /\ l_iStateChangeDepth loc' = l_iStateChangeDepth loc.
Proof.
  unfold any_state_fallback.
  destruct (result_eqb eFSM_RESULT_NO_TRANSITION (l_eResult loc));
    [|intros H; cbv [ret] in H; inversion H; subst; auto].
  destruct (_fsmGetState (listStates g) FSM_ST_ANY) as [s|];
    [|intros H; cbv [ret] in H; inversion H; subst; auto].
  intros H. apply bind_inv in H. destruct H as (r & m1 & Hs & H).
  destruct (search_only_fsmExecuteState ev s
              (l_iNewStateId loc, l_bNewStateIsSubState loc) m)
    as (r' & m1' & Hs' & O1).
  rewrite Hs in Hs'. inversion Hs'; subst r' m1'.
  cbv [ret] in H; inversion H; subst. auto.
Qed.

(** The search half of [fsmExecute]: the record is unchanged, an early
    return is "no transition", and the change depth is an active nest
    index. *)
Lemma find_transition_keeps g ev (m : Machine World) x m' :
  find_transition g ev m = Returned x m' ->
  obj m' = obj m /\
  match x with
  | Return r => r = eFSM_RESULT_NO_TRANSITION
  | Continue loc =>
      l_iStateChangeDepth loc = 0
      \/ 0 <= l_iStateChangeDepth loc <= iNestDepth (obj m)
  end.
Proof.
  unfold find_transition. intros H.
  apply bind_inv in H. destruct H as (d & m0 & Hd & H).
  rewrite get_depth_run in Hd. inversion Hd; subst d m0.
  apply bind_inv in H. destruct H as (x0 & m1 & Hn & H).
  apply nest_loop_keeps in Hn. destruct Hn as [O1 Hx].
  destruct x0 as [r|loc].
  - cbv [ret] in H; inversion H; subst. auto.
  - apply bind_inv in H. destruct H as (loc' & m2 & Hf & H).
    apply any_state_fallback_keeps in Hf. destruct Hf as [O2 Hc].
    cbv [ret] in H; inversion H; subst. split; [congruence|].
    rewrite Hc. cbn in Hx.
    destruct Hx as [[_ Hb]|[[_ Hb]|[_ [_ Hb]]]]; auto.
    right. destruct (Z_le_gt_dec 0 (iNestDepth (obj m) + 1)); [|lia].
    rewrite Z2Nat.id in Hb by assumption. lia.
Qed.

Lemma entry_loop_return g : forall fuel id (m : Machine World) r m',
  entry_loop g fuel id m = Returned (Return r) m' ->
  r = eFSM_RESULT_INTERNAL_FAILURE.
Proof.
  induction fuel as [|fuel IH]; intros id m r m'; cbn [entry_loop]; [discriminate|].
  intros H.
  apply bind_inv in H. destruct H as (d & m0 & _ & H).
  apply bind_inv in H. destruct H as (u & m1 & _ & H).
  destruct (_fsmGetState (listStates g) id) as [s|]; [|discriminate].
  apply bind_inv in H. destruct H as (u' & m2 & _ & H).
  destruct (bComplex s && negb (FSM_ST_SAME =? iInitialSubStateId s)); [|discriminate].
  apply bind_inv in H. destruct H as (d' & m3 & _ & H).
  destruct (d' >=? FSM_MAX_STATE_NEST_DEPTH - 1).
  - cbv [ret] in H; inversion H; reflexivity.
  - apply bind_inv in H. destruct H as (u'' & m4 & _ & H).
    apply IH in H. exact H.
Qed.

Lemma state_exit_return g loc (m : Machine World) r m' :
  state_exit g loc m = Returned (Return r) m' ->
  r = eFSM_RESULT_INTERNAL_FAILURE.
Proof.
  unfold state_exit. intros H.
  apply bind_inv in H. destruct H as (d & m0 & _ & H).
  apply bind_inv in H. destruct H as (cur & m1 & _ & H).
  apply bind_inv in H. destruct H as (u & m2 & _ & H).
  destruct (l_bNewStateIsSubState loc).
  - apply bind_inv in H. destruct H as (d' & m3 & _ & H).
    destruct (d' >=? FSM_MAX_STATE_NEST_DEPTH).
    + cbv [ret] in H; inversion H; reflexivity.
    + apply bind_inv in H. destruct H as (? & ? & _ & H). discriminate.
  - apply bind_inv in H. destruct H as (d' & m3 & _ & H).
    apply bind_inv in H. destruct H as (u' & m4 & _ & H).
    destruct (FSM_ST_PARENT =? l_iNewStateId loc).
    + apply bind_inv in H. destruct H as (? & ? & _ & H).
      apply bind_inv in H. destruct H as (? & ? & _ & H). discriminate.
    + apply bind_inv in H. destruct H as (? & ? & _ & H). discriminate.
Qed.

(** A state change answers with the result of the search or with an
    internal failure. *)
Lemma change_state_result g loc (m : Machine World) r m' :
  change_state g loc m = Returned r m' ->
  r = l_eResult loc \/ r = eFSM_RESULT_INTERNAL_FAILURE.
Proof.
  unfold change_state. intros H.
  apply bind_inv in H. destruct H as ([r1|u] & m1 & Hx & H).
  - cbv [ret] in H; inversion H; subst. right. eapply state_exit_return; eassumption.
  - apply bind_inv in H. destruct H as ([r2|u2] & m2 & Hy & H).
    + cbv [ret] in H; inversion H; subst. right. unfold state_entry in Hy.
      destruct (negb (FSM_ST_PARENT =? l_iNewStateId loc)); [|discriminate].
      eapply entry_loop_return; eassumption.
    + cbv [ret] in H; inversion H; subst. left; reflexivity.
Qed.

End ChangeFacts.

(** C5.  Whenever [fsmExecute] returns "no change", "no transition" or
    "action failure", the caller's object state record is exactly what it
    was before the call: nest depth, nested state ids and previous state
    id. *)
Theorem C5_record_unchanged_without_new_state :
  forall (World : Type) (app : Callbacks World) (a_hFsm : option FSM_CB) (ev : Z)
         (m m' : Machine World) (r : FSM_EXECUTION_RESULT),
    fsmExecute a_hFsm ev m = Returned r m' ->
    r = eFSM_RESULT_NO_CHANGE \/ r = eFSM_RESULT_NO_TRANSITION
      \/ r = eFSM_RESULT_ACTION_FAILURE ->
    obj m' = obj m.
Proof.
  intros World app a_hFsm ev m m' r H Hr. unfold fsmExecute in H.
  destruct a_hFsm as [g|]; [|cbv [ret] in H; inversion H; reflexivity].
  destruct (FSM_CATCH_TRANSITION =? ev); [cbv [ret] in H; inversion H; reflexivity|].
  apply bind_inv in H. destruct H as (x & m1 & Hf & H).
  apply find_transition_keeps in Hf. destruct Hf as [O1 _].
  destruct x as [r0|loc]; [cbv [ret] in H; inversion H; subst; exact O1|].
  destruct (result_eqb eFSM_RESULT_NEW_STATE (l_eResult loc)) eqn:Eq.
  - apply result_eqb_eq in Eq. apply change_state_result in H.
    rewrite <- Eq in H. destruct H as [-> | ->];
      destruct Hr as [Hr|[Hr|Hr]]; discriminate.
  - cbv [ret] in H; inversion H; subst. exact O1.
Qed.

Lemma C5_record_unchanged_without_new_state_witness :
  fsmExecute (Some g_catch) 7 (started 0 [30%nat])
    = Returned eFSM_RESULT_NO_TRANSITION
        {| obj := obj (started 0 [30%nat]);
           env := {| world := [30%nat]; calls := [CallCondition 30%nat] |} |}
  /\ obj {| obj := obj (started 0 [30%nat]);
            env := {| world := [30%nat]; calls := [CallCondition 30%nat] |} |}
     = obj (started 0 [30%nat]).
Proof.
  assert (H : fsmExecute (Some g_catch) 7 (started 0 [30%nat])
              = Returned eFSM_RESULT_NO_TRANSITION
                  {| obj := obj (started 0 [30%nat]);
                     env := {| world := [30%nat]; calls := [CallCondition 30%nat] |} |})
    by (vm_compute; reflexivity).
  split; [exact H|].
  exact (C5_record_unchanged_without_new_state _ _ (Some g_catch) 7 _ _ _ H
           (or_intror (or_introl eq_refl))).
Defined.

(** ** State exit and state entry *)

Section ChoreographyFacts.
Context {World : Type} {app : Callbacks World}.

(** The exit loop calls exit callbacks only. *)
Lemma exit_loop_run g : forall n cnt (m : Machine World),
  0 <= cnt - Z.of_nat n + 1 -> cnt <= 3 ->
  exists m', exit_loop g n cnt m = Returned tt m' /\ obj m' = obj m /\
             exists xs, calls (env m') = calls (env m) ++ xs /\ Forall is_exit_call xs.
Proof.
  induction n as [|n IH]; intros cnt m Hlo Hhi.
  - exists m. cbn. repeat split. exists []. rewrite app_nil_r. auto.
  - cbn [exit_loop].
    destruct (nest_get_in_range (iNestedStateIds (obj m)) cnt ltac:(lia)) as (id & Eid).
    assert (Er : read_nested cnt m = Returned id m)
      by (unfold read_nested; rewrite Eid; reflexivity).
    rewrite (bind_returned _ _ _ _ _ Er).
    assert (Hstep : exists m1,
               (match _fsmGetState (listStates g) id with
                | Some s => match fpExitAction s with
                            | Some f => invoke_exit f
                            | None => ret tt
                            end
                | None => ret tt
                end) m = Returned tt m1 /\ obj m1 = obj m /\
               exists xs, calls (env m1) = calls (env m) ++ xs /\ Forall is_exit_call xs).
    { destruct (_fsmGetState (listStates g) id) as [s|].
      - destruct (fpExitAction s) as [f|].
        + eexists. split; [reflexivity|]. split; [reflexivity|].
          exists [CallExit f]. split; [reflexivity|].
          constructor; [exists f; reflexivity | constructor].
        + exists m. repeat split. exists []. rewrite app_nil_r. auto.
      - exists m. repeat split. exists []. rewrite app_nil_r. auto. }
    destruct Hstep as (m1 & E1 & O1 & xs1 & L1 & F1).
    rewrite (bind_returned _ _ _ _ _ E1).
    destruct (IH (cnt - 1) m1 ltac:(lia) ltac:(lia)) as (m2 & E2 & O2 & xs2 & L2 & F2).
    exists m2. split; [exact E2|]. split; [congruence|].
    exists (xs1 ++ xs2). rewrite L2, L1, <- app_assoc. split; [reflexivity|].
    apply Forall_app; auto.
Qed.

(** The STATE EXIT block of a transition that is not a sub-state
    transition and does not target the parent. *)
Lemma state_exit_plain g loc (m : Machine World) :
  depth_ok (obj m) ->
  l_bNewStateIsSubState loc = false ->
  l_iNewStateId loc <> FSM_ST_PARENT ->
  0 <= l_iStateChangeDepth loc <= iNestDepth (obj m) ->
  exists cur e xs,
    nest_get (iNestedStateIds (obj m)) (iNestDepth (obj m)) = Some cur /\
    state_exit g loc m =
      Returned (Continue tt)
        {| obj := {| iNestDepth := l_iStateChangeDepth loc;
                     iNestedStateIds := iNestedStateIds (obj m);
                     iPreviousStateId := cur |};
           env := e |} /\
    calls e = calls (env m) ++ xs /\ Forall is_exit_call xs.
Proof.
  intros Hd Hsub Hpar Hc. unfold depth_ok, FSM_MAX_STATE_NEST_DEPTH in Hd.
  destruct (nest_get_in_range (iNestedStateIds (obj m)) (iNestDepth (obj m)) ltac:(lia))
    as (cur & Ecur).
  unfold state_exit. rewrite Hsub.
  rewrite (bind_returned _ _ _ _ _ (get_depth_run m)).
  assert (Er : read_nested (iNestDepth (obj m)) m = Returned cur m)
    by (unfold read_nested; rewrite Ecur; reflexivity).
  rewrite (bind_returned _ _ _ _ _ Er).
  unfold bind at 1. cbn [set_previous].
  unfold bind at 1. cbn [get_depth obj iNestDepth].
  match goal with
  | |- context [bind (exit_loop g ?n ?c) _ ?mm] =>
      assert (Hlo : 0 <= c - Z.of_nat n + 1) by (rewrite Z2Nat.id by lia; lia);
      destruct (exit_loop_run g n c mm Hlo ltac:(lia)) as (m1 & E1 & O1 & xs & L1 & F1)
  end.
  rewrite (bind_returned _ _ _ _ _ E1).
  destruct (Z.eqb_spec FSM_ST_PARENT (l_iNewStateId loc)) as [E|_]; [congruence|].
  exists cur, (env m1), xs. split; [exact Ecur|].
  split; [|split; [exact L1 | exact F1]].
  cbn in O1. unfold bind, set_depth, ret. rewrite O1. reflexivity.
Qed.

(** One round of the entry loop for a state of the graph. *)
Lemma entry_loop_known g fuel id s (m : Machine World) a :
  _fsmGetState (listStates g) id = Some s ->
  nest_set (iNestedStateIds (obj m)) (iNestDepth (obj m)) id = Some a ->
  exists w,
    let m1 := {| obj := {| iNestDepth := iNestDepth (obj m);
                           iNestedStateIds := a;
                           iPreviousStateId := iPreviousStateId (obj m) |};
                 env := {| world := w; calls := calls (env m) ++ entry_calls s |} |} in
    entry_loop g (S fuel) id m =
      if bComplex s && negb (FSM_ST_SAME =? iInitialSubStateId s)
      then
        if iNestDepth (obj m) >=? FSM_MAX_STATE_NEST_DEPTH - 1
        then Returned (Return eFSM_RESULT_INTERNAL_FAILURE) m1
        else entry_loop g fuel (iInitialSubStateId s)
               {| obj := {| iNestDepth := iNestDepth (obj m) + 1;
                            iNestedStateIds := a;
                            iPreviousStateId := iPreviousStateId (obj m) |};
                  env := env m1 |}
      else Returned (Continue tt) m1.
Proof.
  intros Hs Ha. cbn [entry_loop]. rewrite Hs.
  rewrite (bind_returned _ _ _ _ _ (get_depth_run m)).
  unfold bind at 1. unfold write_nested. rewrite Ha.
  unfold entry_calls. destruct (fpEntryAction s) as [f|].
  - exists (entry_fn f (world (env m))).
    unfold bind, invoke_entry, on_env, get_depth, set_depth, ret, record_call.
    lazy beta iota zeta delta [obj iNestDepth env fst snd world calls iNestedStateIds iPreviousStateId].
    destruct (bComplex s && negb (FSM_ST_SAME =? iInitialSubStateId s)); [|reflexivity].
    match goal with |- context [?x >=? ?y] => destruct (x >=? y) end; reflexivity.
  - exists (world (env m)). rewrite app_nil_r. destruct m as [o [w cs]].
    unfold bind, get_depth, set_depth, ret.
    lazy beta iota zeta delta [obj iNestDepth env fst snd world calls iNestedStateIds iPreviousStateId].
    destruct (bComplex s && negb (FSM_ST_SAME =? iInitialSubStateId s)); [|reflexivity].
    match goal with |- context [?x >=? ?y] => destruct (x >=? y) end; reflexivity.
Qed.

(** One round of the entry loop for an id that names no state: the id
    is stored and nothing else happens. *)
Lemma entry_loop_unknown g fuel id (m : Machine World) a :
  _fsmGetState (listStates g) id = None ->
  nest_set (iNestedStateIds (obj m)) (iNestDepth (obj m)) id = Some a ->
  entry_loop g (S fuel) id m =
    Returned (Continue tt)
      {| obj := {| iNestDepth := iNestDepth (obj m);
                   iNestedStateIds := a;
                   iPreviousStateId := iPreviousStateId (obj m) |};
         env := env m |}.
Proof.
  intros Hs Ha. cbn [entry_loop]. rewrite Hs.
  rewrite (bind_returned _ _ _ _ _ (get_depth_run m)).
  unfold bind, write_nested. rewrite Ha. reflexivity.
Qed.

End ChoreographyFacts.

Lemma nest_set_in_range (a : NestedStateIds) (k v : Z) :
  0 <= k <= 3 ->
  exists a', nest_set a k v = Some a' /\ nest_get a' k = Some v /\
             forall i, i <> k -> nest_get a' i = nest_get a i.
Proof.
  intros H.
  assert (D : k = 0 \/ k = 1 \/ k = 2 \/ k = 3) by lia.
  destruct D as [-> | [-> | [-> | ->]]]; eexists; (split; [reflexivity|]);
    (split; [reflexivity|]); intros i Hi; unfold nest_get; cbn;
    destruct (Z.eqb_spec i 0); try lia; try reflexivity;
    destruct (Z.eqb_spec i 1); try lia; try reflexivity;
    destruct (Z.eqb_spec i 2); try lia; try reflexivity;
    destruct (Z.eqb_spec i 3); try lia; reflexivity.
Qed.

(** C6.  In a graph where state [A] is complex with initial substate [B],
    [B] is complex with initial substate [C] and [C] is not complex, a
    call whose matched transition targets [A], is not a sub-state
    transition and was matched at depth 0 returns "new state" with nest
    depth 2 and the stack [A; B; C]; after the exit callbacks, the entry
    callbacks of [A], [B] and [C] are invoked in that order. *)
Theorem C6_complex_entry_descends_default_chain :
  forall (World : Type) (app : Callbacks World) (g : FSM_CB) (ev : Z)
         (m m1 : Machine World) (loc : Locals) (A B C : Z) (sa sb sc : FSM_STATE),
    ev <> FSM_CATCH_TRANSITION -> depth_ok (obj m) ->
    find_transition g ev m = Returned (Continue loc) m1 ->
    l_eResult loc = eFSM_RESULT_NEW_STATE ->
    l_iNewStateId loc = A ->
    l_bNewStateIsSubState loc = false ->
    l_iStateChangeDepth loc = 0 ->
    0 <= A -> 0 <= B -> 0 <= C ->
    _fsmGetState (listStates g) A = Some sa ->
    bComplex sa = true -> iInitialSubStateId sa = B ->
    _fsmGetState (listStates g) B = Some sb ->
    bComplex sb = true -> iInitialSubStateId sb = C ->
    _fsmGetState (listStates g) C = Some sc ->
    bComplex sc = false ->
    exists m2 xs,
      fsmExecute (Some g) ev m = Returned eFSM_RESULT_NEW_STATE m2 /\
      iNestDepth (obj m2) = 2 /\
      firstn 3 (nest_to_list (iNestedStateIds (obj m2))) = [A; B; C] /\
      calls (env m2) =
        calls (env m1) ++ xs ++ entry_calls sa ++ entry_calls sb ++ entry_calls sc /\
      Forall is_exit_call xs.
Proof.
  intros World app g ev m m1 loc A B C sa sb sc Hev Hd Hfind Hres HA Hsub Hcd
         HA0 HB0 HC0 Hsa Hca Hia Hsb Hcb Hib Hsc Hcc.
  destruct (find_transition_keeps _ _ _ _ _ Hfind) as [O1 _].
  assert (Hd1 : depth_ok (obj m1)) by (rewrite O1; exact Hd).
  assert (HnP : l_iNewStateId loc <> FSM_ST_PARENT)
    by (rewrite HA; unfold FSM_ST_PARENT; lia).
  assert (Hc1 : 0 <= l_iStateChangeDepth loc <= iNestDepth (obj m1))
    by (rewrite Hcd; unfold depth_ok in Hd1; lia).
  destruct (state_exit_plain g loc m1 Hd1 Hsub HnP Hc1) as (cur & e & xs & _ & Hexit & L & F).
  assert (EA : (FSM_ST_SAME =? B) = false) by (apply Z.eqb_neq; unfold FSM_ST_SAME; lia).
  assert (EB : (FSM_ST_SAME =? C) = false) by (apply Z.eqb_neq; unfold FSM_ST_SAME; lia).
  assert (EP : (FSM_ST_PARENT =? A) = false) by (apply Z.eqb_neq; unfold FSM_ST_PARENT; lia).
  unfold fsmExecute.
  destruct (Z.eqb_spec FSM_CATCH_TRANSITION ev) as [E|_]; [congruence|].
  rewrite (bind_returned _ _ _ _ _ Hfind). rewrite Hres. cbn [result_eqb].
  unfold change_state. rewrite (bind_returned _ _ _ _ _ Hexit).
  unfold state_entry. rewrite HA, EP. cbn [negb]. rewrite Hcd.
  match goal with
  | |- context [bind (entry_loop g ?n A) _ ?mm] =>
      destruct (entry_loop_known g 3 A sa mm _ Hsa eq_refl) as (wa & Ea)
  end.
  cbv zeta in Ea. rewrite Hca, Hia, EA in Ea.
  cbn [andb negb obj iNestDepth iNestedStateIds iPreviousStateId env calls] in Ea.
  change (0 >=? FSM_MAX_STATE_NEST_DEPTH - 1) with false in Ea. cbv iota in Ea.
  match type of Ea with
  | _ = entry_loop g ?n B ?mm =>
      destruct (entry_loop_known g 2 B sb mm _ Hsb eq_refl) as (wb & Eb)
  end.
  cbv zeta in Eb. rewrite Hcb, Hib, EB in Eb.
  cbn [andb negb obj iNestDepth iNestedStateIds iPreviousStateId env calls] in Eb.
  change (0 + 1 >=? FSM_MAX_STATE_NEST_DEPTH - 1) with false in Eb. cbv iota in Eb.
  match type of Eb with
  | _ = entry_loop g ?n C ?mm =>
      destruct (entry_loop_known g 1 C sc mm _ Hsc eq_refl) as (wc & Ec)
  end.
  cbv zeta in Ec. rewrite Hcc in Ec.
  cbn [andb negb obj iNestDepth iNestedStateIds iPreviousStateId env calls] in Ec.
  rewrite Ec in Eb. rewrite Eb in Ea.
  change (Z.to_nat FSM_MAX_STATE_NEST_DEPTH) with 4%nat.
  rewrite (bind_returned _ _ _ _ _ Ea). rewrite Hres.
  eexists _, xs. split; [reflexivity|].
  cbn. split; [reflexivity|]. split; [reflexivity|]. split; [|exact F].
  rewrite L, <- !app_assoc. reflexivity.
Qed.

Lemma C6_complex_entry_descends_default_chain_witness :
  exists m2,
    fsmExecute (Some g_chain) 1 (started 0 []) = Returned eFSM_RESULT_NEW_STATE m2 /\
    iNestDepth (obj m2) = 2 /\
    firstn 3 (nest_to_list (iNestedStateIds (obj m2))) = [1; 2; 3] /\
    calls (env m2) =
      [CallExit 40%nat; CallEntry 41%nat; CallEntry 42%nat; CallEntry 43%nat].
Proof.
  destruct (C6_complex_entry_descends_default_chain _ _ g_chain 1
              (started 0 []) (started 0 [])
              {| l_eResult := eFSM_RESULT_NEW_STATE; l_iNewStateId := 1;
                 l_bNewStateIsSubState := false; l_iStateChangeDepth := 0 |}
              1 2 3
              {| iStateId := 1; fpEntryAction := Some 41%nat;
                 listTransitions := [simple_transition 9 0; simple_transition 6 0];
                 fpExitAction := Some 51%nat; bComplex := true; iInitialSubStateId := 2 |}
              {| iStateId := 2; fpEntryAction := Some 42%nat;
                 listTransitions := [simple_transition 8 FSM_ST_PARENT];
                 fpExitAction := Some 52%nat; bComplex := true; iInitialSubStateId := 3 |}
              {| iStateId := 3; fpEntryAction := Some 43%nat;
                 listTransitions :=
                   [simple_transition 7 FSM_ST_PARENT; simple_transition 6 FSM_ST_PARENT];
                 fpExitAction := Some 53%nat; bComplex := false;
                 iInitialSubStateId := FSM_ST_SAME |}
              ltac:(discriminate)
              ltac:(vm_compute; split; discriminate)
              eq_refl eq_refl eq_refl eq_refl eq_refl
              ltac:(lia) ltac:(lia) ltac:(lia)
              eq_refl eq_refl eq_refl eq_refl eq_refl eq_refl eq_refl eq_refl)
    as (m2 & xs & H1 & H2 & H3 & H4 & H5).
  exists m2. split; [exact H1|]. split; [exact H2|]. split; [exact H3|].
  assert (E : Returned eFSM_RESULT_NEW_STATE m2
              = fsmExecute (Some g_chain) 1 (started 0 [])) by (symmetry; exact H1).
  vm_compute in E. inversion E. reflexivity.
Defined.

Section SubStateFacts.
Context {World : Type} {app : Callbacks World}.

(** The STATE EXIT block of a sub-state transition: no exit callback,
    one more nest level, as long as the depth is below
    [FSM_MAX_STATE_NEST_DEPTH]. *)
Lemma state_exit_sub g loc (m : Machine World) :
  0 <= iNestDepth (obj m) <= 3 ->
  l_bNewStateIsSubState loc = true ->
  exists cur,
    nest_get (iNestedStateIds (obj m)) (iNestDepth (obj m)) = Some cur /\
    state_exit g loc m =
      Returned (Continue tt)
        {| obj := {| iNestDepth := iNestDepth (obj m) + 1;
                     iNestedStateIds := iNestedStateIds (obj m);
                     iPreviousStateId := cur |};
           env := env m |}.
Proof.
  intros Hd Hsub.
  destruct (nest_get_in_range (iNestedStateIds (obj m)) (iNestDepth (obj m)) Hd)
    as (cur & Ecur).
  exists cur. split; [exact Ecur|].
  unfold state_exit. rewrite Hsub.
  rewrite (bind_returned _ _ _ _ _ (get_depth_run m)).
  assert (Er : read_nested (iNestDepth (obj m)) m = Returned cur m)
    by (unfold read_nested; rewrite Ecur; reflexivity).
  rewrite (bind_returned _ _ _ _ _ Er).
  unfold bind, set_previous, get_depth, set_depth, ret.
  lazy beta iota zeta delta [obj iNestDepth env iNestedStateIds iPreviousStateId].
  match goal with |- context [?x >=? ?y] => destruct (Z.geb_spec x y) as [Hge|_] end;
    [unfold FSM_MAX_STATE_NEST_DEPTH in Hge; cbv delta [obj iNestDepth] in Hd; lia|].
  reflexivity.
Qed.

End SubStateFacts.

(** X27.  When a call reaches state entry (result "new state", target not
    PARENT) with a target id that names no state of the graph, and the
    depth at which it enters is inside the array (a sub-state transition
    is taken below depth 3), [fsmExecute] stores the id in the stack at
    that depth and changes no other entry, invokes no entry callback,
    descends no further, and returns "new state". *)
Theorem unknown_target_is_stored_inside_the_array :
  forall (World : Type) (app : Callbacks World) (g : FSM_CB) (ev : Z)
         (m m1 : Machine World) (loc : Locals) (T : Z),
    ev <> FSM_CATCH_TRANSITION -> depth_ok (obj m) ->
    find_transition g ev m = Returned (Continue loc) m1 ->
    l_eResult loc = eFSM_RESULT_NEW_STATE ->
    l_iNewStateId loc = T ->
    T <> FSM_ST_PARENT ->
    _fsmGetState (listStates g) T = None ->
    (l_bNewStateIsSubState loc = true ->
     iNestDepth (obj m) < FSM_MAX_STATE_NEST_DEPTH - 1) ->
    exists m2 xs,
      fsmExecute (Some g) ev m = Returned eFSM_RESULT_NEW_STATE m2 /\
      iNestDepth (obj m2) =
        (if l_bNewStateIsSubState loc then iNestDepth (obj m) + 1
         else l_iStateChangeDepth loc) /\
      nest_get (iNestedStateIds (obj m2)) (iNestDepth (obj m2)) = Some T /\
      (forall i, i <> iNestDepth (obj m2) ->
         nest_get (iNestedStateIds (obj m2)) i = nest_get (iNestedStateIds (obj m)) i) /\
      calls (env m2) = calls (env m1) ++ xs /\ Forall is_exit_call xs.
Proof.
  intros World app g ev m m1 loc T Hev Hd Hfind Hres HT HnP Hnone Hroom.
  destruct (find_transition_keeps _ _ _ _ _ Hfind) as [O1 Hcd].
  assert (Hd1 : depth_ok (obj m1)) by (rewrite O1; exact Hd).
  assert (EP : (FSM_ST_PARENT =? T) = false) by (apply Z.eqb_neq; congruence).
  unfold depth_ok, FSM_MAX_STATE_NEST_DEPTH in Hd, Hd1.
  unfold fsmExecute.
  destruct (Z.eqb_spec FSM_CATCH_TRANSITION ev) as [E|_]; [congruence|].
  rewrite (bind_returned _ _ _ _ _ Hfind). rewrite Hres. cbn [result_eqb].
  unfold change_state, state_entry. rewrite HT, EP, Hres. cbn [negb].
  change (Z.to_nat FSM_MAX_STATE_NEST_DEPTH) with 4%nat.
  destruct (l_bNewStateIsSubState loc) eqn:Hsub.
  - specialize (Hroom eq_refl). unfold FSM_MAX_STATE_NEST_DEPTH in Hroom.
    destruct (state_exit_sub g loc m1 ltac:(lia) Hsub) as (cur & _ & Hexit).
    rewrite (bind_returned _ _ _ _ _ Hexit).
    destruct (nest_set_in_range (iNestedStateIds (obj m1)) (iNestDepth (obj m1) + 1) T
                ltac:(rewrite O1; lia)) as (a & Ea & Ga & Ka).
    match goal with
    | |- context [bind (entry_loop g ?n T) _ ?mm] =>
        pose proof (entry_loop_unknown g 3 T mm a Hnone Ea) as Ee
    end.
    rewrite (bind_returned _ _ _ _ _ Ee).
    eexists _, []. split; [reflexivity|]. cbn. rewrite <- O1.
    split; [reflexivity|]. split; [exact Ga|]. split; [exact Ka|].
    rewrite app_nil_r. split; [reflexivity | constructor].
  - assert (HnP' : l_iNewStateId loc <> FSM_ST_PARENT) by congruence.
    assert (Hc1 : 0 <= l_iStateChangeDepth loc <= iNestDepth (obj m1))
      by (rewrite O1; destruct Hcd as [-> | ?]; lia).
    destruct (state_exit_plain g loc m1 ltac:(unfold depth_ok, FSM_MAX_STATE_NEST_DEPTH; lia)
                Hsub HnP' Hc1) as (cur & e & xs & _ & Hexit & L & F).
    rewrite (bind_returned _ _ _ _ _ Hexit).
    destruct (nest_set_in_range (iNestedStateIds (obj m1)) (l_iStateChangeDepth loc) T
                ltac:(lia)) as (a & Ea & Ga & Ka).
    match goal with
    | |- context [bind (entry_loop g ?n T) _ ?mm] =>
        pose proof (entry_loop_unknown g 3 T mm a Hnone Ea) as Ee
    end.
    rewrite (bind_returned _ _ _ _ _ Ee).
    eexists _, xs. split; [reflexivity|]. cbn. rewrite <- O1.
    split; [reflexivity|]. split; [exact Ga|]. split; [exact Ka|].
    split; [exact L | exact F].
Qed.

Lemma unknown_target_is_stored_inside_the_array_witness :
  exists m2,
    fsmExecute (Some g_absent_sub) 2 (started 0 []) = Returned eFSM_RESULT_NEW_STATE m2 /\
    _fsmGetState (listStates g_absent_sub) 42 = None /\
    iNestDepth (obj m2) = 1 /\
    nest_get (iNestedStateIds (obj m2)) 1 = Some 42 /\
    calls (env m2) = [].
Proof.
  assert (Hd : depth_ok (obj (started 0 []))) by (vm_compute; split; discriminate).
  assert (Hf : find_transition g_absent_sub 2 (started 0 [])
               = Returned (Continue {| l_eResult := eFSM_RESULT_NEW_STATE;
                                       l_iNewStateId := 42;
                                       l_bNewStateIsSubState := true;
                                       l_iStateChangeDepth := 0 |}) (started 0 []))
    by (vm_compute; reflexivity).
  assert (Hn : _fsmGetState (listStates g_absent_sub) 42 = None)
    by (vm_compute; reflexivity).
  assert (Hroom : true = true ->
                  iNestDepth (obj (started 0 [])) < FSM_MAX_STATE_NEST_DEPTH - 1)
    by (intros _; vm_compute; reflexivity).
  destruct (unknown_target_is_stored_inside_the_array _ _ g_absent_sub 2
              (started 0 []) (started 0 []) _ 42 ltac:(discriminate) Hd Hf
              eq_refl eq_refl ltac:(discriminate) Hn Hroom)
    as (m2 & xs & H1 & H2 & H3 & _ & H5 & _).
  exists m2. split; [exact H1|]. split; [exact Hn|].
  assert (E : Returned eFSM_RESULT_NEW_STATE m2
              = fsmExecute (Some g_absent_sub) 2 (started 0 [])) by (symmetry; exact H1).
  vm_compute in E. inversion E. repeat split; reflexivity.
Defined.

(** ** Action failure and the catch transition *)

Lemma fsmGetTransition_event l ev t rest :
  _fsmGetTransition l ev = Some (t, rest) -> iEventId t = ev /\ In t l.
Proof.
  induction l as [|t0 l IH]; cbn; [discriminate|].
  destruct (Z.eqb_spec (iEventId t0) ev) as [E|_].
  - intros H; inversion H; subst. auto.
  - intros H. destruct (IH H). auto.
Qed.

Section CatchFacts.
Context {World : Type} {app : Callbacks World}.

Lemma invoke_action_run f (m : Machine World) :
  invoke_action f m =
    Returned (fst (action_fn f (world (env m))))
      {| obj := obj m;
         env := {| world := snd (action_fn f (world (env m)));
                   calls := calls (env m) ++ [CallAction f] |} |}.
Proof. reflexivity. Qed.

Lemma transition_loop_event ev : forall l (m : Machine World) t m',
  transition_loop ev l m = Returned (Some t) m' -> iEventId t = ev /\ In t l.
Proof.
  induction l as [|t0 l IH]; intros m t m'; cbn; [discriminate|].
  destruct (Z.eqb_spec (iEventId t0) ev) as [E|_].
  - unfold bind.
    destruct (condition_loop (listConditions t0) m) as [[|] m1|]; [| |discriminate].
    + intros H; cbv [ret] in H; inversion H; subst. auto.
    + intros H. destruct (IH _ _ _ H). auto.
  - intros H. destruct (IH _ _ _ H). auto.
Qed.

(** While the actions pass, each non-NULL one is invoked. *)
Lemma action_loop_passes ev : forall l (m m' : Machine World),
  action_loop ev l m = Returned true m' ->
  calls (env m') = calls (env m) ++ action_calls l.
Proof.
  induction l as [|[f|] l IH]; intros m m'; cbn [action_loop action_calls].
  - intros H; cbv [ret] in H; inversion H; subst. rewrite app_nil_r. reflexivity.
  - intros H. apply bind_inv in H. destruct H as (ok & m1 & Hi & H).
    rewrite invoke_action_run in Hi. inversion Hi; subst ok m1. clear Hi.
    destruct (negb (fst (action_fn f (world (env m)))) && negb (FSM_CATCH_TRANSITION =? ev)).
    + discriminate.
    + apply IH in H. rewrite H. cbn. rewrite <- app_assoc. reflexivity.
  - apply IH.
Qed.

(** The first failing action of an ordinary transition ends the loop:
    the actions after it are not reached. *)
Lemma action_loop_fails ev f post : forall pre (m0 m1 m2 : Machine World),
  ev <> FSM_CATCH_TRANSITION ->
  action_loop ev pre m0 = Returned true m1 ->
  invoke_action f m1 = Returned false m2 ->
  action_loop ev (pre ++ Some f :: post) m0 = Returned false m2.
Proof.
  induction pre as [|[h|] pre IH]; intros m0 m1 m2 Hev Hpre Hf.
  - cbv [action_loop ret] in Hpre. inversion Hpre; subst m1.
    cbn [List.app action_loop]. rewrite (bind_returned _ _ _ _ _ Hf).
    destruct (Z.eqb_spec FSM_CATCH_TRANSITION ev) as [E|_]; [congruence|].
    reflexivity.
  - cbn [List.app action_loop] in Hpre |- *.
    apply bind_inv in Hpre. destruct Hpre as (ok & m' & Hi & Hpre).
    rewrite (bind_returned _ _ _ _ _ Hi).
    destruct (negb ok && negb (FSM_CATCH_TRANSITION =? ev)); [discriminate|].
    eapply IH; eassumption.
  - cbn [List.app action_loop] in Hpre |- *. eapply IH; eassumption.
Qed.

(** In the catch transition every action is invoked and the flag stays
    set. *)
Lemma action_loop_catch : forall l (m : Machine World),
  action_loop FSM_CATCH_TRANSITION l m = (invoke_all l ;;; ret true) m.
Proof.
  induction l as [|[f|] l IH]; intros m; cbn [action_loop invoke_all].
  - reflexivity.
  - rewrite bind_assoc. rewrite !(bind_returned _ _ _ _ _ (invoke_action_run f m)).
    rewrite Z.eqb_refl, andb_false_r. apply IH.
  - apply IH.
Qed.

Lemma invoke_all_run : forall l (m : Machine World),
  exists m', invoke_all l m = Returned tt m' /\ obj m' = obj m /\
             calls (env m') = calls (env m) ++ action_calls l.
Proof.
  induction l as [|[f|] l IH]; intros m; cbn [invoke_all action_calls].
  - exists m. rewrite app_nil_r. auto.
  - rewrite (bind_returned _ _ _ _ _ (invoke_action_run f m)).
    destruct (IH {| obj := obj m;
                    env := {| world := snd (action_fn f (world (env m)));
                              calls := calls (env m) ++ [CallAction f] |} |})
      as (m' & E & O & L).
    exists m'. split; [exact E|]. split; [exact O|].
    rewrite L. cbn. rewrite <- app_assoc. reflexivity.
  - apply IH.
Qed.

(** What [_fsmExecuteState] does when an action of the matched
    transition fails. *)
Lemma fsmExecuteState_action_failure ev s out (m m0 m1 m2 : Machine World)
    t pre f post :
  ev <> FSM_CATCH_TRANSITION ->
  transition_loop ev (listTransitions s) m = Returned (Some t) m0 ->
  listActions t = pre ++ Some f :: post ->
  action_loop (iEventId t) pre m0 = Returned true m1 ->
  invoke_action f m1 = Returned false m2 ->
  calls (env m2) = calls (env m0) ++ action_calls pre ++ [CallAction f] /\
  match _fsmGetTransition (listTransitions s) FSM_CATCH_TRANSITION with
  | Some (c, _) =>
      exists m3,
        invoke_all (listActions c) m2 = Returned tt m3 /\
        calls (env m3) = calls (env m2) ++ action_calls (listActions c) /\
        _fsmExecuteState ev s out m =
          Returned (if FSM_ST_SAME =? iNewStateId c
                    then (eFSM_RESULT_NO_CHANGE, out)
                    else (eFSM_RESULT_NEW_STATE, (iNewStateId c, bSubState c))) m3
  | None =>
      _fsmExecuteState ev s out m = Returned (eFSM_RESULT_ACTION_FAILURE, out) m2
  end.
Proof.
  intros Hev Hloop Hacts Hpre Hf.
  destruct (transition_loop_event _ _ _ _ _ Hloop) as [Et _].
  assert (Hfail : action_loop (iEventId t) (listActions t) m0 = Returned false m2)
    by (rewrite Hacts; eapply action_loop_fails; [congruence | eassumption | eassumption]).
  split.
  - apply action_loop_passes in Hpre. rewrite invoke_action_run in Hf.
    inversion Hf; subst m2. cbn. rewrite Hpre, <- app_assoc. reflexivity.
  - assert (Ht : _fsmExecuteTransition t m0 = Returned eFSM_RESULT_ACTION_FAILURE m2)
      by (unfold _fsmExecuteTransition;
          rewrite (bind_returned _ _ _ _ _ Hfail); reflexivity).
    unfold _fsmExecuteState. rewrite (bind_returned _ _ _ _ _ Hloop).
    unfold run_matched. rewrite !bind_assoc. rewrite (bind_returned _ _ _ _ _ Ht).
    cbn [result_eqb].
    destruct (_fsmGetTransition (listTransitions s) FSM_CATCH_TRANSITION)
      as [[c rest]|] eqn:Ec.
    + destruct (fsmGetTransition_event _ _ _ _ Ec) as [Eev _].
      destruct (invoke_all_run (listActions c) m2) as (m3 & E3 & _ & L3).
      exists m3. split; [exact E3|]. split; [exact L3|].
      assert (Hc : _fsmExecuteTransition c m2 =
                   Returned (if FSM_ST_SAME =? iNewStateId c
                             then eFSM_RESULT_NO_CHANGE else eFSM_RESULT_NEW_STATE) m3).
      { unfold _fsmExecuteTransition. rewrite Eev.
        rewrite (bind_same_start _ _ _ _ (action_loop_catch (listActions c) m2)).
        rewrite bind_assoc. rewrite (bind_returned _ _ _ _ _ E3).
        rewrite bind_ret_l. cbn [negb].
        destruct (FSM_ST_SAME =? iNewStateId c); reflexivity. }
      rewrite bind_assoc. rewrite (bind_returned _ _ _ _ _ Hc).
      rewrite bind_ret_l. unfold store_target. cbn [fst snd].
      destruct (FSM_ST_SAME =? iNewStateId c); reflexivity.
    + reflexivity.
Qed.

End CatchFacts.

(** C3.  When an action of the matched transition fails, the actions after
    it are not invoked.  If the state of the match has a catch transition,
    every action of the catch transition is invoked whatever it returns,
    the target of the catch transition is the target handed back, and the
    result is "new state", or "no change" when that target is SAME.
    Without a catch transition the result is "action failure". *)
Theorem C3_action_failure_and_catch :
  forall (World : Type) (app : Callbacks World) (ev : Z) (s : FSM_STATE) (out : Z * bool)
         (m m0 m1 m2 : Machine World) (t : FSM_TRANSITION)
         (pre post : list FSM_FUNC_ACTION) (f : fptr),
    ev <> FSM_CATCH_TRANSITION ->
    transition_loop ev (listTransitions s) m = Returned (Some t) m0 ->
    listActions t = pre ++ Some f :: post ->
    action_loop (iEventId t) pre m0 = Returned true m1 ->
    invoke_action f m1 = Returned false m2 ->
    calls (env m2) = calls (env m0) ++ action_calls pre ++ [CallAction f] /\
    match _fsmGetTransition (listTransitions s) FSM_CATCH_TRANSITION with
    | Some (c, _) =>
        exists m3,
          invoke_all (listActions c) m2 = Returned tt m3 /\
          calls (env m3) = calls (env m2) ++ action_calls (listActions c) /\
          _fsmExecuteState ev s out m =
            Returned (if FSM_ST_SAME =? iNewStateId c
                      then (eFSM_RESULT_NO_CHANGE, out)
                      else (eFSM_RESULT_NEW_STATE, (iNewStateId c, bSubState c))) m3
    | None =>
        _fsmExecuteState ev s out m = Returned (eFSM_RESULT_ACTION_FAILURE, out) m2
    end.
Proof.
  intros World app ev s out m m0 m1 m2 t pre post f.
  apply fsmExecuteState_action_failure.
Qed.

Lemma C3_action_failure_and_catch_witness :
  exists s0 m3,
    _fsmGetState (listStates g_catch) 0 = Some s0 /\
    _fsmExecuteState 7 s0 (-1, false) (started 0 [21%nat; 23%nat])
      = Returned (eFSM_RESULT_NEW_STATE, (1, false)) m3 /\
    calls (env m3) =
      [CallCondition 30%nat; CallAction 20%nat; CallAction 21%nat;
       CallAction 23%nat; CallAction 24%nat].
Proof.
  pose (s0 := simple_state 0
           [ {| iNewStateId := 2; bSubState := false; iEventId := 7;
                listConditions := [Some 30%nat];
                listActions := [Some 20%nat; Some 21%nat; Some 22%nat] |};
             {| iNewStateId := 1; bSubState := false; iEventId := FSM_CATCH_TRANSITION;
                listConditions := []; listActions := [Some 23%nat; Some 24%nat] |} ]).
  pose (w := [21%nat; 23%nat]).
  pose (o := obj (started 0 w)).
  destruct (C3_action_failure_and_catch _ _ 7 s0 (-1, false)
              (started 0 w)
              {| obj := o; env := {| world := w; calls := [CallCondition 30%nat] |} |}
              {| obj := o;
                 env := {| world := w;
                           calls := [CallCondition 30%nat; CallAction 20%nat] |} |}
              {| obj := o;
                 env := {| world := w;
                           calls := [CallCondition 30%nat; CallAction 20%nat;
                                     CallAction 21%nat] |} |}
              {| iNewStateId := 2; bSubState := false; iEventId := 7;
                 listConditions := [Some 30%nat];
                 listActions := [Some 20%nat; Some 21%nat; Some 22%nat] |}
              [Some 20%nat] [Some 22%nat] 21%nat
              ltac:(discriminate) eq_refl eq_refl eq_refl eq_refl)
    as [_ H].
  cbn in H. destruct H as (m3 & E3 & L3 & E).
  exists s0, m3. split; [reflexivity|]. split; [exact E|].
  rewrite L3. reflexivity.
Defined.

(** C4 (amended).  When no active nest state matched, the transition was
    found on the any-state and one of its actions fails, the catch
    transitions of the active nest states are not consulted; the catch
    transition of the any-state is: if the any-state has none, the result
    is "action failure" and the object state record is unchanged; if it
    has one, all its actions run and the call goes on with its target,
    "no change" for SAME and a state change otherwise. *)
Theorem C4_any_state_failure_uses_own_catch :
  forall (World : Type) (app : Callbacks World) (g : FSM_CB) (ev : Z)
         (m mk m0 m1 m2 : Machine World) (sany : FSM_STATE) (t : FSM_TRANSITION)
         (pre post : list FSM_FUNC_ACTION) (f : fptr),
    ev <> FSM_CATCH_TRANSITION -> depth_ok (obj m) ->
    first_unknown g (active_ids (obj m)) = None ->
    first_passing (candidates_until_unknown g ev (active_ids (obj m))) m
      = Returned None mk ->
    _fsmGetState (listStates g) FSM_ST_ANY = Some sany ->
    transition_loop ev (listTransitions sany) mk = Returned (Some t) m0 ->
    listActions t = pre ++ Some f :: post ->
    action_loop (iEventId t) pre m0 = Returned true m1 ->
    invoke_action f m1 = Returned false m2 ->
    match _fsmGetTransition (listTransitions sany) FSM_CATCH_TRANSITION with
    | Some (c, _) =>
        exists m3,
          invoke_all (listActions c) m2 = Returned tt m3 /\
          fsmExecute (Some g) ev m =
            if FSM_ST_SAME =? iNewStateId c
            then Returned eFSM_RESULT_NO_CHANGE m3
            else change_state g
                   {| l_eResult := eFSM_RESULT_NEW_STATE;
                      l_iNewStateId := iNewStateId c;
                      l_bNewStateIsSubState := bSubState c;
                      l_iStateChangeDepth := 0 |} m3
    | None =>
        fsmExecute (Some g) ev m = Returned eFSM_RESULT_ACTION_FAILURE m2
        /\ obj m2 = obj m
    end.
Proof.
  intros World app g ev m mk m0 m1 m2 sany t pre post f
         Hev Hd Hknown Hnone Hany Hloop Hacts Hpre Hf.
  pose proof (fsmExecuteState_action_failure ev sany (-1, false) mk m0 m1 m2 t pre f post
                Hev Hloop Hacts Hpre Hf) as [_ H].
  assert (Hrun : forall r m',
            _fsmExecuteState ev sany (-1, false) mk = Returned r m' ->
            fsmExecute (Some g) ev m =
              finish g (after_state initial_locals r) m').
  { intros r m' Hs. rewrite fsmExecute_scan by assumption.
    unfold execute_until_unknown. rewrite (bind_returned _ _ _ _ _ Hnone).
    rewrite Hknown. unfold take_any_state, any_state_fallback.
    cbn [initial_locals l_eResult result_eqb l_iNewStateId l_bNewStateIsSubState].
    rewrite Hany. rewrite !bind_assoc. rewrite (bind_returned _ _ _ _ _ Hs).
    reflexivity. }
  destruct (_fsmGetTransition (listTransitions sany) FSM_CATCH_TRANSITION) as [[c rest]|].
  - destruct H as (m3 & E3 & _ & E). exists m3. split; [exact E3|].
    rewrite (Hrun _ _ E). destruct (FSM_ST_SAME =? iNewStateId c); reflexivity.
  - rewrite (Hrun _ _ H). split; [reflexivity|].
    destruct (search_only_fsmExecuteState ev sany (-1, false) mk) as (r & m' & E & O).
    rewrite H in E. inversion E; subst.
    destruct (search_only_first_passing
                (candidates_until_unknown g ev (active_ids (obj m))) m)
      as (sel & mk' & E' & O').
    rewrite Hnone in E'. inversion E'; subst. congruence.
Qed.

Lemma C4_any_state_failure_uses_own_catch_witness :
  exists m3,
    first_unknown g_catch (active_ids (obj (started 1 [11%nat]))) = None /\
    fsmExecute (Some g_catch) 5 (started 1 [11%nat])
      = Returned eFSM_RESULT_NEW_STATE m3 /\
    calls (env m3) = [CallAction 11%nat; CallAction 12%nat].
Proof.
  pose (w := [11%nat]).
  pose (o := obj (started 1 w)).
  pose proof (C4_any_state_failure_uses_own_catch _ _ g_catch 5
                (started 1 w) (started 1 w) (started 1 w) (started 1 w)
                {| obj := o; env := {| world := w; calls := [CallAction 11%nat] |} |}
                (any_state
                   [ {| iNewStateId := 2; bSubState := false; iEventId := 5;
                        listConditions := []; listActions := [Some 11%nat] |};
                     {| iNewStateId := 1; bSubState := false;
                        iEventId := FSM_CATCH_TRANSITION;
                        listConditions := []; listActions := [Some 12%nat] |} ])
                {| iNewStateId := 2; bSubState := false; iEventId := 5;
                   listConditions := []; listActions := [Some 11%nat] |}
                [] [] 11%nat
                ltac:(discriminate)
                ltac:(vm_compute; split; discriminate)
                eq_refl eq_refl eq_refl eq_refl eq_refl eq_refl eq_refl) as H.
  cbv [_fsmGetTransition listTransitions any_state iEventId FSM_CATCH_TRANSITION
       Z.eqb Pos.eqb] in H.
  destruct H as (m3 & E3 & E).
  vm_compute in E3. inversion E3; subst m3; clear E3.
  eexists. split; [reflexivity|].
  split; [etransitivity; [exact E | vm_compute; reflexivity]|].
  reflexivity.
Defined.

(** C4 as stated fails: state 0 is active and has no transition for event
    5; the any-state handles it with action 11, which fails; the catch
    transition of the any-state is then run (action 12) and the object
    moves to its target, state 1. *)
Lemma C4_counterexample :
  first_passing
    (candidates_until_unknown g_catch 5 (active_ids (obj (started 0 [11%nat]))))
    (started 0 [11%nat]) = Returned None (started 0 [11%nat])
  /\ fsmExecute (Some g_catch) 5 (started 0 [11%nat])
     = Returned eFSM_RESULT_NEW_STATE
         {| obj := {| iNestDepth := 0;
                      iNestedStateIds :=
                        {| slot0 := 1; slot1 := 0; slot2 := 0; slot3 := 0 |};
                      iPreviousStateId := 0 |};
            env := {| world := [11%nat];
                      calls := [CallAction 11%nat; CallAction 12%nat] |} |}
  /\ fsmExecute (Some g_catch) 5 (started 0 [11%nat])
     <> Returned eFSM_RESULT_ACTION_FAILURE
          {| obj := obj (started 0 [11%nat]);
             env := {| world := [11%nat]; calls := [CallAction 11%nat] |} |}.
Proof.
  split; [vm_compute; reflexivity|].
  split; [vm_compute; reflexivity|].
  vm_compute. discriminate.
Qed.

(** ** The verifier *)

Lemma fsmIsStateEntered_spec g id :
  _fsmIsStateEntered g id = true <->
  exists s t, In s (listStates g) /\ In t (listTransitions s) /\ iNewStateId t = id.
Proof.
  unfold _fsmIsStateEntered. rewrite existsb_exists. split.
  - intros (s & Hs & H). apply existsb_exists in H. destruct H as (t & Ht & E).
    apply Z.eqb_eq in E. exists s, t. auto.
  - intros (s & t & Hs & Ht & E). exists s. split; [exact Hs|].
    apply existsb_exists. exists t. split; [exact Ht|]. apply Z.eqb_eq. exact E.
Qed.

Lemma fsmIsStateExitted_spec g id :
  _fsmIsStateExitted g id = true <->
  exists s t, In s (listStates g) /\ iStateId s = id /\ In t (listTransitions s) /\
              iNewStateId t <> id /\ iNewStateId t <> FSM_ST_SAME.
Proof.
  unfold _fsmIsStateExitted. rewrite existsb_exists. split.
  - intros (s & Hs & H). apply andb_true_iff in H. destruct H as [E H].
    apply Z.eqb_eq in E. apply existsb_exists in H. destruct H as (t & Ht & H).
    apply andb_true_iff in H. destruct H as [H1 H2].
    apply negb_true_iff, Z.eqb_neq in H1. apply negb_true_iff, Z.eqb_neq in H2.
    exists s, t. auto.
  - intros (s & t & Hs & E & Ht & H1 & H2). exists s. split; [exact Hs|].
    apply andb_true_iff. split; [apply Z.eqb_eq; exact E|].
    apply existsb_exists. exists t. split; [exact Ht|].
    apply andb_true_iff. split; apply negb_true_iff, Z.eqb_neq; assumption.
Qed.

Lemma no_entry_violation g id :
  In (id, eFSM_VERIFY_ERROR_NOENTRY) (violations g) <-> NoEntry g id.
Proof.
  unfold violations, NoEntry. rewrite in_app_iff, !in_map_iff. split.
  - intros [(s & E & H)|(t & E & _)]; [|discriminate].
    inversion E; subst. apply filter_In in H. destruct H as [Hs H].
    apply andb_true_iff in H. destruct H as [H1 H2].
    apply negb_true_iff, Z.eqb_neq in H1. apply negb_true_iff in H2.
    split; [exists s; auto|].
    intros s' t Hs' Ht E'.
    assert (X : _fsmIsStateEntered g (iStateId s) = true)
      by (apply fsmIsStateEntered_spec; exists s', t; auto).
    congruence.
  - intros [(s & Hs & E & Hany) Hnone]. left. exists s. split; [congruence|].
    apply filter_In. split; [exact Hs|].
    apply andb_true_iff. split.
    + apply negb_true_iff, Z.eqb_neq. congruence.
    + apply negb_true_iff. destruct (_fsmIsStateEntered g (iStateId s)) eqn:X; [|reflexivity].
      apply fsmIsStateEntered_spec in X. destruct X as (s' & t & Hs' & Ht & E').
      exfalso. apply (Hnone s' t Hs' Ht). congruence.
Qed.

Lemma no_exit_violation g id :
  In (id, eFSM_VERIFY_ERROR_NOEXIT) (violations g) <-> NoExit g id.
Proof.
  unfold violations, NoExit. rewrite in_app_iff, !in_map_iff. split.
  - intros [(s & E & _)|(t & E & H)]; [discriminate|].
    inversion E; subst. apply filter_In in H. destruct H as [Ht H].
    apply in_flat_map in Ht. destruct Ht as (s & Hs & Ht).
    apply andb_true_iff in H. destruct H as [H1 H2].
    apply Z.geb_le in H1. apply negb_true_iff in H2.
    split; [exists s, t; auto|].
    intros s' t' Hs' E' Ht'.
    destruct (Z.eq_dec (iNewStateId t') (iNewStateId t)) as [|N1]; [auto|].
    destruct (Z.eq_dec (iNewStateId t') FSM_ST_SAME) as [|N2]; [auto|].
    assert (X : _fsmIsStateExitted g (iNewStateId t) = true)
      by (apply fsmIsStateExitted_spec; exists s', t'; auto).
    congruence.
  - intros [(s & t & Hs & Ht & E & Hpos) Hnone]. right. exists t. split; [congruence|].
    apply filter_In. split; [apply in_flat_map; exists s; auto|].
    apply andb_true_iff. split; [apply Z.geb_le; congruence|].
    apply negb_true_iff.
    destruct (_fsmIsStateExitted g (iNewStateId t)) eqn:X; [|reflexivity].
    apply fsmIsStateExitted_spec in X.
    destruct X as (s' & t' & Hs' & E' & Ht' & N1 & N2).
    exfalso. destruct (Hnone s' t' Hs' ltac:(congruence) Ht'); congruence.
Qed.

Section VerifierFacts.
Context {World : Type} {app : Callbacks World}.

Lemma reported_app cbk vs ws : reported cbk (vs ++ ws) = reported cbk vs ++ reported cbk ws.
Proof. destruct cbk; cbn; [apply map_app | reflexivity]. Qed.

Lemma report_calls cbk id err (e : Env World) :
  calls (report cbk id err e) = calls e ++ reported cbk [(id, err)].
Proof. destruct cbk; cbn; [reflexivity | rewrite app_nil_r; reflexivity]. Qed.

Lemma verify_entered_run g cbk : forall l rc (e : Env World),
  let bad := fun s => negb (FSM_ST_ANY =? iStateId s)
                      && negb (_fsmIsStateEntered g (iStateId s)) in
  fst (verify_entered g cbk l rc e) = rc && forallb (fun s => negb (bad s)) l /\
  calls (snd (verify_entered g cbk l rc e)) =
    calls e ++ reported cbk
                 (map (fun s => (iStateId s, eFSM_VERIFY_ERROR_NOENTRY)) (filter bad l)).
Proof.
  intros l rc e bad. revert rc e.
  induction l as [|s l IH]; intros rc e; cbn [verify_entered forallb filter].
  - cbn. rewrite andb_true_r. destruct cbk; cbn; rewrite app_nil_r; auto.
  - fold (bad s). destruct (bad s) eqn:Eb.
    + destruct (IH false (report cbk (iStateId s) eFSM_VERIFY_ERROR_NOENTRY e)) as [H1 H2].
      rewrite H1, H2. cbn [negb andb map]. rewrite andb_false_r. split; [reflexivity|].
      rewrite report_calls, <- app_assoc, <- reported_app. reflexivity.
    + destruct (IH rc e) as [H1 H2]. rewrite H1, H2. cbn [negb andb]. auto.
Qed.

Lemma verify_exitted_of_run g cbk : forall l rc (e : Env World),
  let bad := fun t => (iNewStateId t >=? 0)
                      && negb (_fsmIsStateExitted g (iNewStateId t)) in
  fst (verify_exitted_of g cbk l rc e) = rc && forallb (fun t => negb (bad t)) l /\
  calls (snd (verify_exitted_of g cbk l rc e)) =
    calls e ++ reported cbk
                 (map (fun t => (iNewStateId t, eFSM_VERIFY_ERROR_NOEXIT)) (filter bad l)).
Proof.
  intros l rc e bad. revert rc e.
  induction l as [|t l IH]; intros rc e; cbn [verify_exitted_of forallb filter].
  - cbn. rewrite andb_true_r. destruct cbk; cbn; rewrite app_nil_r; auto.
  - fold (bad t). destruct (bad t) eqn:Eb.
    + destruct (IH false (report cbk (iNewStateId t) eFSM_VERIFY_ERROR_NOEXIT e)) as [H1 H2].
      rewrite H1, H2. cbn [negb andb map]. rewrite andb_false_r. split; [reflexivity|].
      rewrite report_calls, <- app_assoc, <- reported_app. reflexivity.
    + destruct (IH rc e) as [H1 H2]. rewrite H1, H2. cbn [negb andb]. auto.
Qed.

Lemma verify_exitted_run g cbk : forall l rc (e : Env World),
  let bad := fun t => (iNewStateId t >=? 0)
                      && negb (_fsmIsStateExitted g (iNewStateId t)) in
  fst (verify_exitted g cbk l rc e)
    = rc && forallb (fun t => negb (bad t)) (flat_map listTransitions l) /\
  calls (snd (verify_exitted g cbk l rc e)) =
    calls e ++ reported cbk
                 (map (fun t => (iNewStateId t, eFSM_VERIFY_ERROR_NOEXIT))
                    (filter bad (flat_map listTransitions l))).
Proof.
  intros l rc e bad. revert rc e.
  induction l as [|s l IH]; intros rc e; cbn [verify_exitted flat_map].
  - cbn. rewrite andb_true_r. destruct cbk; cbn; rewrite app_nil_r; auto.
  - destruct (verify_exitted_of_run g cbk (listTransitions s) rc e) as [H1 H2].
    destruct (IH (fst (verify_exitted_of g cbk (listTransitions s) rc e))
                 (snd (verify_exitted_of g cbk (listTransitions s) rc e))) as [H3 H4].
    rewrite H3, H4, H1, H2. fold bad.
    rewrite forallb_app, filter_app, map_app, reported_app, andb_assoc, app_assoc.
    auto.
Qed.

Lemma forallb_negb_filter {A : Type} (bad : A -> bool) (l : list A) :
  forallb (fun x => negb (bad x)) l = true <-> filter bad l = [].
Proof.
  induction l as [|x l IH]; cbn; [tauto|].
  destruct (bad x); cbn; [split; discriminate | exact IH].
Qed.

(** The return value and the callback invocations of [fsmVerifyFsm]. *)
Lemma fsmVerifyFsm_run g cbk (e : Env World) :
  (fst (fsmVerifyFsm (Some g) cbk e) = true <-> violations g = []) /\
  calls (snd (fsmVerifyFsm (Some g) cbk e)) = calls e ++ reported cbk (violations g).
Proof.
  unfold fsmVerifyFsm, violations.
  destruct (verify_entered_run g cbk (listStates g) true e) as [H1 H2].
  destruct (verify_exitted_run g cbk (listStates g)
              (fst (verify_entered g cbk (listStates g) true e))
              (snd (verify_entered g cbk (listStates g) true e))) as [H3 H4].
  cbv zeta in H1, H2, H3, H4. rewrite H3, H4, H1, H2. split.
  - cbn [andb]. rewrite andb_true_iff, !forallb_negb_filter. split.
    + intros [-> ->]. reflexivity.
    + intros H. apply app_eq_nil in H. destruct H as [Ha Hb].
      apply map_eq_nil in Ha. apply map_eq_nil in Hb. auto.
  - rewrite reported_app, app_assoc. reflexivity.
Qed.

End VerifierFacts.

(** C8.  For every non-null graph, [fsmVerifyFsm] returns false exactly
    when some non-ANY state is the target of no transition (NoEntry) or
    some transition with a target [>= 0] points at an id no state object of
    which has a transition to a different, non-SAME id (NoExit).  Every
    violation is found, none ends the pass, each is handed to the callback
    when there is one, and the result is true exactly when there is no
    violation. *)
Theorem C8_verify_finds_every_violation :
  forall (World : Type) (app : Callbacks World) (g : FSM_CB)
         (a_fpVerifyCb : FSM_FUNC_VERIFY_CB) (e : Env World),
    (fst (fsmVerifyFsm (Some g) a_fpVerifyCb e) = false <->
       (exists id, NoEntry g id) \/ (exists id, NoExit g id))
    /\ (forall id, In (id, eFSM_VERIFY_ERROR_NOENTRY) (violations g) <-> NoEntry g id)
    /\ (forall id, In (id, eFSM_VERIFY_ERROR_NOEXIT) (violations g) <-> NoExit g id)
    /\ (forall v, In v (violations g) ->
          snd v = eFSM_VERIFY_ERROR_NOENTRY \/ snd v = eFSM_VERIFY_ERROR_NOEXIT)
    /\ (forall f, a_fpVerifyCb = Some f ->
          calls (snd (fsmVerifyFsm (Some g) a_fpVerifyCb e))
            = calls e ++ map (verify_call f) (violations g))
    /\ (fst (fsmVerifyFsm (Some g) a_fpVerifyCb e) = true <-> violations g = []).
Proof.
  intros World app g cbk e.
  destruct (fsmVerifyFsm_run g cbk e) as [Htrue Hcalls].
  assert (Hkind : forall v, In v (violations g) ->
                    snd v = eFSM_VERIFY_ERROR_NOENTRY \/ snd v = eFSM_VERIFY_ERROR_NOEXIT).
  { intros v. unfold violations. rewrite in_app_iff, !in_map_iff.
    intros [(s & <- & _)|(t & <- & _)]; cbn; auto. }
  split; [|split; [|split; [|split; [|split]]]].
  - split.
    + intros Hf. destruct (violations g) as [|[id err] vs] eqn:Ev.
      * destruct Htrue as [_ Ht]. rewrite Ht in Hf by reflexivity. discriminate.
      * assert (Hin : In (id, err) ((id, err) :: vs)) by (left; reflexivity).
        destruct (Hkind _ Hin) as [E|E]; cbn in E; subst err; rewrite <- Ev in Hin.
        -- left. exists id. apply no_entry_violation. exact Hin.
        -- right. exists id. apply no_exit_violation. exact Hin.
    + intros H. destruct (fst (fsmVerifyFsm (Some g) cbk e)) eqn:Ef; [|reflexivity].
      destruct Htrue as [Ht _]. specialize (Ht eq_refl).
      destruct H as [[id H]|[id H]];
        [apply no_entry_violation in H | apply no_exit_violation in H];
        rewrite Ht in H; destruct H.
  - intros id. apply no_entry_violation.
  - intros id. apply no_exit_violation.
  - exact Hkind.
  - intros f ->. exact Hcalls.
  - exact Htrue.
Qed.

(** ** The sub-state push at full depth *)

Section OverrunFacts.
Context {World : Type} {app : Callbacks World}.

(** A sub-state transition taken at nest depth 3 passes the depth guard,
    which compares with [FSM_MAX_STATE_NEST_DEPTH] and not with
    [FSM_MAX_STATE_NEST_DEPTH - 1]: the depth becomes 4 and the entry
    block writes [iNestedStateIds[4]]. *)
Lemma substate_push_at_depth_3 g ev (m m1 : Machine World) loc :
  ev <> FSM_CATCH_TRANSITION ->
  find_transition g ev m = Returned (Continue loc) m1 ->
  l_eResult loc = eFSM_RESULT_NEW_STATE ->
  l_bNewStateIsSubState loc = true ->
  l_iNewStateId loc <> FSM_ST_PARENT ->
  iNestDepth (obj m) = FSM_MAX_STATE_NEST_DEPTH - 1 ->
  exists m2,
    fsmExecute (Some g) ev m = Aborted (OutOfBounds FSM_MAX_STATE_NEST_DEPTH) m2 /\
    iNestDepth (obj m2) = FSM_MAX_STATE_NEST_DEPTH.
Proof.
  intros Hev Hfind Hres Hsub HnP Hd3. unfold FSM_MAX_STATE_NEST_DEPTH in *.
  destruct (find_transition_keeps _ _ _ _ _ Hfind) as [O1 _].
  assert (EP : (FSM_ST_PARENT =? l_iNewStateId loc) = false)
    by (apply Z.eqb_neq; congruence).
  unfold fsmExecute.
  destruct (Z.eqb_spec FSM_CATCH_TRANSITION ev) as [E|_]; [congruence|].
  rewrite (bind_returned _ _ _ _ _ Hfind). rewrite Hres. cbn [result_eqb].
  destruct (state_exit_sub g loc m1 ltac:(rewrite O1; lia) Hsub) as (cur & _ & Hexit).
  rewrite O1, Hd3 in Hexit.
  unfold change_state. rewrite (bind_returned _ _ _ _ _ Hexit).
  unfold state_entry. rewrite EP. cbn [negb].
  change (Z.to_nat FSM_MAX_STATE_NEST_DEPTH) with 4%nat. cbn [entry_loop].
  eexists. split.
  - apply bind_aborted. reflexivity.
  - reflexivity.
Qed.

End OverrunFacts.

(** C2 (the code departs from it).  With the stack [0; 1; 1; 1] at nest
    depth 3, event 1 matches the sub-state transition of state 0: the call
    does not return "internal failure"; it raises the depth to 4 and
    writes outside the four-element array. *)
Theorem C2_substate_push_at_depth_3_overruns :
  build_nesting = Some g_nesting
  /\ obj m_nested3
     = {| iNestDepth := 3;
          iNestedStateIds := {| slot0 := 0; slot1 := 1; slot2 := 1; slot3 := 1 |};
          iPreviousStateId := 1 |}
  /\ fsmExecute (Some g_nesting) 1 m_nested3
     = Aborted (OutOfBounds 4)
         {| obj := {| iNestDepth := 4;
                      iNestedStateIds := {| slot0 := 0; slot1 := 1; slot2 := 1; slot3 := 1 |};
                      iPreviousStateId := 1 |};
            env := env m_nested3 |}
  /\ fsmExecute (Some g_nesting) 1 m_nested3
     <> Returned eFSM_RESULT_INTERNAL_FAILURE m_nested3.
Proof.
  split; [reflexivity|]. split; [reflexivity|]. split; [reflexivity|].
  vm_compute. discriminate.
Qed.

(** C7 (the code departs from it).  The defect is that of C2.  A
    sub-state transition whose target 42 names no state, taken with the
    stack [0; 1; 1; 1] at nest depth 3: the guard of the sub-state branch
    lets the call pass, the depth becomes 4, and state entry writes the id
    to [iNestedStateIds[4]], outside the stack; the call does not return
    "new state" with the id stored in the stack. *)
Theorem C7_absent_sub_target_at_depth_3_overruns :
  build_absent_sub = Some g_absent_sub
  /\ _fsmGetState (listStates g_absent_sub) 42 = None
  /\ obj m_absent3
     = {| iNestDepth := 3;
          iNestedStateIds := {| slot0 := 0; slot1 := 1; slot2 := 1; slot3 := 1 |};
          iPreviousStateId := 1 |}
  /\ find_transition g_absent_sub 2 m_absent3
     = Returned (Continue {| l_eResult := eFSM_RESULT_NEW_STATE;
                             l_iNewStateId := 42;
                             l_bNewStateIsSubState := true;
                             l_iStateChangeDepth := 0 |}) m_absent3
  /\ fsmExecute (Some g_absent_sub) 2 m_absent3
     = Aborted (OutOfBounds 4)
         {| obj := {| iNestDepth := 4;
                      iNestedStateIds := {| slot0 := 0; slot1 := 1; slot2 := 1; slot3 := 1 |};
                      iPreviousStateId := 1 |};
            env := env m_absent3 |}
  /\ forall m', fsmExecute (Some g_absent_sub) 2 m_absent3
               <> Returned eFSM_RESULT_NEW_STATE m'.
Proof.
  split; [reflexivity|]. split; [reflexivity|]. split; [reflexivity|].
  split; [reflexivity|]. split; [reflexivity|].
  intros m'. vm_compute. discriminate.
Qed.

(** ** A second catch transition *)

(** A call of [fsmCatchTransition] on a state that already has a catch
    transition returns [FSM_FALSE] and leaves the whole control block as
    it was, the creation-error flag included. *)
Lemma fsmCatchTransition_duplicate b h s a_iNewStateId fns :
  nth_error (listStates (cb b)) h = Some s ->
  _fsmGetTransition (listTransitions s) FSM_CATCH_TRANSITION <> None ->
  fsmCatchTransition b (Some h) a_iNewStateId fns = Some (false, b).
Proof.
  intros Hs Hc. unfold fsmCatchTransition. rewrite Hs.
  destruct (_fsmGetTransition (listTransitions s) FSM_CATCH_TRANSITION); [reflexivity|].
  congruence.
Qed.

(** C9 (the code departs from it).  State 0 of the graph under
    construction has a catch transition.  A second [fsmCatchTransition] on
    it returns [FSM_FALSE] and adds nothing, but the creation-error flag
    stays clear. *)
Theorem C9_second_catch_leaves_flag_clear :
  build_with_catch = Some b_with_catch
  /\ fsmCatchTransition b_with_catch (Some 0%nat) 1 [24%nat] = Some (false, b_with_catch)
  /\ bCreateError (cb b_with_catch) = false
  /\ fsmHasCreateErrorOccurred (Some (cb b_with_catch)) = false.
Proof. repeat split; reflexivity. Qed.

(** ** Runs are defined up to array overruns *)

Section DefinedFacts.
Context {World : Type} {app : Callbacks World}.

Lemma bind_inv_aborted {A B : Type} (c : M World A) (k : A -> M World B) m why m' :
  bind c k m = Aborted why m' ->
  c m = Aborted why m' \/ exists a m1, c m = Returned a m1 /\ k a m1 = Aborted why m'.
Proof.
  unfold bind. destruct (c m) as [a m1|why1 m1].
  - intros H. right. exists a, m1. auto.
  - intros H. left. inversion H. reflexivity.
Qed.

Lemma search_only_never_aborts {A : Type} (c : M World A) m why m' :
  search_only c -> c m <> Aborted why m'.
Proof. intros H E. destruct (H m) as (a & m1 & E1 & _). congruence. Qed.

Lemma read_nested_abort i (m : Machine World) why m' :
  read_nested i m = Aborted why m' -> overrun why.
Proof.
  unfold read_nested. destruct (nest_get (iNestedStateIds (obj m)) i); [discriminate|].
  intros H; inversion H. exists i. reflexivity.
Qed.

Lemma nest_loop_abort g ev : forall n cnt loc (m : Machine World) why m',
  nest_loop g ev n cnt loc m = Aborted why m' -> overrun why.
Proof.
  induction n as [|n IH]; intros cnt loc m why m'; cbn [nest_loop]; [discriminate|].
  intros H. apply bind_inv_aborted in H.
  destruct H as [H|(id & m1 & _ & H)]; [eapply read_nested_abort; eassumption|].
  destruct (_fsmGetState (listStates g) id) as [s|]; [|discriminate].
  apply bind_inv_aborted in H. destruct H as [H|(r & m2 & _ & H)].
  - exfalso. eapply search_only_never_aborts; [|exact H].
    apply search_only_fsmExecuteState.
  - destruct (result_eqb eFSM_RESULT_NO_TRANSITION (fst r)); [|discriminate].
    eapply IH; eassumption.
Qed.

Lemma exit_loop_abort g : forall n cnt (m : Machine World) why m',
  exit_loop g n cnt m = Aborted why m' -> overrun why.
Proof.
  induction n as [|n IH]; intros cnt m why m'; cbn [exit_loop]; [discriminate|].
  intros H. apply bind_inv_aborted in H.
  destruct H as [H|(id & m1 & _ & H)]; [eapply read_nested_abort; eassumption|].
  apply bind_inv_aborted in H. destruct H as [H|(u & m2 & _ & H)].
  - destruct (_fsmGetState (listStates g) id) as [s|]; [|discriminate].
    destruct (fpExitAction s); discriminate.
  - eapply IH; eassumption.
Qed.

(** Four rounds are enough for the entry loop: a round either stops or
    raises a depth that is at most 2. *)
Lemma entry_loop_abort g : forall fuel id (m : Machine World) why m',
  (0 <= iNestDepth (obj m) <= 3 -> 4 - iNestDepth (obj m) <= Z.of_nat fuel) ->
  (1 <= fuel)%nat ->
  entry_loop g fuel id m = Aborted why m' -> overrun why.
Proof.
  induction fuel as [|fuel IH]; intros id m why m' Hfuel Hpos; [lia|].
  cbn [entry_loop]. intros H.
  rewrite (bind_returned _ _ _ _ _ (get_depth_run m)) in H.
  apply bind_inv_aborted in H. destruct H as [H|(u & m1 & Hw & H)].
  - unfold write_nested in H.
    destruct (nest_set (iNestedStateIds (obj m)) (iNestDepth (obj m)) id); [discriminate|].
    inversion H. eexists; reflexivity.
  - unfold write_nested in Hw.
    destruct (nest_set (iNestedStateIds (obj m)) (iNestDepth (obj m)) id) as [a|] eqn:Ea;
      [|discriminate].
    assert (Hin : 0 <= iNestDepth (obj m) <= 3).
    { destruct (Z_le_gt_dec 0 (iNestDepth (obj m)));
        [destruct (Z_le_gt_dec (iNestDepth (obj m)) 3); [lia|]|];
        exfalso; unfold nest_set in Ea;
        destruct (Z.eqb_spec (iNestDepth (obj m)) 0); try lia;
        destruct (Z.eqb_spec (iNestDepth (obj m)) 1); try lia;
        destruct (Z.eqb_spec (iNestDepth (obj m)) 2); try lia;
        destruct (Z.eqb_spec (iNestDepth (obj m)) 3); try lia; discriminate. }
    inversion Hw; subst u m1. clear Hw.
    destruct (_fsmGetState (listStates g) id) as [s|]; [|discriminate].
    apply bind_inv_aborted in H. destruct H as [H|(u & m2 & He & H)].
    + destruct (fpEntryAction s); discriminate.
    + assert (O2 : obj m2 = {| iNestDepth := iNestDepth (obj m);
                               iNestedStateIds := a;
                               iPreviousStateId := iPreviousStateId (obj m) |})
        by (destruct (fpEntryAction s); inversion He; reflexivity).
      destruct (bComplex s && negb (FSM_ST_SAME =? iInitialSubStateId s));
        [|discriminate].
      rewrite (bind_returned _ _ _ _ _ (get_depth_run m2)) in H.
      rewrite O2 in H. cbn [iNestDepth] in H.
      destruct (Z.geb_spec (iNestDepth (obj m)) (FSM_MAX_STATE_NEST_DEPTH - 1)) as [|Hlt];
        [discriminate|].
      unfold FSM_MAX_STATE_NEST_DEPTH in Hlt.
      apply bind_inv_aborted in H. destruct H as [H|(u' & m3 & Hs & H)]; [discriminate|].
      inversion Hs; subst u' m3. clear Hs.
      eapply IH; [| |exact H]; cbn [obj iNestDepth]; lia.
Qed.

(** [fsmExecute] never dereferences NULL and never exhausts the bound of
    the entry loop: the only way out of the defined behaviour is an
    access outside [iNestedStateIds]. *)
Lemma fsmExecute_abort_is_overrun a_hFsm ev (m : Machine World) why m' :
  fsmExecute a_hFsm ev m = Aborted why m' -> overrun why.
Proof.
  unfold fsmExecute. destruct a_hFsm as [g|]; [|discriminate].
  destruct (FSM_CATCH_TRANSITION =? ev); [discriminate|].
  intros H. apply bind_inv_aborted in H. destruct H as [H|(x & m1 & _ & H)].
  - unfold find_transition in H.
    rewrite (bind_returned _ _ _ _ _ (get_depth_run m)) in H.
    apply bind_inv_aborted in H. destruct H as [H|(x & m1 & _ & H)];
      [eapply nest_loop_abort; eassumption|].
    destruct x as [r|loc]; [discriminate|].
    apply bind_inv_aborted in H. destruct H as [H|(loc' & m2 & _ & H)]; [|discriminate].
    exfalso. unfold any_state_fallback in H.
    destruct (result_eqb eFSM_RESULT_NO_TRANSITION (l_eResult loc)); [|discriminate].
    destruct (_fsmGetState (listStates g) FSM_ST_ANY) as [s|]; [|discriminate].
    apply bind_inv_aborted in H. destruct H as [H|(r & m2 & _ & H)]; [|discriminate].
    eapply search_only_never_aborts; [|exact H]. apply search_only_fsmExecuteState.
  - destruct x as [r|loc]; [discriminate|].
    destruct (result_eqb eFSM_RESULT_NEW_STATE (l_eResult loc)); [|discriminate].
    unfold change_state in H.
    apply bind_inv_aborted in H. destruct H as [H|(x & m2 & _ & H)].
    + unfold state_exit in H.
      rewrite (bind_returned _ _ _ _ _ (get_depth_run m1)) in H.
      apply bind_inv_aborted in H.
      destruct H as [H|(cur & m2 & _ & H)]; [eapply read_nested_abort; eassumption|].
      apply bind_inv_aborted in H. destruct H as [H|(u & m3 & _ & H)]; [discriminate|].
      destruct (l_bNewStateIsSubState loc).
      * rewrite (bind_returned _ _ _ _ _ (get_depth_run m3)) in H.
        destruct (iNestDepth (obj m3) >=? FSM_MAX_STATE_NEST_DEPTH); discriminate.
      * rewrite (bind_returned _ _ _ _ _ (get_depth_run m3)) in H.
        apply bind_inv_aborted in H.
        destruct H as [H|(u' & m4 & _ & H)]; [eapply exit_loop_abort; eassumption|].
        destruct (FSM_ST_PARENT =? l_iNewStateId loc).
        -- rewrite (bind_returned _ _ _ _ _ (get_depth_run m4)) in H.
           destruct (iNestDepth (obj m4) >? 0); discriminate.
        -- discriminate.
    + destruct x as [r|u]; [discriminate|].
      apply bind_inv_aborted in H. destruct H as [H|(y & m3 & _ & H)].
      * unfold state_entry in H.
        destruct (negb (FSM_ST_PARENT =? l_iNewStateId loc)); [|discriminate].
        eapply entry_loop_abort; [| |exact H];
          [change (Z.to_nat FSM_MAX_STATE_NEST_DEPTH) with 4%nat; lia
          |change (Z.to_nat FSM_MAX_STATE_NEST_DEPTH) with 4%nat; lia].
      * destruct y; discriminate.
Qed.

End DefinedFacts.

(** * Further properties *)

(** ** Lists of states *)

Lemma fsmGetState_some l id s :
  _fsmGetState l id = Some s -> In s l /\ iStateId s = id.
Proof.
  induction l as [|s0 l IH]; cbn; [discriminate|].
  destruct (Z.eqb_spec (iStateId s0) id) as [E|_].
  - intros H; inversion H; subst. auto.
  - intros H. destruct (IH H). auto.
Qed.

Lemma fsmGetState_none l id :
  _fsmGetState l id = None <-> ~ In id (map iStateId l).
Proof.
  induction l as [|s0 l IH]; cbn; [tauto|].
  destruct (Z.eqb_spec (iStateId s0) id) as [E|N].
  - split; [discriminate | tauto].
  - rewrite IH. tauto.
Qed.

Lemma fsmGetState_app l id s :
  _fsmGetState (l ++ [s]) id =
  match _fsmGetState l id with
  | Some s0 => Some s0
  | None => if iStateId s =? id then Some s else None
  end.
Proof.
  induction l as [|s0 l IH]; cbn; [reflexivity|].
  destruct (iStateId s0 =? id); [reflexivity | exact IH].
Qed.

Lemma state_position_none l id :
  state_position l id = None <-> _fsmGetState l id = None.
Proof.
  induction l as [|s0 l IH]; cbn; [tauto|].
  destruct (iStateId s0 =? id); [split; discriminate|].
  destruct (state_position l id); cbn; [|tauto].
  split; [discriminate|]. intros H. apply IH in H. discriminate.
Qed.


Lemma update_state_length l h f : length (update_state l h f) = length l.
Proof.
  revert h. induction l as [|s l IH]; intros [|h]; cbn; auto.
Qed.

Lemma update_state_nth l f : forall h h',
  nth_error (update_state l h f) h' =
  if Nat.eqb h h' then option_map f (nth_error l h') else nth_error l h'.
Proof.
  induction l as [|s l IH]; intros [|h] [|h']; cbn; try reflexivity.
  - destruct (Nat.eqb h h'); reflexivity.
  - apply IH.
Qed.

Lemma update_state_ids l h f :
  (forall s, iStateId (f s) = iStateId s) ->
  map iStateId (update_state l h f) = map iStateId l.
Proof.
  intros Hf. revert h. induction l as [|s l IH]; intros [|h]; cbn; auto.
  - rewrite Hf. reflexivity.
  - rewrite IH. reflexivity.
Qed.

Lemma update_state_new l s f :
  update_state (l ++ [s]) (length l) f = l ++ [f s].
Proof. induction l as [|s0 l IH]; cbn; [reflexivity | rewrite IH; reflexivity]. Qed.

Lemma update_state_In l h f s' :
  In s' (update_state l h f) ->
  In s' l \/ exists s, nth_error l h = Some s /\ s' = f s.
Proof.
  revert h. induction l as [|s0 l IH]; intros [|h]; cbn; try tauto.
  - intros [<-|H]; [right; exists s0; auto | auto].
  - intros [<-|H]; [auto|]. destruct (IH _ H) as [?|?]; auto.
Qed.

Lemma update_state_Forall (P : FSM_STATE -> Prop) l h f :
  Forall P l -> (forall s, nth_error l h = Some s -> P s -> P (f s)) ->
  Forall P (update_state l h f).
Proof.
  intros Hl. revert h. induction Hl as [|s0 l Hs Hl IH]; intros [|h] Hf; cbn.
  - constructor.
  - constructor.
  - constructor; [apply Hf; [reflexivity | exact Hs] | exact Hl].
  - constructor; [exact Hs | apply IH; exact Hf].
Qed.

(** ** What a construction call does to the control block *)

Lemma fsmCreateObject_cb b : cb (snd (_fsmCreateObject b)) = cb b.
Proof. unfold _fsmCreateObject. destruct (heap b); reflexivity. Qed.

Lemma add_actions_run : forall fns t b done t' b',
  add_actions fns t b = (done, t', b') ->
  listStates (cb b') = listStates (cb b) /\
  (bCreateError (cb b') = bCreateError (cb b) \/ bCreateError (cb b') = true) /\
  (done = true -> bCreateError (cb b') = bCreateError (cb b)) /\
  (done = false -> bCreateError (cb b') = true) /\
  iNewStateId t' = iNewStateId t /\ bSubState t' = bSubState t /\
  iEventId t' = iEventId t /\ listConditions t' = listConditions t /\
  exists k, (k <= length fns)%nat /\
            listActions t' = listActions t ++ map Some (firstn k fns) /\
            (done = true <-> k = length fns).
Proof.
  induction fns as [|f fns IH]; intros t b done t' b'; cbn [add_actions].
  - intros H; inversion H; subst. repeat split; auto; try discriminate.
    exists O. cbn. rewrite app_nil_r. repeat split; auto.
  - pose proof (fsmCreateObject_cb b) as Hcb.
    destruct (_fsmCreateObject b) as [ok b1]. cbn in Hcb. destruct ok.
    + intros H. apply IH in H.
      destruct H as (H1 & H2 & H3 & H4 & H5 & H6 & H7 & H8 & k & Hk & Ha & Hd).
      rewrite Hcb in H1, H2, H3. cbn in H5, H6, H7, H8, Ha.
      repeat split; auto.
      exists (S k). split; [cbn; lia|]. split.
      * rewrite Ha. unfold _fsmAddObjectToList. rewrite <- app_assoc. reflexivity.
      * cbn. rewrite Hd. split; intros; lia.
    + intros H; inversion H; subst. cbn. rewrite Hcb.
      repeat split; auto; try discriminate.
      exists O. cbn. rewrite app_nil_r. repeat split; try lia; discriminate.
Qed.

Lemma add_conditions_run : forall fns t b t' b',
  add_conditions fns t b = Some (t', b') ->
  cb b' = cb b /\
  iNewStateId t' = iNewStateId t /\ bSubState t' = bSubState t /\
  iEventId t' = iEventId t /\ listActions t' = listActions t /\
  listConditions t' = listConditions t ++ map Some fns.
Proof.
  induction fns as [|f fns IH]; intros t b t' b'; cbn [add_conditions].
  - intros H; inversion H; subst. rewrite app_nil_r. repeat split; reflexivity.
  - pose proof (fsmCreateObject_cb b) as Hcb.
    destruct (_fsmCreateObject b) as [ok b1]. cbn in Hcb. destruct ok; [|discriminate].
    intros H. apply IH in H. destruct H as (H1 & H2 & H3 & H4 & H5 & H6).
    cbn in H2, H3, H4, H5, H6. rewrite Hcb in H1.
    repeat split; auto. rewrite H6. unfold _fsmAddObjectToList.
    rewrite <- app_assoc. reflexivity.
Qed.

Lemma no_catch_iff s :
  catch_transitions s = [] <->
  _fsmGetTransition (listTransitions s) FSM_CATCH_TRANSITION = None.
Proof.
  unfold catch_transitions. induction (listTransitions s) as [|t l IH]; cbn; [tauto|].
  destruct (iEventId t =? FSM_CATCH_TRANSITION); [split; discriminate | exact IH].
Qed.

Ltac close_run :=
  cbn; solve [intuition (try reflexivity; try congruence; try lia; try discriminate)].

Lemma fsmCreateState_run b id fpEntry fpExit r b' :
  fsmCreateState b id fpEntry fpExit = (r, b') ->
  (r = None /\ listStates (cb b') = listStates (cb b) /\ bCreateError (cb b') = true /\
   (id < 0 \/ _fsmGetState (listStates (cb b)) id <> None
    \/ fst (_fsmCreateObject b) = false))
  \/
  (r = Some (length (listStates (cb b))) /\ 0 <= id /\
   _fsmGetState (listStates (cb b)) id = None /\
   fst (_fsmCreateObject b) = true /\
   listStates (cb b') =
     listStates (cb b) ++
     [{| iStateId := id; fpEntryAction := fpEntry; listTransitions := [];
         fpExitAction := fpExit; bComplex := false;
         iInitialSubStateId := FSM_ST_SAME |}] /\
   bCreateError (cb b') = bCreateError (cb b)).
Proof.
  unfold fsmCreateState.
  destruct (Z.gtb_spec 0 id) as [Hneg|Hpos].
  - intros H; inversion H; subst. left. cbn.
    split; [reflexivity|]. split; [reflexivity|]. split; [reflexivity|]. left. lia.
  - destruct (_fsmGetState (listStates (cb b)) id) as [s|] eqn:Eg.
    + intros H; inversion H; subst. left. cbn.
      split; [reflexivity|]. split; [reflexivity|]. split; [reflexivity|].
      right; left. discriminate.
    + pose proof (fsmCreateObject_cb b) as Hcb.
      destruct (_fsmCreateObject b) as [ok b1]. cbn in Hcb. destruct ok.
      * intros H; inversion H; subst. right. cbn. rewrite Hcb.
        split; [reflexivity|]. split; [lia|]. repeat split; reflexivity.
      * intros H; inversion H; subst. left. cbn. rewrite Hcb.
        split; [reflexivity|]. split; [reflexivity|]. split; [reflexivity|].
        right; right. reflexivity.
Qed.

Lemma fsmCreateComplexState_run b id init fpEntry fpExit r b' :
  fsmCreateComplexState b id init fpEntry fpExit = (r, b') ->
  (r = None /\ listStates (cb b') = listStates (cb b) /\ bCreateError (cb b') = true /\
   (id < 0 \/ _fsmGetState (listStates (cb b)) id <> None
    \/ fst (_fsmCreateObject b) = false))
  \/
  (r = Some (length (listStates (cb b))) /\ 0 <= id /\
   _fsmGetState (listStates (cb b)) id = None /\
   fst (_fsmCreateObject b) = true /\
   listStates (cb b') =
     listStates (cb b) ++
     [{| iStateId := id; fpEntryAction := fpEntry; listTransitions := [];
         fpExitAction := fpExit; bComplex := true;
         iInitialSubStateId := init |}] /\
   bCreateError (cb b') = bCreateError (cb b)).
Proof.
  unfold fsmCreateComplexState.
  destruct (fsmCreateState b id fpEntry fpExit) as [r0 b0] eqn:E.
  apply fsmCreateState_run in E.
  destruct E as [(-> & H1 & H2 & H3)|(-> & H1 & H2 & H3 & H4 & H5)].
  - intros H; inversion H; subst. left. close_run.
  - intros H; inversion H; subst. right. cbn. rewrite H4, update_state_new. cbn.
    repeat split; auto.
Qed.

Lemma fsmCreateAnyState_run b r b' :
  fsmCreateAnyState b = (r, b') ->
  (exists h, r = Some h /\ b' = b /\ state_position (listStates (cb b)) FSM_ST_ANY = Some h)
  \/
  (_fsmGetState (listStates (cb b)) FSM_ST_ANY = None /\
   ((r = None /\ fst (_fsmCreateObject b) = false /\
     listStates (cb b') = listStates (cb b) /\ bCreateError (cb b') = true)
    \/
    (r = Some (length (listStates (cb b))) /\ fst (_fsmCreateObject b) = true /\
     listStates (cb b') = listStates (cb b) ++ [any_state []] /\
     bCreateError (cb b') = bCreateError (cb b)))).
Proof.
  unfold fsmCreateAnyState.
  destruct (state_position (listStates (cb b)) FSM_ST_ANY) as [h|] eqn:Ep.
  - intros H; inversion H; subst. left. exists h. close_run.
  - apply state_position_none in Ep.
    pose proof (fsmCreateObject_cb b) as Hcb.
    destruct (_fsmCreateObject b) as [ok b1]. cbn in Hcb. destruct ok.
    + intros H; inversion H; subst. right. split; [exact Ep|]. right.
      rewrite <- Hcb. close_run.
    + intros H; inversion H; subst. right. split; [exact Ep|]. left.
      rewrite <- Hcb. close_run.
Qed.

(** What a call of [fsmTransition] or [fsmTransitionSub] on a state of the
    graph does when it returns. *)
Lemma fsmTransition_gen_run is_sub b h ev c target fns r b' :
  fsmTransition_gen is_sub b (Some h) ev c target fns = Some (r, b') ->
  (r = false /\ listStates (cb b') = listStates (cb b) /\ bCreateError (cb b') = true /\
   (ev = FSM_CATCH_TRANSITION \/ target = FSM_ST_ANY \/ fst (_fsmCreateObject b) = false))
  \/
  (ev <> FSM_CATCH_TRANSITION /\ target <> FSM_ST_ANY /\
   exists t k,
     listStates (cb b') =
       update_state (listStates (cb b)) h (fun s => add_transition s t) /\
     iEventId t = ev /\ iNewStateId t = target /\ bSubState t = is_sub /\
     listConditions t = match c with Some f => [Some f] | None => [] end /\
     (k <= length fns)%nat /\ listActions t = map Some (firstn k fns) /\
     (r = true <-> k = length fns) /\
     (r = true -> bCreateError (cb b') = bCreateError (cb b)) /\
     (r = false -> bCreateError (cb b') = true)).
Proof.
  unfold fsmTransition_gen.
  destruct (nth_error (listStates (cb b)) h) as [s|]; [|discriminate].
  destruct (Z.eqb_spec FSM_CATCH_TRANSITION ev) as [E1|N1].
  { cbn [orb]. intros H; inversion H; subst. left. close_run. }
  destruct (Z.eqb_spec FSM_ST_ANY target) as [E2|N2].
  { cbn [orb]. intros H; inversion H; subst. left. close_run. }
  cbn [orb].
  pose proof (fsmCreateObject_cb b) as Hcb.
  destruct (_fsmCreateObject b) as [ok b1]. cbn in Hcb. destruct ok.
  2:{ intros H; inversion H; subst. left. rewrite <- Hcb. close_run. }
  assert (Hfin : forall t1 b2,
            cb b2 = cb b -> iEventId t1 = ev -> iNewStateId t1 = target ->
            bSubState t1 = is_sub ->
            listConditions t1 = match c with Some f => [Some f] | None => [] end ->
            listActions t1 = [] ->
            (let '(done, t, b3) := add_actions fns t1 b2 in
             Some (done,
                   set_states b3
                     (update_state (listStates (cb b3)) h (fun s => add_transition s t))))
            = Some (r, b') ->
            exists t k,
              listStates (cb b') =
                update_state (listStates (cb b)) h (fun s => add_transition s t) /\
              iEventId t = ev /\ iNewStateId t = target /\ bSubState t = is_sub /\
              listConditions t = match c with Some f => [Some f] | None => [] end /\
              (k <= length fns)%nat /\ listActions t = map Some (firstn k fns) /\
              (r = true <-> k = length fns) /\
              (r = true -> bCreateError (cb b') = bCreateError (cb b)) /\
              (r = false -> bCreateError (cb b') = true)).
  { intros t1 b2 Hb2 He Ht Hs Hc Ha.
    destruct (add_actions fns t1 b2) as [[done t] b3] eqn:Eadd.
    apply add_actions_run in Eadd.
    destruct Eadd as (H1 & H2 & H3 & H4 & H5 & H6 & H7 & H8 & k & Hk & Hact & Hd).
    intros H; inversion H; subst r b'. exists t, k. cbn.
    rewrite H1, Hb2 in *. rewrite Ha in Hact. cbn in Hact.
    repeat split; try congruence; try apply Hd; auto. }
  destruct c as [f|].
  - pose proof (fsmCreateObject_cb b1) as Hcb1.
    destruct (_fsmCreateObject b1) as [okc b2]. cbn in Hcb1. destruct okc; [|discriminate].
    intros H. right. split; [congruence|]. split; [congruence|].
    eapply Hfin; [| | | | | |exact H]; cbn; congruence.
  - intros H. right. split; [congruence|]. split; [congruence|].
    eapply Hfin; [| | | | | |exact H]; cbn; congruence.
Qed.

(** What a call of [fsmCatchTransition] on a state of the graph does. *)
Lemma fsmCatchTransition_run b h s target fns r b' :
  nth_error (listStates (cb b)) h = Some s ->
  fsmCatchTransition b (Some h) target fns = Some (r, b') ->
  (r = false /\ b' = b /\ catch_transitions s <> [])
  \/
  (catch_transitions s = [] /\
   ((r = false /\ fst (_fsmCreateObject b) = false /\
     listStates (cb b') = listStates (cb b) /\ bCreateError (cb b') = true)
    \/
    (fst (_fsmCreateObject b) = true /\
     exists t k,
       listStates (cb b') =
         update_state (listStates (cb b)) h (fun s0 => add_transition s0 t) /\
       iEventId t = FSM_CATCH_TRANSITION /\ iNewStateId t = target /\
       bSubState t = false /\ listConditions t = [] /\
       (k <= length fns)%nat /\ listActions t = map Some (firstn k fns) /\
       (r = true <-> k = length fns) /\
       (r = true -> bCreateError (cb b') = bCreateError (cb b)) /\
       (r = false -> bCreateError (cb b') = true)))).
Proof.
  intros Hs. unfold fsmCatchTransition. rewrite Hs.
  destruct (_fsmGetTransition (listTransitions s) FSM_CATCH_TRANSITION) as [p|] eqn:Ec.
  - intros H; inversion H; subst. left. repeat split; auto.
    intros E. apply no_catch_iff in E. congruence.
  - apply no_catch_iff in Ec. right. split; [exact Ec|].
    pose proof (fsmCreateObject_cb b) as Hcb.
    destruct (_fsmCreateObject b) as [ok b1]. cbn in Hcb. destruct ok.
    + right. split; [reflexivity|].
      match type of H with context [add_actions fns ?t0 b1] =>
        destruct (add_actions fns t0 b1) as [[done t] b2] eqn:Eadd end.
      apply add_actions_run in Eadd.
      destruct Eadd as (H1 & H2 & H3 & H4 & H5 & H6 & H7 & H8 & k & Hk & Hact & Hd).
      inversion H; subst r b'. exists t, k. cbn in *.
      rewrite H1, Hcb in *.
      repeat split; try congruence; try apply Hd; auto.
    + inversion H; subst. left. rewrite <- Hcb. close_run.
Qed.

(** What a call of [fsmTransitionEx] on a state of the graph does when it
    returns. *)
Lemma fsmTransitionEx_run b h ev conds target fns r b' :
  fsmTransitionEx b (Some h) ev conds target fns = Some (r, b') ->
  (r = false /\ listStates (cb b') = listStates (cb b) /\ bCreateError (cb b') = true /\
   (ev = FSM_CATCH_TRANSITION \/ fst (_fsmCreateObject b) = false))
  \/
  (ev <> FSM_CATCH_TRANSITION /\
   exists t k,
     listStates (cb b') =
       update_state (listStates (cb b)) h (fun s => add_transition s t) /\
     iEventId t = ev /\ iNewStateId t = target /\ bSubState t = false /\
     listConditions t = map Some conds /\
     (k <= length fns)%nat /\ listActions t = map Some (firstn k fns) /\
     (target = FSM_ST_ANY -> r = false /\ k = O) /\
     (target <> FSM_ST_ANY -> (r = true <-> k = length fns)) /\
     (r = true -> bCreateError (cb b') = bCreateError (cb b)) /\
     (r = false -> bCreateError (cb b') = true)).
Proof.
  unfold fsmTransitionEx.
  destruct (nth_error (listStates (cb b)) h) as [s|]; [|discriminate].
  destruct (Z.eqb_spec FSM_CATCH_TRANSITION ev) as [E1|N1].
  { intros H; inversion H; subst. left. close_run. }
  pose proof (fsmCreateObject_cb b) as Hcb.
  destruct (_fsmCreateObject b) as [ok b1]. cbn in Hcb. destruct ok.
  2:{ intros H; inversion H; subst. left. rewrite <- Hcb. close_run. }
  match goal with |- context [add_conditions conds ?t0 b1] =>
    destruct (add_conditions conds t0 b1) as [[t1 b2]|] eqn:Ec; [|discriminate] end.
  apply add_conditions_run in Ec. destruct Ec as (C1 & C2 & C3 & C4 & C5 & C6).
  cbn in C2, C3, C4, C5, C6.
  right. split; [congruence|].
  destruct (Z.eqb_spec FSM_ST_ANY target) as [E2|N2].
  - inversion H; subst r b'. exists (set_target t1 target), O. cbn.
    rewrite C1, Hcb. repeat split; auto; try lia; try congruence; try discriminate.
  - destruct (add_actions fns (set_target t1 target) b2) as [[done t] b3] eqn:Eadd.
    apply add_actions_run in Eadd.
    destruct Eadd as (H1 & H2 & H3 & H4 & H5 & H6 & H7 & H8 & k & Hk & Hact & Hd).
    inversion H; subst r b'. exists t, k. cbn in *.
    rewrite H1, C1, Hcb in *. rewrite C5 in Hact. cbn in Hact.
    repeat split; try congruence; try apply Hd; auto; try (intros; congruence).
Qed.

(** ** Every construction call grows the graph in one of three ways *)

Lemma grown_by_list l l' : l' = l -> Grown l l'.
Proof. intros ->. constructor. Qed.

Lemma run_op_grown op b r b' :
  run_op op b = Some (r, b') ->
  Grown (listStates (cb b)) (listStates (cb b')) /\
  (bCreateError (cb b') = bCreateError (cb b) \/ bCreateError (cb b') = true) /\
  (r = false -> failure_is_flagged op -> bCreateError (cb b') = true).
Proof.
  destruct op as [id fpEntry fpExit | id init fpEntry fpExit | |
                  is_sub h ev c target fns | h ev conds target fns | h target fns];
    cbn [run_op failure_is_flagged].
  - destruct (fsmCreateState b id fpEntry fpExit) as [r0 b0] eqn:E.
    apply fsmCreateState_run in E. unfold handle_ok. cbn.
    intros H; inversion H; subst r b'.
    destruct E as [(-> & H1 & H2 & _)|(-> & H1 & H2 & _ & H4 & H5)].
    + split; [apply grown_by_list; exact H1|]. auto.
    + split; [rewrite H4; apply Grown_state; cbn; auto|].
      split; [auto | discriminate].
  - destruct (fsmCreateComplexState b id init fpEntry fpExit) as [r0 b0] eqn:E.
    apply fsmCreateComplexState_run in E. unfold handle_ok. cbn.
    intros H; inversion H; subst r b'.
    destruct E as [(-> & H1 & H2 & _)|(-> & H1 & H2 & _ & H4 & H5)].
    + split; [apply grown_by_list; exact H1|]. auto.
    + split; [rewrite H4; apply Grown_state; cbn; auto|].
      split; [auto | discriminate].
  - destruct (fsmCreateAnyState b) as [r0 b0] eqn:E.
    apply fsmCreateAnyState_run in E. unfold handle_ok. cbn.
    intros H; inversion H; subst r b'.
    destruct E as [(h & -> & -> & _)|(Hn & [(-> & _ & H1 & H2)|(-> & _ & H1 & H2)])].
    + split; [constructor|]. split; [auto | discriminate].
    + split; [apply grown_by_list; exact H1|]. auto.
    + split; [rewrite H1; apply Grown_state; cbn; auto|].
      split; [auto | discriminate].
  - destruct h as [h|]; [|cbn; intros H; inversion H; subst;
                           split; [constructor|]; split; [auto | tauto]].
    intros H. pose proof H as H0. unfold fsmTransition_gen in H0.
    destruct (nth_error (listStates (cb b)) h) as [s|] eqn:Es; [|discriminate]. clear H0.
    apply fsmTransition_gen_run in H.
    destruct H as [(-> & H1 & H2 & _)|(N1 & _ & t & k & H1 & He & _ & _ & _ & _ & _ & _ & H8 & H9)].
    + split; [apply grown_by_list; exact H1|]. auto.
    + split; [rewrite H1; eapply Grown_transition; [exact Es | congruence]|].
      split; [destruct r; auto | auto].
  - destruct h as [h|]; [|cbn; intros H; inversion H; subst;
                           split; [constructor|]; split; [auto | tauto]].
    intros H. pose proof H as H0. unfold fsmTransitionEx in H0.
    destruct (nth_error (listStates (cb b)) h) as [s|] eqn:Es; [|discriminate]. clear H0.
    apply fsmTransitionEx_run in H.
    destruct H as [(-> & H1 & H2 & _)|(N1 & t & k & H1 & He & _ & _ & _ & _ & _ & _ & _ & H8 & H9)].
    + split; [apply grown_by_list; exact H1|]. auto.
    + split; [rewrite H1; eapply Grown_transition; [exact Es | congruence]|].
      split; [destruct r; auto | auto].
  - destruct h as [h|]; [|cbn; intros H; inversion H; subst;
                           split; [constructor|]; split; [auto | tauto]].
    intros H. pose proof H as H0. unfold fsmCatchTransition in H0.
    destruct (nth_error (listStates (cb b)) h) as [s|] eqn:Es; [|discriminate]. clear H0.
    apply (fsmCatchTransition_run _ _ _ _ _ _ _ Es) in H.
    destruct H as [(-> & -> & _)|(Hc & [(-> & _ & H1 & H2)|(_ & t & k & H1 & _ & _ & _ & _ & _ & _ & _ & H8 & H9)])].
    + split; [constructor|]. split; [auto | tauto].
    + split; [apply grown_by_list; exact H1|]. split; [auto | tauto].
    + split; [rewrite H1; eapply Grown_transition; [exact Es | auto]|].
      split; [destruct r; auto | tauto].
Qed.

Lemma grown_unique_ids l l' :
  Grown l l' -> NoDup (map iStateId l) -> NoDup (map iStateId l').
Proof.
  intros [|s Hn _ _|h s t _ _] Hu.
  - exact Hu.
  - rewrite map_app. cbn. apply fsmGetState_none in Hn.
    apply NoDup_app; [exact Hu | constructor; [tauto | constructor] |].
    intros x Hx [<-|[]]. tauto.
  - rewrite update_state_ids; [exact Hu | reflexivity].
Qed.

Lemma grown_real_or_any l l' :
  Grown l l' ->
  Forall (fun s => 0 <= iStateId s \/ iStateId s = FSM_ST_ANY) l ->
  Forall (fun s => 0 <= iStateId s \/ iStateId s = FSM_ST_ANY) l'.
Proof.
  intros [|s _ Hid _|h s t _ _] Hf.
  - exact Hf.
  - apply Forall_app. split; [exact Hf | constructor; [exact Hid | constructor]].
  - apply update_state_Forall; [exact Hf | intros s0 _ H; exact H].
Qed.

Lemma catch_transitions_add s t :
  catch_transitions (add_transition s t) =
  catch_transitions s ++ (if iEventId t =? FSM_CATCH_TRANSITION then [t] else []).
Proof.
  unfold catch_transitions, add_transition, _fsmAddObjectToList. cbn.
  rewrite filter_app. reflexivity.
Qed.

Lemma grown_one_catch l l' :
  Grown l l' ->
  Forall (fun s => (length (catch_transitions s) <= 1)%nat) l ->
  Forall (fun s => (length (catch_transitions s) <= 1)%nat) l'.
Proof.
  intros [|s _ _ Ht|h s t Hs Hc] Hf.
  - exact Hf.
  - apply Forall_app. split; [exact Hf|]. constructor; [|constructor].
    unfold catch_transitions. rewrite Ht. cbn. lia.
  - apply update_state_Forall; [exact Hf|].
    intros s0 Hs0 H0. rewrite Hs in Hs0. inversion Hs0; subst s0.
    rewrite catch_transitions_add, length_app.
    destruct (Z.eqb_spec (iEventId t) FSM_CATCH_TRANSITION) as [E|_]; cbn; [|lia].
    rewrite (Hc E). cbn. lia.
Qed.

Lemma states_extended_refl l : states_extended l l.
Proof.
  intros h s Hs. exists s. repeat split; auto. exists []. rewrite app_nil_r. reflexivity.
Qed.

Lemma states_extended_trans l1 l2 l3 :
  states_extended l1 l2 -> states_extended l2 l3 -> states_extended l1 l3.
Proof.
  intros H12 H23 h s Hs.
  destruct (H12 h s Hs) as (s2 & Hs2 & Ei & Ee & Ex & more2 & Et).
  destruct (H23 h s2 Hs2) as (s3 & Hs3 & Ei' & Ee' & Ex' & more3 & Et').
  exists s3. repeat split; try congruence.
  exists (more2 ++ more3). rewrite Et', Et, app_assoc. reflexivity.
Qed.

Lemma grown_states_extended l l' : Grown l l' -> states_extended l l'.
Proof.
  intros [|s0 _ _ _|h0 s0 t _ _].
  - apply states_extended_refl.
  - intros h s Hs. exists s. split.
    + rewrite nth_error_app1; [exact Hs|]. apply nth_error_Some. congruence.
    + repeat split; auto. exists []. rewrite app_nil_r. reflexivity.
  - intros h s Hs. rewrite update_state_nth, Hs.
    destruct (Nat.eqb h0 h); cbn.
    + eexists. split; [reflexivity|]. cbn. repeat split; auto.
      exists [t]. reflexivity.
    + exists s. repeat split; auto. exists []. rewrite app_nil_r. reflexivity.
Qed.

Lemma run_ops_invariant (P : FSM_CB -> Prop) :
  (forall op b r b', run_op op b = Some (r, b') -> P (cb b) -> P (cb b')) ->
  forall ops b b', run_ops ops b = Some b' -> P (cb b) -> P (cb b').
Proof.
  intros Hstep. induction ops as [|op ops IH]; intros b b'; cbn [run_ops].
  - intros H; inversion H; subst. auto.
  - destruct (run_op op b) as [[r b1]|] eqn:E; [|discriminate].
    intros H Hp. apply (IH _ _ H). eapply Hstep; eassumption.
Qed.

(** X1.  Whatever sequence of construction calls is made on a fresh
    graph, the state ids of the graph are pairwise distinct, each is
    either [>= 0] or the any-state id, and no state has more than one
    catch transition. *)
Theorem built_graph_invariants :
  forall (heap0 : list bool) (b0 b : Builder) (ops : list BuildOp),
    fsmCreateFsm heap0 = Some b0 ->
    run_ops ops b0 = Some b ->
    unique_ids (cb b) /\ real_or_any_ids (cb b) /\ one_catch (cb b).
Proof.
  intros heap0 b0 b ops H0 Hrun.
  assert (Hb0 : listStates (cb b0) = []).
  { unfold fsmCreateFsm in H0. destruct heap0 as [|[|] rest]; try discriminate.
    inversion H0; reflexivity. }
  split; [|split].
  - apply (run_ops_invariant unique_ids) with (ops := ops) (b := b0); auto.
    + intros op b1 r b2 Hop. apply grown_unique_ids.
      apply (run_op_grown _ _ _ _ Hop).
    + unfold unique_ids. rewrite Hb0. constructor.
  - apply (run_ops_invariant real_or_any_ids) with (ops := ops) (b := b0); auto.
    + intros op b1 r b2 Hop. apply grown_real_or_any.
      apply (run_op_grown _ _ _ _ Hop).
    + unfold real_or_any_ids. rewrite Hb0. constructor.
  - apply (run_ops_invariant one_catch) with (ops := ops) (b := b0); auto.
    + intros op b1 r b2 Hop. apply grown_one_catch.
      apply (run_op_grown _ _ _ _ Hop).
    + unfold one_catch. rewrite Hb0. constructor.
Qed.

(** X2.  The creation-error flag is sticky: once set, no sequence of
    construction calls clears it. *)
Theorem creation_error_is_sticky :
  forall (ops : list BuildOp) (b b' : Builder),
    run_ops ops b = Some b' ->
    bCreateError (cb b) = true ->
    bCreateError (cb b') = true.
Proof.
  intros ops b b' Hrun.
  apply (run_ops_invariant (fun g => bCreateError g = true)) with (ops := ops); auto.
  intros op b1 r b2 Hop Hf.
  destruct (run_op_grown _ _ _ _ Hop) as (_ & [E|E] & _); congruence.
Qed.

(** X3.  Construction calls never move, remove or reorder what is there:
    every state stays at its handle with its id and callbacks, and its
    transitions stay, in declaration order, at the head of its transition
    list. *)
Theorem handles_and_declaration_order_are_kept :
  forall (ops : list BuildOp) (b b' : Builder),
    run_ops ops b = Some b' ->
    states_extended (listStates (cb b)) (listStates (cb b')).
Proof.
  induction ops as [|op ops IH]; intros b b'; cbn [run_ops].
  - intros H; inversion H; subst. apply states_extended_refl.
  - destruct (run_op op b) as [[r b1]|] eqn:E; [|discriminate].
    intros H. eapply states_extended_trans; [|apply IH; exact H].
    apply grown_states_extended. apply (run_op_grown _ _ _ _ E).
Qed.

(** X4.  A construction call that fails records it in the creation-error
    flag, for every call except [fsmCatchTransition] and calls given a
    NULL state handle. *)
Theorem failed_call_sets_creation_error :
  forall (op : BuildOp) (b b' : Builder),
    failure_is_flagged op ->
    run_op op b = Some (false, b') ->
    bCreateError (cb b') = true.
Proof.
  intros op b b' Hf Hop.
  destruct (run_op_grown _ _ _ _ Hop) as (_ & _ & H). auto.
Qed.

Lemma built_graph_invariants_witness :
  fsmCreateFsm (repeat true 32) = Some (fresh_builder 31) /\
  run_ops ops_catch (fresh_builder 31) = Some (b_catch 13) /\
  unique_ids g_catch /\ real_or_any_ids g_catch /\ one_catch g_catch.
Proof.
  assert (H0 : fsmCreateFsm (repeat true 32) = Some (fresh_builder 31))
    by (vm_compute; reflexivity).
  assert (H1 : run_ops ops_catch (fresh_builder 31) = Some (b_catch 13))
    by (vm_compute; reflexivity).
  split; [exact H0|]. split; [exact H1|].
  exact (built_graph_invariants (repeat true 32) (fresh_builder 31) (b_catch 13) ops_catch
           H0 H1).
Defined.

Lemma creation_error_is_sticky_witness :
  run_ops ops_catch (set_create_error (fresh_builder 31))
    = Some (set_create_error (b_catch 13)) /\
  bCreateError (cb (set_create_error (b_catch 13))) = true.
Proof.
  assert (H1 : run_ops ops_catch (set_create_error (fresh_builder 31))
               = Some (set_create_error (b_catch 13)))
    by (vm_compute; reflexivity).
  split; [exact H1|].
  exact (creation_error_is_sticky ops_catch (set_create_error (fresh_builder 31))
           (set_create_error (b_catch 13)) H1 eq_refl).
Defined.

Lemma handles_and_declaration_order_are_kept_witness :
  exists b',
    run_ops [OpTransition false (Some 0%nat) 9 None 1 []] (b_catch 13) = Some b' /\
    states_extended (listStates g_catch) (listStates (cb b')).
Proof.
  eexists. split; [vm_compute; reflexivity|].
  refine (handles_and_declaration_order_are_kept
            [OpTransition false (Some 0%nat) 9 None 1 []] (b_catch 13) _ _).
  vm_compute. reflexivity.
Defined.

Lemma failed_call_sets_creation_error_witness :
  failure_is_flagged (OpCreateState 1 None None) /\
  run_op (OpCreateState 1 None None) (b_catch 13)
    = Some (false, set_create_error (b_catch 13)) /\
  bCreateError (cb (set_create_error (b_catch 13))) = true.
Proof.
  assert (H1 : run_op (OpCreateState 1 None None) (b_catch 13)
               = Some (false, set_create_error (b_catch 13)))
    by (vm_compute; reflexivity).
  split; [exact I|]. split; [exact H1|].
  exact (failed_call_sets_creation_error (OpCreateState 1 None None) (b_catch 13)
           (set_create_error (b_catch 13)) I H1).
Defined.


(** ** Creating states *)

(** X5.  [fsmCreateState] with an id [>= 0] that is not in the graph, and
    memory for the object: the handle is the next position, a lookup of
    the id finds the new state, with its callbacks, no transition and no
    substate; every other lookup and the creation-error flag are as
    before. *)
Theorem fsmCreateState_then_lookup :
  forall (b : Builder) (id : Z) (fpEntry : FSM_FUNC_ENTRY) (fpExit : FSM_FUNC_EXIT),
    0 <= id ->
    _fsmGetState (listStates (cb b)) id = None ->
    fst (_fsmCreateObject b) = true ->
    exists b',
      fsmCreateState b id fpEntry fpExit = (Some (length (listStates (cb b))), b') /\
      _fsmGetState (listStates (cb b')) id
        = Some {| iStateId := id; fpEntryAction := fpEntry; listTransitions := [];
                  fpExitAction := fpExit; bComplex := false;
                  iInitialSubStateId := FSM_ST_SAME |} /\
      nth_error (listStates (cb b')) (length (listStates (cb b)))
        = Some {| iStateId := id; fpEntryAction := fpEntry; listTransitions := [];
                  fpExitAction := fpExit; bComplex := false;
                  iInitialSubStateId := FSM_ST_SAME |} /\
      (forall id', id' <> id ->
         _fsmGetState (listStates (cb b')) id' = _fsmGetState (listStates (cb b)) id') /\
      bCreateError (cb b') = bCreateError (cb b).
Proof.
  intros b id fpEntry fpExit Hid Hnew Hmem.
  destruct (fsmCreateState b id fpEntry fpExit) as [r b'] eqn:E.
  exists b'. apply fsmCreateState_run in E.
  destruct E as [(_ & _ & _ & [H|[H|H]])|(-> & _ & _ & _ & H4 & H5)];
    try lia; try congruence.
  split; [reflexivity|]. rewrite H4.
  split; [rewrite fsmGetState_app, Hnew; cbn; rewrite Z.eqb_refl; reflexivity|].
  split; [rewrite nth_error_app2, Nat.sub_diag by lia; reflexivity|].
  split; [|exact H5].
  intros id' Hne. rewrite fsmGetState_app. cbn.
  destruct (_fsmGetState (listStates (cb b)) id'); [reflexivity|].
  destruct (Z.eqb_spec id id'); [congruence | reflexivity].
Qed.

Lemma fsmCreateState_then_lookup_witness :
  exists b',
    fsmCreateState (b_catch 13) 8 (Some 1%nat) None = (Some 4%nat, b') /\
    _fsmGetState (listStates (cb b')) 8
      = Some {| iStateId := 8; fpEntryAction := Some 1%nat; listTransitions := [];
                fpExitAction := None; bComplex := false;
                iInitialSubStateId := FSM_ST_SAME |}.
Proof.
  destruct (fsmCreateState_then_lookup (b_catch 13) 8 (Some 1%nat) None
              ltac:(lia) eq_refl eq_refl) as (b' & H1 & H2 & _).
  exists b'. split; [exact H1 | exact H2].
Defined.

(** X6.  [fsmCreateState] with a negative id, with an id the graph
    already has, or without memory: NULL is returned, the creation-error
    flag is set and no state is added. *)
Theorem fsmCreateState_rejects :
  forall (b : Builder) (id : Z) (fpEntry : FSM_FUNC_ENTRY) (fpExit : FSM_FUNC_EXIT),
    id < 0 \/ _fsmGetState (listStates (cb b)) id <> None
      \/ fst (_fsmCreateObject b) = false ->
    exists b',
      fsmCreateState b id fpEntry fpExit = (None, b') /\
      listStates (cb b') = listStates (cb b) /\
      bCreateError (cb b') = true.
Proof.
  intros b id fpEntry fpExit Hbad.
  destruct (fsmCreateState b id fpEntry fpExit) as [r b'] eqn:E.
  exists b'. apply fsmCreateState_run in E.
  destruct E as [(-> & H1 & H2 & _)|(_ & H1 & H2 & H3 & _)].
  - auto.
  - exfalso. destruct Hbad as [H|[H|H]]; [lia | congruence | congruence].
Qed.

Lemma fsmCreateState_rejects_witness :
  exists b',
    fsmCreateState (b_catch 13) 2 None None = (None, b') /\
    listStates (cb b') = listStates g_catch /\ bCreateError (cb b') = true.
Proof.
  assert (H : _fsmGetState (listStates (cb (b_catch 13))) 2 <> None)
    by (vm_compute; discriminate).
  destruct (fsmCreateState_rejects (b_catch 13) 2 None None (or_intror (or_introl H)))
    as (b' & H1 & H2 & H3).
  exists b'. split; [exact H1|]. split; [exact H2 | exact H3].
Defined.

(** X7.  [fsmCreateComplexState] under the same conditions stores the
    initial substate id as given, whether or not a state of that id
    exists or is ever created. *)
Theorem fsmCreateComplexState_then_lookup :
  forall (b : Builder) (id init : Z) (fpEntry : FSM_FUNC_ENTRY) (fpExit : FSM_FUNC_EXIT),
    0 <= id ->
    _fsmGetState (listStates (cb b)) id = None ->
    fst (_fsmCreateObject b) = true ->
    exists b',
      fsmCreateComplexState b id init fpEntry fpExit
        = (Some (length (listStates (cb b))), b') /\
      _fsmGetState (listStates (cb b')) id
        = Some {| iStateId := id; fpEntryAction := fpEntry; listTransitions := [];
                  fpExitAction := fpExit; bComplex := true;
                  iInitialSubStateId := init |} /\
      (forall id', id' <> id ->
         _fsmGetState (listStates (cb b')) id' = _fsmGetState (listStates (cb b)) id') /\
      bCreateError (cb b') = bCreateError (cb b).
Proof.
  intros b id init fpEntry fpExit Hid Hnew Hmem.
  destruct (fsmCreateComplexState b id init fpEntry fpExit) as [r b'] eqn:E.
  exists b'. apply fsmCreateComplexState_run in E.
  destruct E as [(_ & _ & _ & [H|[H|H]])|(-> & _ & _ & _ & H4 & H5)];
    try lia; try congruence.
  split; [reflexivity|]. rewrite H4.
  split; [rewrite fsmGetState_app, Hnew; cbn; rewrite Z.eqb_refl; reflexivity|].
  split; [|exact H5].
  intros id' Hne. rewrite fsmGetState_app. cbn.
  destruct (_fsmGetState (listStates (cb b)) id'); [reflexivity|].
  destruct (Z.eqb_spec id id'); [congruence | reflexivity].
Qed.

Lemma fsmCreateComplexState_then_lookup_witness :
  exists b',
    fsmCreateComplexState (b_catch 13) 8 99 None None = (Some 4%nat, b') /\
    _fsmGetState (listStates (cb b')) 99 = None /\
    _fsmGetState (listStates (cb b')) 8
      = Some {| iStateId := 8; fpEntryAction := None; listTransitions := [];
                fpExitAction := None; bComplex := true; iInitialSubStateId := 99 |}.
Proof.
  destruct (fsmCreateComplexState_then_lookup (b_catch 13) 8 99 None None
              ltac:(lia) eq_refl eq_refl) as (b' & H1 & H2 & H3 & _).
  exists b'. split; [exact H1|]. split; [|exact H2].
  rewrite H3 by discriminate. reflexivity.
Defined.




(** ** Creating transitions *)

Lemma update_state_at l h f s :
  nth_error l h = Some s ->
  nth_error (update_state l h f) h = Some (f s) /\
  forall h', h' <> h -> nth_error (update_state l h f) h' = nth_error l h'.
Proof.
  intros Hs. split.
  - rewrite update_state_nth, Nat.eqb_refl, Hs. reflexivity.
  - intros h' Hne. rewrite update_state_nth.
    destruct (Nat.eqb_spec h h'); [congruence | reflexivity].
Qed.

(** X9.  A call of [fsmTransition] or [fsmTransitionSub] that gets past
    its checks (state of the graph, event not the catch id, target not the
    any-state id, memory for the transition object) does one of two
    things.  When a condition is given and there is no memory for its
    object, the call writes through the NULL pointer: the allocation is
    not checked.  Otherwise the call returns, the new transition is last
    in the transition list of its state and no other state is touched; the
    transition has the given event, target, sub-state flag and condition;
    and when memory runs out among the actions the call returns
    [FSM_FALSE] and sets the creation-error flag, and the transition stays
    in the graph with the actions allocated so far. *)
Theorem fsmTransition_appends_last :
  forall (is_sub : bool) (b : Builder) (h : nat) (s : FSM_STATE) (ev target : Z)
         (c : FSM_FUNC_CONDITION) (fns : list fptr),
    nth_error (listStates (cb b)) h = Some s ->
    ev <> FSM_CATCH_TRANSITION -> target <> FSM_ST_ANY ->
    fst (_fsmCreateObject b) = true ->
    (c <> None /\
     fst (_fsmCreateObject (snd (_fsmCreateObject b))) = false /\
     fsmTransition_gen is_sub b (Some h) ev c target fns = None)
    \/
    ((c = None \/ fst (_fsmCreateObject (snd (_fsmCreateObject b))) = true) /\
     exists r b' t k,
       fsmTransition_gen is_sub b (Some h) ev c target fns = Some (r, b') /\
       nth_error (listStates (cb b')) h = Some (add_transition s t) /\
       (forall h', h' <> h ->
          nth_error (listStates (cb b')) h' = nth_error (listStates (cb b)) h') /\
       iEventId t = ev /\ iNewStateId t = target /\ bSubState t = is_sub /\
       listConditions t = match c with Some f => [Some f] | None => [] end /\
       (k <= length fns)%nat /\ listActions t = map Some (firstn k fns) /\
       (r = true <-> k = length fns) /\
       (r = true -> bCreateError (cb b') = bCreateError (cb b)) /\
       (r = false -> bCreateError (cb b') = true)).
Proof.
  intros is_sub b h s ev target c fns Hs Hev Htg Hmem.
  assert (Hcall :
    fsmTransition_gen is_sub b (Some h) ev c target fns =
    match c with
    | Some f =>
        if fst (_fsmCreateObject (snd (_fsmCreateObject b)))
        then fsmTransition_gen is_sub b (Some h) ev c target fns
        else None
    | None => fsmTransition_gen is_sub b (Some h) ev c target fns
    end).
  { destruct c as [f|]; [|reflexivity].
    destruct (fst (_fsmCreateObject (snd (_fsmCreateObject b)))) eqn:E2; [reflexivity|].
    unfold fsmTransition_gen. rewrite Hs.
    destruct (Z.eqb_spec FSM_CATCH_TRANSITION ev) as [E|_]; [congruence|].
    destruct (Z.eqb_spec FSM_ST_ANY target) as [E|_]; [congruence|].
    cbn [orb]. destruct (_fsmCreateObject b) as [ok b1]. cbn [fst snd] in Hmem, E2.
    subst ok. cbv zeta.
    destruct (_fsmCreateObject b1) as [okc b2]. cbn [fst] in E2. subst okc.
    reflexivity. }
  assert (Hret : (c = None \/ fst (_fsmCreateObject (snd (_fsmCreateObject b))) = true) ->
                 exists r b', fsmTransition_gen is_sub b (Some h) ev c target fns
                              = Some (r, b')).
  { intros Hc. unfold fsmTransition_gen. rewrite Hs.
    destruct (Z.eqb_spec FSM_CATCH_TRANSITION ev) as [E|_]; [congruence|].
    destruct (Z.eqb_spec FSM_ST_ANY target) as [E|_]; [congruence|].
    cbn [orb]. destruct (_fsmCreateObject b) as [ok b1]. cbn [fst snd] in Hmem, Hc.
    subst ok. cbv zeta.
    destruct c as [f|].
    - destruct Hc as [Hc|Hc]; [discriminate|].
      destruct (_fsmCreateObject b1) as [okc b2]. cbn [fst] in Hc. subst okc.
      destruct (add_actions fns _ b2) as [[done t] b3].
      eexists; eexists; reflexivity.
    - destruct (add_actions fns _ b1) as [[done t] b3].
      eexists; eexists; reflexivity. }
  assert (Hcases : (c <> None /\
                    fst (_fsmCreateObject (snd (_fsmCreateObject b))) = false)
                   \/ (c = None \/
                       fst (_fsmCreateObject (snd (_fsmCreateObject b))) = true)).
  { destruct c as [f|]; [|right; left; reflexivity].
    destruct (fst (_fsmCreateObject (snd (_fsmCreateObject b))));
      [right; right; reflexivity | left; split; [discriminate | reflexivity]]. }
  destruct Hcases as [[Hc E2]|Hc].
  - left. split; [exact Hc|]. split; [exact E2|].
    rewrite Hcall. destruct c as [f|]; [|congruence]. rewrite E2. reflexivity.
  - right. split; [exact Hc|].
    destruct (Hret Hc) as (r & b' & H). exists r, b'.
    pose proof H as Hrun. apply fsmTransition_gen_run in Hrun.
    destruct Hrun as [(_ & _ & _ & [E|[E|E]])|(_ & _ & t & k & H1 & H2)];
      try congruence.
    exists t, k. split; [exact H|]. rewrite H1.
    destruct (update_state_at _ _ (fun s0 => add_transition s0 t) _ Hs) as [Ha Hb].
    split; [exact Ha|]. split; [exact Hb|]. exact H2.
Qed.

Lemma fsmTransition_appends_last_witness :
  exists b' t,
    fsmTransition_gen false (b_catch 3) (Some 1%nat) 4 (Some 31%nat) 2 [25%nat; 26%nat]
      = Some (false, b') /\
    nth_error (listStates (cb b')) 1
      = Some (add_transition (simple_state 1 [simple_transition 0 0]) t) /\
    listActions t = [Some 25%nat] /\
    bCreateError (cb b') = true.
Proof.
  assert (Hs : nth_error (listStates (cb (b_catch 3))) 1
               = Some (simple_state 1 [simple_transition 0 0]))
    by (vm_compute; reflexivity).
  assert (Hmem : fst (_fsmCreateObject (b_catch 3)) = true)
    by (vm_compute; reflexivity).
  destruct (fsmTransition_appends_last false (b_catch 3) 1%nat
              (simple_state 1 [simple_transition 0 0]) 4 2 (Some 31%nat)
              [25%nat; 26%nat] Hs ltac:(discriminate) ltac:(discriminate) Hmem)
    as [(_ & E2 & _)
       |(_ & r & b' & t & k & E & H1 & _ & _ & _ & _ & _ & Hk & Ha & Hr & _ & Hf)].
  - vm_compute in E2. discriminate.
  - assert (Er : r = false) by (vm_compute in E; inversion E; reflexivity).
    subst r. exists b', t. split; [exact E|]. split; [exact H1|].
    split; [|exact (Hf eq_refl)].
    vm_compute in E. inversion E; subst b'. clear E.
    vm_compute in H1. inversion H1. reflexivity.
Defined.

(** X10.  [fsmTransitionEx] checks the target after it has linked the
    transition into the state: with the any-state id as target the call
    returns [FSM_FALSE] and sets the creation-error flag, and the
    transition, with its conditions, that target and no action, stays last
    in the transition list of the state. *)
Theorem fsmTransitionEx_any_target_stays :
  forall (b b' : Builder) (h : nat) (s : FSM_STATE) (ev : Z)
         (conds fns : list fptr) (r : bool),
    nth_error (listStates (cb b)) h = Some s ->
    ev <> FSM_CATCH_TRANSITION ->
    fst (_fsmCreateObject b) = true ->
    fsmTransitionEx b (Some h) ev conds FSM_ST_ANY fns = Some (r, b') ->
    r = false /\ bCreateError (cb b') = true /\
    nth_error (listStates (cb b')) h
      = Some (add_transition s
                {| iNewStateId := FSM_ST_ANY; bSubState := false; iEventId := ev;
                   listConditions := map Some conds; listActions := [] |}).
Proof.
  intros b b' h s ev conds fns r Hs Hev Hmem H.
  apply fsmTransitionEx_run in H.
  destruct H as [(_ & _ & _ & [E|E])|(_ & t & k & H1 & H2 & H3 & H4 & H5 & _ & H7 & H8 & _ & _ & H11)];
    try congruence.
  destruct (H8 eq_refl) as [-> ->]. cbn in H7.
  split; [reflexivity|]. split; [exact (H11 eq_refl)|].
  rewrite H1.
  destruct (update_state_at _ _ (fun s0 => add_transition s0 t) _ Hs) as [Ha _].
  rewrite Ha. destruct t; cbn in *; subst. reflexivity.
Qed.

Lemma fsmTransitionEx_any_target_stays_witness :
  exists b',
    fsmTransitionEx (b_catch 13) (Some 1%nat) 4 [31%nat] FSM_ST_ANY [25%nat]
      = Some (false, b') /\
    bCreateError (cb b') = true /\
    nth_error (listStates (cb b')) 1
      = Some (simple_state 1
                [simple_transition 0 0;
                 {| iNewStateId := FSM_ST_ANY; bSubState := false; iEventId := 4;
                    listConditions := [Some 31%nat]; listActions := [] |}]).
Proof.
  eexists. split; [reflexivity|].
  destruct (fsmTransitionEx_any_target_stays (b_catch 13) _ 1%nat
              (simple_state 1 [simple_transition 0 0]) 4 [31%nat] [25%nat] false
              eq_refl ltac:(discriminate) eq_refl eq_refl) as (_ & H2 & H3).
  split; [exact H2 | exact H3].
Defined.

Lemma add_actions_enough : forall fns t b,
  firstn (length fns) (heap b) = repeat true (length fns) ->
  fst (fst (add_actions fns t b)) = true.
Proof.
  induction fns as [|f fns IH]; intros t b; cbn [add_actions length]; [reflexivity|].
  unfold _fsmCreateObject. destruct (heap b) as [|ok rest] eqn:Eh; cbn; [discriminate|].
  intros H. inversion H; subst ok. apply IH. cbn. assumption.
Qed.

(** X11.  [fsmCatchTransition] on a state without a catch transition, with
    memory for the transition and its actions, returns [FSM_TRUE] and
    appends the catch transition with all its actions, for every target id
    whatsoever: the target is not checked, not even against the any-state
    id.  The creation-error flag is not touched, and the catch lookup on
    the state now finds the transition. *)
Theorem fsmCatchTransition_accepts_any_target :
  forall (b : Builder) (h : nat) (s : FSM_STATE) (target : Z) (fns : list fptr),
    nth_error (listStates (cb b)) h = Some s ->
    catch_transitions s = [] ->
    firstn (S (length fns)) (heap b) = repeat true (S (length fns)) ->
    exists b',
      fsmCatchTransition b (Some h) target fns = Some (true, b') /\
      nth_error (listStates (cb b')) h
        = Some (add_transition s
                  {| iNewStateId := target; bSubState := false;
                     iEventId := FSM_CATCH_TRANSITION;
                     listConditions := []; listActions := map Some fns |}) /\
      bCreateError (cb b') = bCreateError (cb b) /\
      _fsmGetTransition
        (listTransitions
           (add_transition s
              {| iNewStateId := target; bSubState := false;
                 iEventId := FSM_CATCH_TRANSITION;
                 listConditions := []; listActions := map Some fns |}))
        FSM_CATCH_TRANSITION
      = Some ({| iNewStateId := target; bSubState := false;
                 iEventId := FSM_CATCH_TRANSITION;
                 listConditions := []; listActions := map Some fns |}, []).
Proof.
  intros b h s target fns Hs Hc Hmem.
  assert (Hobj : exists rest, heap b = true :: rest /\
                              firstn (length fns) rest = repeat true (length fns)).
  { destruct (heap b) as [|ok rest]; cbn in Hmem; [discriminate|].
    inversion Hmem; subst. exists rest. auto. }
  destruct Hobj as (rest & Eh & Hrest).
  destruct (fsmCatchTransition b (Some h) target fns) as [[r b']|] eqn:E.
  2:{ unfold fsmCatchTransition in E. rewrite Hs in E.
      destruct (_fsmGetTransition (listTransitions s) FSM_CATCH_TRANSITION);
        [discriminate|].
      destruct (_fsmCreateObject b) as [[|] b1]; [|discriminate].
      destruct (add_actions fns _ b1) as [[done t] b2]. discriminate. }
  assert (Hr : r = true).
  { unfold fsmCatchTransition in E. rewrite Hs in E.
    apply no_catch_iff in Hc. rewrite Hc in E.
    unfold _fsmCreateObject in E. rewrite Eh in E.
    match type of E with context [add_actions fns ?t0 ?b1] =>
      pose proof (add_actions_enough fns t0 b1 Hrest) as Hen;
      destruct (add_actions fns t0 b1) as [[done t] b2] end.
    cbn in Hen. inversion E; subst. reflexivity. }
  subst r. exists b'.
  pose proof (fsmCatchTransition_run _ _ _ _ _ _ _ Hs E) as R.
  destruct R as [(R & _)|(_ & [(R & _)|(_ & t & k & H1 & H2 & H3 & H4 & H5 & Hk & Ha & Hd & Hf & _)])];
    try discriminate.
  assert (Ek : k = length fns) by (apply Hd; reflexivity).
  subst k. rewrite firstn_all in Ha.
  assert (Et : t = {| iNewStateId := target; bSubState := false;
                      iEventId := FSM_CATCH_TRANSITION;
                      listConditions := []; listActions := map Some fns |})
    by (destruct t; cbn in *; subst; reflexivity).
  subst t. split; [reflexivity|].
  destruct (update_state_at _ _ (fun s0 => add_transition s0
              {| iNewStateId := target; bSubState := false;
                 iEventId := FSM_CATCH_TRANSITION;
                 listConditions := []; listActions := map Some fns |}) _ Hs) as [Hat _].
  split; [rewrite H1; exact Hat|]. split; [exact (Hf eq_refl)|].
  apply no_catch_iff in Hc. unfold add_transition, _fsmAddObjectToList. cbn.
  clear - Hc. induction (listTransitions s) as [|t0 l IH]; cbn in *.
  - reflexivity.
  - destruct (iEventId t0 =? FSM_CATCH_TRANSITION); [discriminate|]. apply IH. exact Hc.
Qed.

Lemma fsmCatchTransition_accepts_any_target_witness :
  exists b',
    fsmCatchTransition (b_catch 13) (Some 1%nat) FSM_ST_ANY [27%nat] = Some (true, b') /\
    nth_error (listStates (cb b')) 1
      = Some (simple_state 1
                [simple_transition 0 0;
                 {| iNewStateId := FSM_ST_ANY; bSubState := false;
                    iEventId := FSM_CATCH_TRANSITION;
                    listConditions := []; listActions := [Some 27%nat] |}]) /\
    bCreateError (cb b') = false.
Proof.
  destruct (fsmCatchTransition_accepts_any_target (b_catch 13) 1%nat
              (simple_state 1 [simple_transition 0 0]) FSM_ST_ANY [27%nat]
              eq_refl eq_refl eq_refl) as (b' & H1 & H2 & H3 & _).
  exists b'. split; [exact H1|]. split; [exact H2 | exact H3].
Defined.

(** ** The exit loop, call by call *)

Section ExitFacts.
Context {World : Type} {app : Callbacks World}.

Lemma exit_loop_log g : forall n cnt (m : Machine World),
  0 <= cnt - Z.of_nat n + 1 -> cnt <= 3 ->
  exists m', exit_loop g n cnt m = Returned tt m' /\ obj m' = obj m /\
             calls (env m') =
               calls (env m) ++ exit_calls g (iNestedStateIds (obj m)) n cnt.
Proof.
  induction n as [|n IH]; intros cnt m Hlo Hhi.
  - exists m. cbn. rewrite app_nil_r. auto.
  - cbn [exit_loop exit_calls].
    destruct (nest_get_in_range (iNestedStateIds (obj m)) cnt ltac:(lia)) as (id & Eid).
    assert (Er : read_nested cnt m = Returned id m)
      by (unfold read_nested; rewrite Eid; reflexivity).
    rewrite (bind_returned _ _ _ _ _ Er). rewrite Eid.
    assert (Hstep : exists m1,
               (match _fsmGetState (listStates g) id with
                | Some s => match fpExitAction s with
                            | Some f => invoke_exit f
                            | None => ret tt
                            end
                | None => ret tt
                end) m = Returned tt m1 /\ obj m1 = obj m /\
               calls (env m1) = calls (env m) ++ exit_call_of g id).
    { unfold exit_call_of. destruct (_fsmGetState (listStates g) id) as [s|].
      - destruct (fpExitAction s) as [f|].
        + eexists. split; [reflexivity|]. split; reflexivity.
        + exists m. rewrite app_nil_r. auto.
      - exists m. rewrite app_nil_r. auto. }
    destruct Hstep as (m1 & E1 & O1 & L1).
    rewrite (bind_returned _ _ _ _ _ E1).
    destruct (IH (cnt - 1) m1 ltac:(lia) ltac:(lia)) as (m2 & E2 & O2 & L2).
    exists m2. split; [exact E2|]. split; [congruence|].
    rewrite L2, L1, O1, <- app_assoc. reflexivity.
Qed.

(** The STATE EXIT block of a transition that is not a sub-state
    transition: the previous state id is the innermost active id, the
    exit callbacks run from the current depth down to the depth of the
    match, and the depth becomes that of the match, or one less than the
    current one (not below 0) for a PARENT target. *)
Lemma state_exit_log g loc (m : Machine World) :
  depth_ok (obj m) ->
  l_bNewStateIsSubState loc = false ->
  0 <= l_iStateChangeDepth loc <= iNestDepth (obj m) ->
  exists cur e,
    nest_get (iNestedStateIds (obj m)) (iNestDepth (obj m)) = Some cur /\
    state_exit g loc m =
      Returned (Continue tt)
        {| obj := {| iNestDepth :=
                       if FSM_ST_PARENT =? l_iNewStateId loc
                       then parent_depth (iNestDepth (obj m))
                       else l_iStateChangeDepth loc;
                     iNestedStateIds := iNestedStateIds (obj m);
                     iPreviousStateId := cur |};
           env := e |} /\
    calls e =
      calls (env m) ++
      exit_calls g (iNestedStateIds (obj m))
        (Z.to_nat (iNestDepth (obj m) - l_iStateChangeDepth loc + 1))
        (iNestDepth (obj m)).
Proof.
  intros Hd Hsub Hc. unfold depth_ok, FSM_MAX_STATE_NEST_DEPTH in Hd.
  destruct (nest_get_in_range (iNestedStateIds (obj m)) (iNestDepth (obj m)) ltac:(lia))
    as (cur & Ecur).
  unfold state_exit. rewrite Hsub.
  rewrite (bind_returned _ _ _ _ _ (get_depth_run m)).
  assert (Er : read_nested (iNestDepth (obj m)) m = Returned cur m)
    by (unfold read_nested; rewrite Ecur; reflexivity).
  rewrite (bind_returned _ _ _ _ _ Er).
  unfold bind at 1. cbn [set_previous].
  unfold bind at 1. cbn [get_depth obj iNestDepth].
  match goal with
  | |- context [bind (exit_loop g ?n ?c) _ ?mm] =>
      assert (Hlo : 0 <= c - Z.of_nat n + 1) by (rewrite Z2Nat.id by lia; lia);
      destruct (exit_loop_log g n c mm Hlo ltac:(lia)) as (m1 & E1 & O1 & L1)
  end.
  rewrite (bind_returned _ _ _ _ _ E1).
  exists cur, (env m1). split; [exact Ecur|]. split; [|exact L1].
  destruct m1 as [o1 e1]. cbn in O1. subst o1. cbn [env].
  unfold parent_depth.
  destruct (FSM_ST_PARENT =? l_iNewStateId loc).
  - unfold bind, get_depth, set_depth, ret. cbn [obj iNestDepth].
    destruct (Z.gtb_spec (iNestDepth (obj m)) 0) as [Hpos|Hzero]; cbn.
    + reflexivity.
    + replace (iNestDepth (obj m)) with 0 by lia. reflexivity.
  - reflexivity.
Qed.

End ExitFacts.

(** ** An ordinary transition, and a transition to the parent *)

(** X12.  A matched transition that is not a sub-state transition and
    whose target is a state of the graph that does not descend (not
    complex, or complex without initial substate): the call returns "new
    state"; the exit callbacks run innermost first from the current depth
    down to the depth of the match, then the entry callback of the target;
    the depth is that of the match, [fsmGetCurrentState] is the target,
    [fsmGetPreviousState] the state that was innermost before, and no other
    stack slot changes. *)
Theorem plain_transition_exits_then_enters :
  forall (World : Type) (app : Callbacks World) (g : FSM_CB) (ev : Z)
         (m m1 : Machine World) (loc : Locals) (T : Z) (sT : FSM_STATE),
    ev <> FSM_CATCH_TRANSITION -> depth_ok (obj m) ->
    find_transition g ev m = Returned (Continue loc) m1 ->
    l_eResult loc = eFSM_RESULT_NEW_STATE ->
    l_iNewStateId loc = T ->
    l_bNewStateIsSubState loc = false ->
    T <> FSM_ST_PARENT ->
    _fsmGetState (listStates g) T = Some sT ->
    bComplex sT && negb (FSM_ST_SAME =? iInitialSubStateId sT) = false ->
    exists m2,
      fsmExecute (Some g) ev m = Returned eFSM_RESULT_NEW_STATE m2 /\
      iNestDepth (obj m2) = l_iStateChangeDepth loc /\
      fsmGetCurrentState (Some (obj m2)) = Some T /\
      Some (fsmGetPreviousState (Some (obj m2))) = fsmGetCurrentState (Some (obj m)) /\
      (forall i, i <> l_iStateChangeDepth loc ->
         nest_get (iNestedStateIds (obj m2)) i = nest_get (iNestedStateIds (obj m)) i) /\
      calls (env m2) =
        calls (env m1)
        ++ exit_calls g (iNestedStateIds (obj m))
             (Z.to_nat (iNestDepth (obj m) - l_iStateChangeDepth loc + 1))
             (iNestDepth (obj m))
        ++ entry_calls sT.
Proof.
  intros World app g ev m m1 loc T sT Hev Hd Hfind Hres HT Hsub HnP HsT Hflat.
  destruct (find_transition_keeps _ _ _ _ _ Hfind) as [O1 Hcd].
  assert (Hd1 : depth_ok (obj m1)) by (rewrite O1; exact Hd).
  assert (EP : (FSM_ST_PARENT =? T) = false) by (apply Z.eqb_neq; congruence).
  assert (Hc1 : 0 <= l_iStateChangeDepth loc <= iNestDepth (obj m1)).
  { unfold depth_ok, FSM_MAX_STATE_NEST_DEPTH in Hd. rewrite O1.
    destruct Hcd as [-> | ?]; lia. }
  destruct (state_exit_log g loc m1 Hd1 Hsub Hc1) as (cur & e & Ecur & Hexit & L).
  rewrite HT, EP in Hexit.
  unfold fsmExecute.
  destruct (Z.eqb_spec FSM_CATCH_TRANSITION ev) as [E|_]; [congruence|].
  rewrite (bind_returned _ _ _ _ _ Hfind). rewrite Hres. cbn [result_eqb].
  unfold change_state, state_entry. rewrite (bind_returned _ _ _ _ _ Hexit).
  rewrite HT, EP, Hres. cbn [negb].
  change (Z.to_nat FSM_MAX_STATE_NEST_DEPTH) with 4%nat.
  unfold depth_ok, FSM_MAX_STATE_NEST_DEPTH in Hd, Hd1.
  destruct (nest_set_in_range (iNestedStateIds (obj m1)) (l_iStateChangeDepth loc) T
              ltac:(lia)) as (a & Ea & Ga & Ka).
  match goal with
  | |- context [bind (entry_loop g ?n T) _ ?mm] =>
      destruct (entry_loop_known g 3 T sT mm a HsT Ea) as (w & Ee)
  end.
  cbv zeta in Ee. rewrite Hflat in Ee.
  rewrite (bind_returned _ _ _ _ _ Ee).
  eexists. split; [reflexivity|]. cbn. rewrite <- O1.
  split; [reflexivity|]. split; [exact Ga|]. split; [symmetry; f_equal|].
  - rewrite Ecur. reflexivity.
  - split; [exact Ka|]. rewrite L, <- app_assoc. reflexivity.
Qed.

Lemma plain_transition_exits_then_enters_witness :
  exists m2,
    fsmExecute (Some g_chain) 6 m_chain = Returned eFSM_RESULT_NEW_STATE m2 /\
    fsmGetCurrentState (Some (obj m2)) = Some 0 /\
    fsmGetPreviousState (Some (obj m2)) = 3 /\
    calls (env m2) =
      calls (env m_chain) ++ [CallExit 53%nat; CallExit 52%nat; CallExit 51%nat].
Proof.
  assert (Hd : depth_ok (obj m_chain)) by (vm_compute; split; discriminate).
  assert (Hf : find_transition g_chain 6 m_chain
               = Returned (Continue {| l_eResult := eFSM_RESULT_NEW_STATE;
                                       l_iNewStateId := 0;
                                       l_bNewStateIsSubState := false;
                                       l_iStateChangeDepth := 0 |}) m_chain)
    by (vm_compute; reflexivity).
  assert (Hs : _fsmGetState (listStates g_chain) 0
               = Some {| iStateId := 0; fpEntryAction := None;
                         listTransitions := [simple_transition 1 1; simple_transition 2 42];
                         fpExitAction := Some 40%nat; bComplex := false;
                         iInitialSubStateId := FSM_ST_SAME |})
    by (vm_compute; reflexivity).
  destruct (plain_transition_exits_then_enters _ _ g_chain 6 m_chain m_chain _ 0 _
              ltac:(discriminate) Hd Hf eq_refl eq_refl eq_refl ltac:(discriminate)
              Hs eq_refl) as (m2 & H1 & _ & H3 & H4 & _ & H6).
  exists m2. split; [exact H1|]. split; [exact H3|].
  split; [vm_compute in H4; inversion H4; reflexivity|].
  rewrite H6. vm_compute. reflexivity.
Defined.

(** X13.  A matched transition with target PARENT that is not a sub-state
    transition: the call returns "new state"; the exit callbacks run
    innermost first from the current depth down to the depth of the match
    and no entry callback runs; the stack slots are all unchanged and the
    depth drops by exactly one level whatever the depth of the match,
    staying 0 at depth 0; [fsmGetPreviousState] is the state that was
    innermost before. *)
Theorem parent_transition_pops_one_level :
  forall (World : Type) (app : Callbacks World) (g : FSM_CB) (ev : Z)
         (m m1 : Machine World) (loc : Locals),
    ev <> FSM_CATCH_TRANSITION -> depth_ok (obj m) ->
    find_transition g ev m = Returned (Continue loc) m1 ->
    l_eResult loc = eFSM_RESULT_NEW_STATE ->
    l_iNewStateId loc = FSM_ST_PARENT ->
    l_bNewStateIsSubState loc = false ->
    exists m2,
      fsmExecute (Some g) ev m = Returned eFSM_RESULT_NEW_STATE m2 /\
      iNestDepth (obj m2) = parent_depth (iNestDepth (obj m)) /\
      iNestedStateIds (obj m2) = iNestedStateIds (obj m) /\
      Some (fsmGetPreviousState (Some (obj m2))) = fsmGetCurrentState (Some (obj m)) /\
      calls (env m2) =
        calls (env m1)
        ++ exit_calls g (iNestedStateIds (obj m))
             (Z.to_nat (iNestDepth (obj m) - l_iStateChangeDepth loc + 1))
             (iNestDepth (obj m)).
Proof.
  intros World app g ev m m1 loc Hev Hd Hfind Hres HT Hsub.
  destruct (find_transition_keeps _ _ _ _ _ Hfind) as [O1 Hcd].
  assert (Hd1 : depth_ok (obj m1)) by (rewrite O1; exact Hd).
  assert (Hc1 : 0 <= l_iStateChangeDepth loc <= iNestDepth (obj m1)).
  { unfold depth_ok, FSM_MAX_STATE_NEST_DEPTH in Hd. rewrite O1.
    destruct Hcd as [-> | ?]; lia. }
  destruct (state_exit_log g loc m1 Hd1 Hsub Hc1) as (cur & e & Ecur & Hexit & L).
  rewrite HT, Z.eqb_refl in Hexit.
  unfold fsmExecute.
  destruct (Z.eqb_spec FSM_CATCH_TRANSITION ev) as [E|_]; [congruence|].
  rewrite (bind_returned _ _ _ _ _ Hfind). rewrite Hres. cbn [result_eqb].
  unfold change_state, state_entry. rewrite (bind_returned _ _ _ _ _ Hexit).
  rewrite HT, Z.eqb_refl, Hres. cbn [negb].
  eexists. split; [reflexivity|]. cbn. rewrite <- O1.
  split; [reflexivity|]. split; [reflexivity|]. split; [|exact L].
  rewrite Ecur. reflexivity.
Qed.

Lemma parent_transition_pops_one_level_witness :
  exists m2,
    fsmExecute (Some g_chain) 7 m_chain = Returned eFSM_RESULT_NEW_STATE m2 /\
    iNestDepth (obj m2) = 1 /\
    iNestedStateIds (obj m2) = iNestedStateIds (obj m_chain) /\
    calls (env m2) = calls (env m_chain) ++ [CallExit 53%nat].
Proof.
  assert (Hd : depth_ok (obj m_chain)) by (vm_compute; split; discriminate).
  assert (Hf : find_transition g_chain 7 m_chain
               = Returned (Continue {| l_eResult := eFSM_RESULT_NEW_STATE;
                                       l_iNewStateId := FSM_ST_PARENT;
                                       l_bNewStateIsSubState := false;
                                       l_iStateChangeDepth := 2 |}) m_chain)
    by (vm_compute; reflexivity).
  destruct (parent_transition_pops_one_level _ _ g_chain 7 m_chain m_chain _
              ltac:(discriminate) Hd Hf eq_refl eq_refl eq_refl)
    as (m2 & H1 & H2 & H3 & _ & H5).
  exists m2. split; [exact H1|]. split; [rewrite H2; vm_compute; reflexivity|].
  split; [exact H3|]. rewrite H5. vm_compute. reflexivity.
Defined.

(** ** What the search hands to the state change *)

Section TargetFacts.
Context {World : Type} {app : Callbacks World}.

Lemma transition_loop_In ev : forall l (m : Machine World) t m',
  transition_loop ev l m = Returned (Some t) m' -> In t l /\ iEventId t = ev.
Proof.
  induction l as [|t0 l IH]; intros m t m' H; cbn [transition_loop] in H.
  - cbv [ret] in H. inversion H.
  - destruct (Z.eqb_spec (iEventId t0) ev) as [E|_].
    + apply bind_inv in H. destruct H as (pass & m1 & _ & H).
      destruct pass.
      * cbv [ret] in H. inversion H; subst. split; [left|]; reflexivity.
      * destruct (IH _ _ _ H). split; [right|]; assumption.
    + destruct (IH _ _ _ H). split; [right|]; assumption.
Qed.

Lemma run_matched_In s t (m : Machine World) r m' :
  run_matched s t m = Returned r m' -> In t (listTransitions s) ->
  forall t', snd r = Some t' -> In t' (listTransitions s).
Proof.
  intros H Hin t' Ht'. unfold run_matched in H.
  apply bind_inv in H. destruct H as (r0 & m1 & _ & H).
  destruct (result_eqb eFSM_RESULT_ACTION_FAILURE r0).
  - destruct (_fsmGetTransition (listTransitions s) FSM_CATCH_TRANSITION)
      as [[c rest]|] eqn:Ec.
    + apply bind_inv in H. destruct H as (r1 & m2 & _ & H).
      cbv [ret] in H. inversion H; subst. cbn in Ht'. inversion Ht'; subst.
      apply fsmGetTransition_event in Ec. tauto.
    + cbv [ret] in H. inversion H; subst. discriminate.
  - cbv [ret] in H. inversion H; subst. cbn in Ht'. inversion Ht'; subst. exact Hin.
Qed.

Lemma fsmExecuteState_target ev s out (m : Machine World) r m' :
  _fsmExecuteState ev s out m = Returned r m' -> state_outcome s out r.
Proof.
  intros H. unfold _fsmExecuteState in H.
  apply bind_inv in H. destruct H as (found & m1 & Hl & H).
  destruct found as [t|].
  - apply transition_loop_In in Hl. destruct Hl as [Hin _].
    apply bind_inv in H. destruct H as (r0 & m2 & Hr & H).
    pose proof (run_matched_In _ _ _ _ _ Hr Hin) as HIn.
    pose proof (run_matched_result _ _ _ _ _ Hr) as Hshape.
    assert (Hni : fst r0 <> eFSM_RESULT_INTERNAL_FAILURE).
    { destruct Hshape as [[E1 _]|(t2 & _ & [[E1 _]|[[E1 _]|E1]])];
        rewrite E1; discriminate. }
    unfold store_target in H.
    destruct (result_eqb eFSM_RESULT_NEW_STATE (fst r0)) eqn:Eq.
    + apply result_eqb_eq in Eq.
      destruct (snd r0) as [t'|] eqn:Et'; [|discriminate].
      cbv [ret] in H. inversion H; subst. split; [exact Hni|].
      cbn [fst snd]. right.
      split; [symmetry; exact Eq|]. exists t'. split; [apply HIn; reflexivity|].
      split; [reflexivity|].
      destruct Hshape as [[E1 _]|(t2 & E2 & Hs)]; [congruence|].
      assert (t2 = t') by congruence. subst t2.
      destruct Hs as [[E1 _]|[[_ N]|E1]]; [congruence | exact N | congruence].
    + cbv [ret] in H. inversion H; subst. split; [exact Hni|].
      cbn [fst snd]. left.
      split; [|reflexivity]. intros E. rewrite E in Eq. discriminate.
  - cbv [ret] in H. inversion H; subst. split; [discriminate|].
    cbn. left. split; [discriminate | reflexivity].
Qed.

Lemma after_state_target g loc s r :
  In s (listStates g) ->
  l_iNewStateId loc = -1 -> l_bNewStateIsSubState loc = false ->
  state_outcome s (l_iNewStateId loc, l_bNewStateIsSubState loc) r ->
  forall d, target_of g (at_depth (after_state loc r) d).
Proof.
  intros Hs Hid Hsub [Hni [[N E]|(E & t & Hin & Et & Hn)]] d;
    (split; [exact Hni|]); cbn.
  - left. rewrite E. cbn. auto.
  - right. split; [exact E|]. exists s, t. rewrite Et. cbn. auto.
Qed.

Lemma nest_loop_target g ev : forall n cnt loc (m : Machine World) loc' m',
  l_iNewStateId loc = -1 -> l_bNewStateIsSubState loc = false ->
  l_eResult loc = eFSM_RESULT_NO_TRANSITION ->
  nest_loop g ev n cnt loc m = Returned (Continue loc') m' ->
  target_of g loc'.
Proof.
  induction n as [|n IH]; intros cnt loc m loc' m' Hid Hsub Hres H;
    cbn [nest_loop] in H.
  - cbv [ret] in H. inversion H; subst.
    split; [|left]; rewrite Hres; repeat split; auto; discriminate.
  - apply bind_inv in H. destruct H as (id & m1 & _ & H).
    destruct (_fsmGetState (listStates g) id) as [s|] eqn:Es;
      [|cbv [ret] in H; inversion H].
    apply fsmGetState_some in Es. destruct Es as [Hs _].
    apply bind_inv in H. destruct H as (r & m2 & Hr & H).
    apply fsmExecuteState_target in Hr.
    destruct (result_eqb eFSM_RESULT_NO_TRANSITION (fst r)) eqn:Eq.
    + apply result_eqb_eq in Eq.
      destruct Hr as [_ [[_ E]|[E _]]]; [|congruence].
      refine (IH _ _ _ _ _ _ _ _ H); cbn; rewrite ?E; cbn; auto.
    + cbv [ret] in H. inversion H; subst.
      apply (after_state_target g loc s r Hs Hid Hsub Hr).
Qed.

Lemma find_transition_target g ev (m : Machine World) loc m' :
  find_transition g ev m = Returned (Continue loc) m' -> target_of g loc.
Proof.
  intros H. unfold find_transition in H.
  apply bind_inv in H. destruct H as (d & m0 & _ & H).
  apply bind_inv in H. destruct H as (x & m1 & Hn & H).
  destruct x as [r|loc0]; [cbv [ret] in H; inversion H|].
  apply nest_loop_target in Hn; [|reflexivity|reflexivity|reflexivity].
  apply bind_inv in H. destruct H as (loc1 & m2 & Ha & H).
  cbv [ret] in H. inversion H; subst. clear H.
  unfold any_state_fallback in Ha.
  destruct (result_eqb eFSM_RESULT_NO_TRANSITION (l_eResult loc0)) eqn:Eq;
    [|cbv [ret] in Ha; inversion Ha; subst; exact Hn].
  apply result_eqb_eq in Eq.
  destruct (_fsmGetState (listStates g) FSM_ST_ANY) as [s|] eqn:Es;
    [|cbv [ret] in Ha; inversion Ha; subst; exact Hn].
  apply fsmGetState_some in Es. destruct Es as [Hs _].
  apply bind_inv in Ha. destruct Ha as (r & m3 & Hr & Ha).
  cbv [ret] in Ha. inversion Ha; subst.
  destruct Hn as [_ [(_ & Hid & Hsub)|[E _]]]; [|congruence].
  apply fsmExecuteState_target in Hr.
  exact (after_state_target g loc0 s r Hs Hid Hsub Hr (l_iStateChangeDepth loc0)).
Qed.

End TargetFacts.

(** ** The entry loop, read backwards from its result *)

Section EntryFacts.
Context {World : Type} {app : Callbacks World}.

Lemma nest_set_inv (a a' : NestedStateIds) k v :
  nest_set a k v = Some a' ->
  0 <= k <= 3 /\ nest_get a' k = Some v /\
  forall i, i <> k -> nest_get a' i = nest_get a i.
Proof.
  intros H. assert (R : 0 <= k <= 3).
  { unfold nest_set in H.
    destruct (Z.eqb_spec k 0); [lia|]. destruct (Z.eqb_spec k 1); [lia|].
    destruct (Z.eqb_spec k 2); [lia|]. destruct (Z.eqb_spec k 3); [lia|].
    discriminate. }
  split; [exact R|].
  destruct (nest_set_in_range a k v R) as (a2 & E & G & K).
  rewrite E in H. inversion H; subst. auto.
Qed.

Lemma entry_loop_write_fails g fuel id (m : Machine World) :
  nest_set (iNestedStateIds (obj m)) (iNestDepth (obj m)) id = None ->
  entry_loop g (S fuel) id m = Aborted (OutOfBounds (iNestDepth (obj m))) m.
Proof.
  intros H. cbn [entry_loop]. cbv [bind get_depth write_nested].
  rewrite H. reflexivity.
Qed.

Lemma descends_true s :
  bComplex s && negb (FSM_ST_SAME =? iInitialSubStateId s) = true ->
  bComplex s = true /\ iInitialSubStateId s <> FSM_ST_SAME.
Proof.
  intros H. apply andb_prop in H. destruct H as [H1 H2]. split; [exact H1|].
  apply negb_true_iff in H2. apply Z.eqb_neq in H2. congruence.
Qed.

(** A returning entry loop: the depth only grows and stays in the array;
    the slot at the starting depth holds the id entered; every slot above
    it, up to the final depth, holds the initial substate of the complex
    state one level below; the other slots and the previous-state id are
    untouched; the loop ends in a state that does not descend, in an id
    that names no state, or with the internal failure at the last index. *)
Lemma entry_loop_inv g : forall fuel id (m : Machine World) x m',
  entry_loop g fuel id m = Returned x m' ->
  (0 <= iNestDepth (obj m) /\ iNestDepth (obj m) <= iNestDepth (obj m') <= 3) /\
  iPreviousStateId (obj m') = iPreviousStateId (obj m) /\
  nest_get (iNestedStateIds (obj m')) (iNestDepth (obj m)) = Some id /\
  (forall i, i < iNestDepth (obj m) \/ iNestDepth (obj m') < i ->
     nest_get (iNestedStateIds (obj m')) i = nest_get (iNestedStateIds (obj m)) i) /\
  (forall i, iNestDepth (obj m) < i <= iNestDepth (obj m') ->
     exists p s, nest_get (iNestedStateIds (obj m')) (i - 1) = Some p /\
       _fsmGetState (listStates g) p = Some s /\ bComplex s = true /\
       iInitialSubStateId s <> FSM_ST_SAME /\
       nest_get (iNestedStateIds (obj m')) i = Some (iInitialSubStateId s)) /\
  exists last,
    nest_get (iNestedStateIds (obj m')) (iNestDepth (obj m')) = Some last /\
    match x with
    | Return r =>
        r = eFSM_RESULT_INTERNAL_FAILURE /\ iNestDepth (obj m') = 3 /\
        exists s, _fsmGetState (listStates g) last = Some s /\ bComplex s = true /\
                  iInitialSubStateId s <> FSM_ST_SAME
    | Continue _ =>
        match _fsmGetState (listStates g) last with
        | Some s => bComplex s && negb (FSM_ST_SAME =? iInitialSubStateId s) = false
        | None => True
        end
    end.
Proof.
  induction fuel as [|fuel IH]; intros id m x m' H; [discriminate|].
  destruct (nest_set (iNestedStateIds (obj m)) (iNestDepth (obj m)) id) as [a|] eqn:Ea;
    [|rewrite (entry_loop_write_fails _ _ _ _ Ea) in H; discriminate].
  destruct (nest_set_inv _ _ _ _ Ea) as (R & G & K).
  destruct (_fsmGetState (listStates g) id) as [s|] eqn:Es.
  - destruct (entry_loop_known g fuel id s m a Es Ea) as (w & Ee).
    cbv zeta in Ee. rewrite Ee in H. clear Ee.
    destruct (bComplex s && negb (FSM_ST_SAME =? iInitialSubStateId s)) eqn:Ec.
    + destruct (descends_true _ Ec) as [Hc1 Hc2].
      destruct (iNestDepth (obj m) >=? FSM_MAX_STATE_NEST_DEPTH - 1) eqn:Ed.
      * rewrite Z.geb_leb in Ed. apply Z.leb_le in Ed.
        unfold FSM_MAX_STATE_NEST_DEPTH in Ed.
        inversion H; subst x m'. cbn [obj iNestDepth iNestedStateIds iPreviousStateId].
        split; [lia|]. split; [reflexivity|]. split; [exact G|].
        split; [intros i Hi; apply K; lia|]. split; [intros i Hi; lia|].
        exists id. split; [exact G|]. split; [reflexivity|]. split; [lia|].
        exists s. auto.
      * rewrite Z.geb_leb in Ed. apply Z.leb_gt in Ed.
        unfold FSM_MAX_STATE_NEST_DEPTH in Ed.
        apply IH in H. cbn [obj iNestDepth iNestedStateIds iPreviousStateId env] in H.
        destruct H as ((H0 & H1) & Hp & Hg & Hk & Hch & last & Hl & Hx).
        assert (Hd : nest_get (iNestedStateIds (obj m')) (iNestDepth (obj m)) = Some id).
        { rewrite Hk by lia. exact G. }
        split; [lia|]. split; [exact Hp|]. split; [exact Hd|].
        split; [intros i Hi; rewrite Hk by lia; apply K; lia|].
        split.
        { intros i Hi. destruct (Z.eq_dec i (iNestDepth (obj m) + 1)) as [->|N].
          - exists id, s.
            replace (iNestDepth (obj m) + 1 - 1) with (iNestDepth (obj m)) by lia.
            auto.
          - apply Hch. lia. }
        exists last. auto.
    + inversion H; subst x m'. cbn [obj iNestDepth iNestedStateIds iPreviousStateId].
      split; [lia|]. split; [reflexivity|]. split; [exact G|].
      split; [intros i Hi; apply K; lia|]. split; [intros i Hi; lia|].
      exists id. split; [exact G|]. rewrite Es. exact Ec.
  - rewrite (entry_loop_unknown g fuel id m a Es Ea) in H.
    inversion H; subst x m'. cbn [obj iNestDepth iNestedStateIds iPreviousStateId].
    split; [lia|]. split; [reflexivity|]. split; [exact G|].
    split; [intros i Hi; apply K; lia|]. split; [intros i Hi; lia|].
    exists id. split; [exact G|]. rewrite Es. exact I.
Qed.

(** With the depth inside the array and one unit of fuel per index left,
    the entry loop returns. *)
Lemma entry_loop_returns g : forall fuel id (m : Machine World),
  0 <= iNestDepth (obj m) <= 3 -> 4 - iNestDepth (obj m) <= Z.of_nat fuel ->
  exists x m', entry_loop g fuel id m = Returned x m'.
Proof.
  induction fuel as [|fuel IH]; intros id m R F; [lia|].
  destruct (nest_set_in_range (iNestedStateIds (obj m)) (iNestDepth (obj m)) id R)
    as (a & Ea & _).
  destruct (_fsmGetState (listStates g) id) as [s|] eqn:Es.
  - destruct (entry_loop_known g fuel id s m a Es Ea) as (w & Ee).
    cbv zeta in Ee. rewrite Ee. clear Ee.
    destruct (bComplex s && negb (FSM_ST_SAME =? iInitialSubStateId s));
      [|eexists; eexists; reflexivity].
    destruct (iNestDepth (obj m) >=? FSM_MAX_STATE_NEST_DEPTH - 1) eqn:Ed;
      [eexists; eexists; reflexivity|].
    rewrite Z.geb_leb in Ed. apply Z.leb_gt in Ed.
    unfold FSM_MAX_STATE_NEST_DEPTH in Ed.
    apply IH; cbn [obj iNestDepth]; lia.
  - rewrite (entry_loop_unknown g fuel id m a Es Ea). eexists; eexists; reflexivity.
Qed.

End EntryFacts.

(** ** Which callbacks each phase can log *)

Create HintDb fsm_logs.

Section LogFacts.
Context {World : Type} {app : Callbacks World}.

Lemma logs_ret {A : Type} P (a : A) : logs_only (World := World) P (ret a).
Proof.
  intros m b m' H. cbv [ret] in H. inversion H; subst.
  exists []. rewrite app_nil_r. auto.
Qed.

Lemma logs_bind {A B : Type} P (c : M World A) (k : A -> M World B) :
  logs_only P c -> (forall a, logs_only P (k a)) -> logs_only P (bind c k).
Proof.
  intros Hc Hk m b m' H. apply bind_inv in H. destruct H as (a & m1 & H1 & H2).
  destruct (Hc _ _ _ H1) as (xs & E1 & F1). destruct (Hk a _ _ _ H2) as (ys & E2 & F2).
  exists (xs ++ ys). rewrite E2, E1, app_assoc. split; [reflexivity|].
  apply Forall_app. auto.
Qed.

Lemma logs_quiet {A : Type} P (c : M World A) :
  (forall m a m', c m = Returned a m' -> env m' = env m) -> logs_only P c.
Proof.
  intros Hq m a m' H. rewrite (Hq _ _ _ H). exists []. rewrite app_nil_r. auto.
Qed.

Lemma logs_abort {A : Type} P why : logs_only (World := World) (A := A) P (abort why).
Proof. intros m a m' H. discriminate. Qed.

Lemma logs_get_depth P : logs_only (World := World) P get_depth.
Proof. apply logs_quiet. intros m a m' H. inversion H; reflexivity. Qed.

Lemma logs_set_depth P d : logs_only (World := World) P (set_depth d).
Proof. apply logs_quiet. intros m a m' H. inversion H; reflexivity. Qed.

Lemma logs_set_previous P id : logs_only (World := World) P (set_previous id).
Proof. apply logs_quiet. intros m a m' H. inversion H; reflexivity. Qed.

Lemma logs_read_nested P i : logs_only (World := World) P (read_nested i).
Proof.
  apply logs_quiet. intros m a m' H. apply read_nested_inv in H.
  destruct H as [-> _]. reflexivity.
Qed.

Lemma logs_write_nested P i id : logs_only (World := World) P (write_nested i id).
Proof.
  apply logs_quiet. intros m a m' H. unfold write_nested in H.
  destruct (nest_set (iNestedStateIds (obj m)) i id); inversion H; reflexivity.
Qed.

Lemma logs_invoke_condition f : logs_only is_condition_call (invoke_condition f).
Proof.
  intros m a m' H. inversion H; subst. cbn. eexists. split; [reflexivity|].
  constructor; [|constructor]. exists f. reflexivity.
Qed.

Lemma logs_invoke_action f : logs_only is_action_call (invoke_action f).
Proof.
  intros m a m' H. inversion H; subst. cbn. eexists. split; [reflexivity|].
  constructor; [|constructor]. exists f. reflexivity.
Qed.

Lemma logs_invoke_exit f : logs_only is_exit_call (invoke_exit f).
Proof.
  intros m a m' H. inversion H; subst. cbn. eexists. split; [reflexivity|].
  constructor; [|constructor]. exists f. reflexivity.
Qed.

Lemma logs_invoke_entry f : logs_only is_entry_call (invoke_entry f).
Proof.
  intros m a m' H. inversion H; subst. cbn. eexists. split; [reflexivity|].
  constructor; [|constructor]. exists f. reflexivity.
Qed.

#[local] Hint Resolve logs_ret logs_abort logs_get_depth logs_set_depth
  logs_set_previous logs_read_nested logs_write_nested logs_invoke_condition
  logs_invoke_action logs_invoke_exit logs_invoke_entry : fsm_logs.

Ltac logs_step :=
  repeat first
    [ solve [auto with fsm_logs]
    | apply logs_bind; [|intros ?]
    | match goal with
      | |- logs_only _ (if ?b then _ else _) => destruct b
      | |- logs_only _ (match ?x with Some _ => _ | None => _ end) => destruct x
      | |- logs_only _ (match ?x with Return _ => _ | Continue _ => _ end) => destruct x
      | |- logs_only _ (let (_, _) := ?x in _) => destruct x
      end ].

Lemma logs_condition_loop l : logs_only is_condition_call (condition_loop l).
Proof.
  induction l as [|[f|] l IH]; cbn [condition_loop]; logs_step.
Qed.

Lemma logs_action_loop ev l : logs_only is_action_call (action_loop ev l).
Proof.
  induction l as [|[f|] l IH]; cbn [action_loop]; logs_step.
Qed.

#[local] Hint Resolve logs_condition_loop logs_action_loop : fsm_logs.

Lemma logs_fsmExecuteTransition t : logs_only is_action_call (_fsmExecuteTransition t).
Proof. unfold _fsmExecuteTransition. logs_step. Qed.

#[local] Hint Resolve logs_fsmExecuteTransition : fsm_logs.

Lemma logs_transition_loop ev l : logs_only is_condition_call (transition_loop ev l).
Proof.
  induction l as [|t l IH]; cbn [transition_loop]; logs_step.
Qed.

Lemma logs_run_matched s t : logs_only is_action_call (run_matched s t).
Proof. unfold run_matched. logs_step. Qed.

Lemma logs_store_target out r :
  logs_only (World := World) is_action_call (store_target out r).
Proof. unfold store_target. logs_step. Qed.

(** [_fsmExecuteState] evaluates conditions, then runs actions, and runs
    no action when it reports that there is no transition. *)
Lemma fsmExecuteState_log ev s out (m : Machine World) r m' :
  _fsmExecuteState ev s out m = Returned r m' ->
  exists cs acts,
    calls (env m') = calls (env m) ++ cs ++ acts /\
    Forall is_condition_call cs /\ Forall is_action_call acts /\
    (fst r = eFSM_RESULT_NO_TRANSITION -> acts = []).
Proof.
  intros H. unfold _fsmExecuteState in H.
  apply bind_inv in H. destruct H as (found & m1 & Hl & H).
  destruct (logs_transition_loop _ _ _ _ _ Hl) as (cs & Ec & Fc).
  destruct found as [t|].
  - apply bind_inv in H. destruct H as (r0 & m2 & Hr & H).
    destruct (logs_run_matched _ _ _ _ _ Hr) as (a1 & E1 & F1).
    destruct (logs_store_target _ _ _ _ _ H) as (a2 & E2 & F2).
    exists cs, (a1 ++ a2). rewrite E2, E1, Ec, <- !app_assoc.
    split; [reflexivity|]. split; [exact Fc|]. split; [apply Forall_app; auto|].
    intros E. exfalso.
    pose proof (run_matched_result _ _ _ _ _ Hr) as Hshape.
    unfold store_target in H.
    destruct (result_eqb eFSM_RESULT_NEW_STATE (fst r0));
      [destruct (snd r0); [|discriminate]|];
      cbv [ret] in H; inversion H; subst; cbn [fst] in E;
      destruct Hshape as [[E0 _]|(t2 & _ & [[E0 _]|[[E0 _]|E0]])]; congruence.
  - cbv [ret] in H. inversion H; subst. exists cs, [].
    rewrite app_nil_r. auto.
Qed.

Lemma nest_loop_log g ev : forall n cnt loc (m : Machine World) x m',
  nest_loop g ev n cnt loc m = Returned x m' ->
  exists cs acts,
    calls (env m') = calls (env m) ++ cs ++ acts /\
    Forall is_condition_call cs /\ Forall is_action_call acts /\
    match x with
    | Return _ => acts = []
    | Continue loc' => l_eResult loc' = eFSM_RESULT_NO_TRANSITION -> acts = []
    end.
Proof.
  induction n as [|n IH]; intros cnt loc m x m' H; cbn [nest_loop] in H.
  - cbv [ret] in H. inversion H; subst. exists [], []. rewrite app_nil_r. auto.
  - apply bind_inv in H. destruct H as (id & m1 & Hr & H).
    apply read_nested_inv in Hr. destruct Hr as [-> _].
    destruct (_fsmGetState (listStates g) id) as [s|].
    + apply bind_inv in H. destruct H as (r & m2 & Hs & H).
      destruct (fsmExecuteState_log _ _ _ _ _ _ Hs) as (c1 & a1 & E1 & Fc1 & Fa1 & Q1).
      destruct (result_eqb eFSM_RESULT_NO_TRANSITION (fst r)) eqn:Eq.
      * apply result_eqb_eq in Eq. rewrite (Q1 (eq_sym Eq)), app_nil_r in E1.
        destruct (IH _ _ _ _ _ H) as (c2 & a2 & E2 & Fc2 & Fa2 & Q2).
        exists (c1 ++ c2), a2. rewrite E2, E1, <- !app_assoc.
        split; [reflexivity|]. split; [apply Forall_app; auto|]. auto.
      * cbv [ret] in H. inversion H; subst. exists c1, a1.
        split; [exact E1|]. split; [exact Fc1|]. split; [exact Fa1|].
        cbn. intros E. rewrite E in Eq. discriminate.
    + cbv [ret] in H. inversion H; subst. exists [], []. rewrite app_nil_r. auto.
Qed.

(** The search evaluates conditions, then runs actions, and runs no action
    when it finds no transition. *)
Lemma find_transition_log g ev (m : Machine World) x m' :
  find_transition g ev m = Returned x m' ->
  exists cs acts,
    calls (env m') = calls (env m) ++ cs ++ acts /\
    Forall is_condition_call cs /\ Forall is_action_call acts /\
    match x with
    | Return _ => acts = []
    | Continue loc => l_eResult loc = eFSM_RESULT_NO_TRANSITION -> acts = []
    end.
Proof.
  intros H. unfold find_transition in H.
  apply bind_inv in H. destruct H as (d & m0 & Hg & H).
  inversion Hg; subst m0. clear Hg.
  apply bind_inv in H. destruct H as (x0 & m1 & Hn & H).
  destruct (nest_loop_log _ _ _ _ _ _ _ _ Hn) as (c1 & a1 & E1 & Fc1 & Fa1 & Q1).
  destruct x0 as [r|loc0].
  - cbv [ret] in H. inversion H; subst. exists c1, []. auto.
  - apply bind_inv in H. destruct H as (loc1 & m2 & Ha & H).
    cbv [ret] in H. inversion H; subst. clear H.
    unfold any_state_fallback in Ha.
    destruct (result_eqb eFSM_RESULT_NO_TRANSITION (l_eResult loc0)) eqn:Eq;
      [|cbv [ret] in Ha; inversion Ha; subst; exists c1, a1; auto].
    apply result_eqb_eq in Eq. rewrite (Q1 (eq_sym Eq)), app_nil_r in E1.
    destruct (_fsmGetState (listStates g) FSM_ST_ANY) as [s|].
    + apply bind_inv in Ha. destruct Ha as (r & m3 & Hs & Ha).
      cbv [ret] in Ha. inversion Ha; subst.
      destruct (fsmExecuteState_log _ _ _ _ _ _ Hs) as (c2 & a2 & E2 & Fc2 & Fa2 & Q2).
      exists (c1 ++ c2), a2. rewrite E2, E1, <- !app_assoc.
      split; [reflexivity|]. split; [apply Forall_app; auto|]. auto.
    + cbv [ret] in Ha. inversion Ha; subst. exists c1, [].
      rewrite app_nil_r. auto.
Qed.

Lemma logs_exit_loop g : forall n cnt, logs_only is_exit_call (exit_loop g n cnt).
Proof.
  induction n as [|n IH]; intros cnt; cbn [exit_loop]; logs_step.
Qed.

#[local] Hint Resolve logs_exit_loop : fsm_logs.

Lemma logs_state_exit g loc : logs_only is_exit_call (state_exit g loc).
Proof. unfold state_exit. logs_step. Qed.

Lemma logs_entry_loop g : forall fuel id, logs_only is_entry_call (entry_loop g fuel id).
Proof.
  induction fuel as [|fuel IH]; intros id; cbn [entry_loop]; logs_step.
Qed.

#[local] Hint Resolve logs_entry_loop : fsm_logs.

Lemma logs_state_entry g loc : logs_only is_entry_call (state_entry g loc).
Proof. unfold state_entry. logs_step. Qed.

End LogFacts.

(** ** The exit block writes no slot *)

Create HintDb fsm_keeps.

Section StackFacts.
Context {World : Type} {app : Callbacks World}.

Lemma keeps_ret {A : Type} (a : A) : keeps_stack (World := World) (ret a).
Proof. intros m b m' H. cbv [ret] in H. inversion H; reflexivity. Qed.

Lemma keeps_bind {A B : Type} (c : M World A) (k : A -> M World B) :
  keeps_stack c -> (forall a, keeps_stack (k a)) -> keeps_stack (bind c k).
Proof.
  intros Hc Hk m b m' H. apply bind_inv in H. destruct H as (a & m1 & H1 & H2).
  rewrite (Hk a _ _ _ H2). exact (Hc _ _ _ H1).
Qed.

Lemma keeps_get_depth : keeps_stack (World := World) get_depth.
Proof. intros m a m' H. inversion H; reflexivity. Qed.

Lemma keeps_set_depth d : keeps_stack (World := World) (set_depth d).
Proof. intros m a m' H. inversion H; reflexivity. Qed.

Lemma keeps_set_previous id : keeps_stack (World := World) (set_previous id).
Proof. intros m a m' H. inversion H; reflexivity. Qed.

Lemma keeps_read_nested i : keeps_stack (World := World) (read_nested i).
Proof.
  intros m a m' H. apply read_nested_inv in H. destruct H as [-> _]. reflexivity.
Qed.

Lemma keeps_invoke_exit f : keeps_stack (invoke_exit f).
Proof. intros m a m' H. inversion H; reflexivity. Qed.

#[local] Hint Resolve keeps_ret keeps_get_depth keeps_set_depth keeps_set_previous
  keeps_read_nested keeps_invoke_exit : fsm_keeps.

Ltac keeps_step :=
  repeat first
    [ solve [auto with fsm_keeps]
    | apply keeps_bind; [|intros ?]
    | match goal with
      | |- keeps_stack (if ?b then _ else _) => destruct b
      | |- keeps_stack (match ?x with Some _ => _ | None => _ end) => destruct x
      end ].

Lemma keeps_exit_loop g : forall n cnt, keeps_stack (exit_loop g n cnt).
Proof.
  induction n as [|n IH]; intros cnt; cbn [exit_loop]; keeps_step.
Qed.

#[local] Hint Resolve keeps_exit_loop : fsm_keeps.

Lemma keeps_state_exit g loc : keeps_stack (state_exit g loc).
Proof. unfold state_exit. keeps_step. Qed.

End StackFacts.

(** ** Sub-state transitions *)

(** X14.  A matched sub-state transition at nest depth 0, 1 or 2 whose
    target is a state of the graph that does not descend: the call returns
    "new state"; no exit callback runs; the target is pushed one level
    above the innermost state, whatever the depth of the match; the entry
    callback of the target is the only callback after the search;
    [fsmGetPreviousState] is the state that was innermost before, and
    every other slot, so [fsmGetCurrentTopLevelState] too, is unchanged. *)
Theorem sub_transition_pushes_on_innermost :
  forall (World : Type) (app : Callbacks World) (g : FSM_CB) (ev : Z)
         (m m1 : Machine World) (loc : Locals) (T : Z) (sT : FSM_STATE),
    ev <> FSM_CATCH_TRANSITION -> 0 <= iNestDepth (obj m) <= 2 ->
    find_transition g ev m = Returned (Continue loc) m1 ->
    l_eResult loc = eFSM_RESULT_NEW_STATE ->
    l_iNewStateId loc = T ->
    l_bNewStateIsSubState loc = true ->
    T <> FSM_ST_PARENT ->
    _fsmGetState (listStates g) T = Some sT ->
    bComplex sT && negb (FSM_ST_SAME =? iInitialSubStateId sT) = false ->
    exists m2,
      fsmExecute (Some g) ev m = Returned eFSM_RESULT_NEW_STATE m2 /\
      iNestDepth (obj m2) = iNestDepth (obj m) + 1 /\
      fsmGetCurrentState (Some (obj m2)) = Some T /\
      Some (fsmGetPreviousState (Some (obj m2))) = fsmGetCurrentState (Some (obj m)) /\
      (forall i, i <> iNestDepth (obj m) + 1 ->
         nest_get (iNestedStateIds (obj m2)) i = nest_get (iNestedStateIds (obj m)) i) /\
      fsmGetCurrentTopLevelState (Some (obj m2))
        = fsmGetCurrentTopLevelState (Some (obj m)) /\
      calls (env m2) = calls (env m1) ++ entry_calls sT.
Proof.
  intros World app g ev m m1 loc T sT Hev Hd Hfind Hres HT Hsub HnP HsT Hflat.
  destruct (find_transition_keeps _ _ _ _ _ Hfind) as [O1 _].
  assert (Hd1 : 0 <= iNestDepth (obj m1) <= 3) by (rewrite O1; lia).
  assert (EP : (FSM_ST_PARENT =? T) = false) by (apply Z.eqb_neq; congruence).
  destruct (state_exit_sub g loc m1 Hd1 Hsub) as (cur & Ecur & Hexit).
  unfold fsmExecute.
  destruct (Z.eqb_spec FSM_CATCH_TRANSITION ev) as [E|_]; [congruence|].
  rewrite (bind_returned _ _ _ _ _ Hfind). rewrite Hres. cbn [result_eqb].
  unfold change_state, state_entry. rewrite (bind_returned _ _ _ _ _ Hexit).
  rewrite HT, EP, Hres. cbn [negb].
  change (Z.to_nat FSM_MAX_STATE_NEST_DEPTH) with 4%nat.
  destruct (nest_set_in_range (iNestedStateIds (obj m1)) (iNestDepth (obj m1) + 1) T
              ltac:(rewrite O1; lia)) as (a & Ea & Ga & Ka).
  match goal with
  | |- context [bind (entry_loop g ?n T) _ ?mm] =>
      destruct (entry_loop_known g 3 T sT mm a HsT Ea) as (w & Ee)
  end.
  cbv zeta in Ee. rewrite Hflat in Ee.
  rewrite (bind_returned _ _ _ _ _ Ee).
  eexists. split; [reflexivity|]. cbn. rewrite <- O1.
  split; [reflexivity|]. split; [exact Ga|]. split; [rewrite Ecur; reflexivity|].
  split; [exact Ka|]. split; [|reflexivity].
  pose proof (Ka 0 ltac:(lia)) as K0. cbn in K0. congruence.
Qed.

Lemma sub_transition_pushes_on_innermost_witness :
  exists m2,
    fsmExecute (Some g_nesting) 1 (started 0 []) = Returned eFSM_RESULT_NEW_STATE m2 /\
    iNestDepth (obj m2) = 1 /\
    fsmGetCurrentState (Some (obj m2)) = Some 1 /\
    fsmGetCurrentTopLevelState (Some (obj m2)) = 0 /\
    calls (env m2) = [].
Proof.
  assert (Hf : find_transition g_nesting 1 (started 0 [])
               = Returned (Continue {| l_eResult := eFSM_RESULT_NEW_STATE;
                                       l_iNewStateId := 1;
                                       l_bNewStateIsSubState := true;
                                       l_iStateChangeDepth := 0 |}) (started 0 []))
    by (vm_compute; reflexivity).
  assert (Hs : _fsmGetState (listStates g_nesting) 1
               = Some (simple_state 1 [simple_transition 2 FSM_ST_PARENT]))
    by (vm_compute; reflexivity).
  assert (Hd : 0 <= iNestDepth (obj (started 0 [])) <= 2)
    by (vm_compute; split; discriminate).
  destruct (sub_transition_pushes_on_innermost _ _ g_nesting 1 (started 0 [])
              (started 0 []) _ 1 _ ltac:(discriminate) Hd Hf eq_refl eq_refl eq_refl
              ltac:(discriminate) Hs eq_refl) as (m2 & H1 & H2 & H3 & _ & _ & H6 & H7).
  exists m2. split; [exact H1|]. split; [rewrite H2; reflexivity|].
  split; [exact H3|]. split; [rewrite H6; reflexivity|]. rewrite H7. reflexivity.
Defined.

(** X15.  A matched sub-state transition whose target is PARENT does not
    go back to the parent: the call returns "new state", no callback runs
    after the search, no slot is written and the depth grows by one, so the
    current state becomes whatever the next slot held.  From depth 3 the
    depth becomes 4, outside the array, without a failure being returned:
    [fsmGetCurrentState] then reads out of bounds. *)
Theorem sub_transition_to_parent_goes_deeper :
  forall (World : Type) (app : Callbacks World) (g : FSM_CB) (ev : Z)
         (m m1 : Machine World) (loc : Locals),
    ev <> FSM_CATCH_TRANSITION -> depth_ok (obj m) ->
    find_transition g ev m = Returned (Continue loc) m1 ->
    l_eResult loc = eFSM_RESULT_NEW_STATE ->
    l_iNewStateId loc = FSM_ST_PARENT ->
    l_bNewStateIsSubState loc = true ->
    exists m2,
      fsmExecute (Some g) ev m = Returned eFSM_RESULT_NEW_STATE m2 /\
      iNestDepth (obj m2) = iNestDepth (obj m) + 1 /\
      iNestedStateIds (obj m2) = iNestedStateIds (obj m) /\
      Some (fsmGetPreviousState (Some (obj m2))) = fsmGetCurrentState (Some (obj m)) /\
      calls (env m2) = calls (env m1) /\
      fsmGetCurrentState (Some (obj m2))
        = nest_get (iNestedStateIds (obj m)) (iNestDepth (obj m) + 1) /\
      (iNestDepth (obj m) = 3 -> fsmGetCurrentState (Some (obj m2)) = None).
Proof.
  intros World app g ev m m1 loc Hev Hd Hfind Hres HT Hsub.
  destruct (find_transition_keeps _ _ _ _ _ Hfind) as [O1 _].
  unfold depth_ok, FSM_MAX_STATE_NEST_DEPTH in Hd.
  assert (Hd1 : 0 <= iNestDepth (obj m1) <= 3) by (rewrite O1; lia).
  destruct (state_exit_sub g loc m1 Hd1 Hsub) as (cur & Ecur & Hexit).
  unfold fsmExecute.
  destruct (Z.eqb_spec FSM_CATCH_TRANSITION ev) as [E|_]; [congruence|].
  rewrite (bind_returned _ _ _ _ _ Hfind). rewrite Hres. cbn [result_eqb].
  unfold change_state, state_entry. rewrite (bind_returned _ _ _ _ _ Hexit).
  rewrite HT, Z.eqb_refl, Hres. cbn [negb].
  eexists. split; [reflexivity|]. cbn. rewrite <- O1.
  split; [reflexivity|]. split; [reflexivity|]. split; [rewrite Ecur; reflexivity|].
  split; [reflexivity|]. split; [reflexivity|].
  intros E3. rewrite E3. reflexivity.
Qed.

Lemma sub_transition_to_parent_goes_deeper_witness :
  exists m2,
    fsmExecute (Some g_sub_parent) 1 (started 0 []) = Returned eFSM_RESULT_NEW_STATE m2 /\
    iNestDepth (obj m2) = 1 /\
    iNestedStateIds (obj m2) = iNestedStateIds (obj (started 0 [])) /\
    calls (env m2) = [].
Proof.
  assert (Hf : find_transition g_sub_parent 1 (started 0 [])
               = Returned (Continue {| l_eResult := eFSM_RESULT_NEW_STATE;
                                       l_iNewStateId := FSM_ST_PARENT;
                                       l_bNewStateIsSubState := true;
                                       l_iStateChangeDepth := 0 |}) (started 0 []))
    by (vm_compute; reflexivity).
  assert (Hd : depth_ok (obj (started 0 []))) by (vm_compute; split; discriminate).
  destruct (sub_transition_to_parent_goes_deeper _ _ g_sub_parent 1 (started 0 [])
              (started 0 []) _ ltac:(discriminate) Hd Hf eq_refl eq_refl eq_refl)
    as (m2 & H1 & H2 & H3 & _ & H5 & _).
  exists m2. split; [exact H1|]. split; [rewrite H2; reflexivity|].
  split; [exact H3|]. rewrite H5. reflexivity.
Defined.

(** ** Memory safety of [fsmExecute] *)

Section SafetyFacts.
Context {World : Type} {app : Callbacks World}.

Lemma nest_loop_returns g ev : forall n cnt loc (m : Machine World),
  0 <= cnt -> cnt + Z.of_nat n <= 4 ->
  exists x m', nest_loop g ev n cnt loc m = Returned x m'.
Proof.
  induction n as [|n IH]; intros cnt loc m H0 H4; cbn [nest_loop].
  - eexists; eexists; reflexivity.
  - destruct (nest_get_in_range (iNestedStateIds (obj m)) cnt ltac:(lia)) as (id & E).
    assert (Hr : read_nested cnt m = Returned id m)
      by (unfold read_nested; rewrite E; reflexivity).
    rewrite (bind_returned _ _ _ _ _ Hr).
    destruct (_fsmGetState (listStates g) id) as [s|];
      [|eexists; eexists; reflexivity].
    destruct (search_only_fsmExecuteState ev s
                (l_iNewStateId loc, l_bNewStateIsSubState loc) m) as (r & m1 & Hs & _).
    rewrite (bind_returned _ _ _ _ _ Hs).
    destruct (result_eqb eFSM_RESULT_NO_TRANSITION (fst r));
      [apply IH; lia | eexists; eexists; reflexivity].
Qed.

Lemma find_transition_returns g ev (m : Machine World) :
  depth_ok (obj m) -> exists x m', find_transition g ev m = Returned x m'.
Proof.
  intros Hd. unfold depth_ok, FSM_MAX_STATE_NEST_DEPTH in Hd. unfold find_transition.
  assert (Hg : get_depth m = Returned (iNestDepth (obj m)) m) by reflexivity.
  rewrite (bind_returned _ _ _ _ _ Hg).
  destruct (nest_loop_returns g ev (Z.to_nat (iNestDepth (obj m) + 1)) 0
              initial_locals m ltac:(lia) ltac:(lia)) as (x & m1 & Hn).
  rewrite (bind_returned _ _ _ _ _ Hn).
  destruct x as [r|loc]; [eexists; eexists; reflexivity|].
  unfold any_state_fallback.
  destruct (result_eqb eFSM_RESULT_NO_TRANSITION (l_eResult loc));
    [|eexists; eexists; reflexivity].
  destruct (_fsmGetState (listStates g) FSM_ST_ANY) as [s|];
    [|eexists; eexists; reflexivity].
  destruct (search_only_fsmExecuteState ev s
              (l_iNewStateId loc, l_bNewStateIsSubState loc) m1) as (r & m2 & Hs & _).
  unfold bind at 1. unfold bind at 1. rewrite Hs. eexists; eexists; reflexivity.
Qed.

Lemma state_entry_returns g loc (m : Machine World) :
  0 <= iNestDepth (obj m) <= 3 ->
  exists y m', state_entry g loc m = Returned y m' /\
               0 <= iNestDepth (obj m') <= 3.
Proof.
  intros R. unfold state_entry.
  destruct (negb (FSM_ST_PARENT =? l_iNewStateId loc)).
  - change (Z.to_nat FSM_MAX_STATE_NEST_DEPTH) with 4%nat.
    destruct (entry_loop_returns g 4 (l_iNewStateId loc) m R ltac:(lia))
      as (y & m' & He).
    exists y, m'. split; [exact He|].
    apply entry_loop_inv in He. lia.
  - exists (Continue tt), m. split; [reflexivity | exact R].
Qed.

(** The STATE EXIT block under the conditions the search establishes. *)
Lemma state_exit_returns g loc (m : Machine World) :
  depth_ok (obj m) ->
  0 <= l_iStateChangeDepth loc <= iNestDepth (obj m) ->
  (l_bNewStateIsSubState loc = true -> iNestDepth (obj m) <= 2) ->
  exists cur m',
    state_exit g loc m = Returned (Continue tt) m' /\
    0 <= iNestDepth (obj m') <= 3 /\
    nest_get (iNestedStateIds (obj m)) (iNestDepth (obj m)) = Some cur /\
    iPreviousStateId (obj m') = cur /\
    iNestedStateIds (obj m') = iNestedStateIds (obj m).
Proof.
  intros Hd Hc Hs. pose proof Hd as Hd'.
  unfold depth_ok, FSM_MAX_STATE_NEST_DEPTH in Hd'.
  destruct (l_bNewStateIsSubState loc) eqn:Esub.
  - destruct (state_exit_sub g loc m ltac:(lia) Esub) as (cur & Ecur & He).
    exists cur. eexists. split; [exact He|]. cbn.
    specialize (Hs eq_refl). repeat split; auto; lia.
  - destruct (state_exit_log g loc m Hd Esub Hc) as (cur & e & Ecur & He & _).
    exists cur. eexists. split; [exact He|]. cbn.
    split; [|auto].
    destruct (FSM_ST_PARENT =? l_iNewStateId loc); [|lia].
    unfold parent_depth.
    destruct (Z.gtb_spec (iNestDepth (obj m)) 0); cbv iota; lia.
Qed.

Lemma no_sub_target g loc :
  target_of g loc -> no_sub_transitions g -> l_bNewStateIsSubState loc = false.
Proof.
  intros [_ [(_ & _ & E)|(_ & s & t & Hs & Ht & _ & Eb & _)]] Hno; [exact E|].
  rewrite <- Eb. exact (Hno s t Hs Ht).
Qed.

Lemma fsmExecute_returns_in_bounds g ev (m : Machine World) :
  depth_ok (obj m) ->
  iNestDepth (obj m) <= 2 \/ no_sub_transitions g ->
  exists r m', fsmExecute (Some g) ev m = Returned r m' /\ depth_ok (obj m').
Proof.
  intros Hd Hsafe. unfold fsmExecute.
  destruct (FSM_CATCH_TRANSITION =? ev); [exists eFSM_RESULT_NO_TRANSITION, m; auto|].
  destruct (find_transition_returns g ev m Hd) as (x & m1 & Hf).
  rewrite (bind_returned _ _ _ _ _ Hf).
  destruct (find_transition_keeps _ _ _ _ _ Hf) as [O1 Hx].
  assert (Hd1 : depth_ok (obj m1)) by (rewrite O1; exact Hd).
  destruct x as [r|loc]; [exists r, m1; auto|].
  destruct (result_eqb eFSM_RESULT_NEW_STATE (l_eResult loc));
    [|exists (l_eResult loc), m1; auto].
  pose proof (find_transition_target _ _ _ _ _ Hf) as Ht.
  assert (Hc : 0 <= l_iStateChangeDepth loc <= iNestDepth (obj m1)).
  { unfold depth_ok, FSM_MAX_STATE_NEST_DEPTH in Hd. rewrite O1.
    destruct Hx as [-> | ?]; lia. }
  assert (Hs : l_bNewStateIsSubState loc = true -> iNestDepth (obj m1) <= 2).
  { intros E. rewrite O1. destruct Hsafe as [H2|Hno]; [exact H2|].
    rewrite (no_sub_target g loc Ht Hno) in E. discriminate. }
  destruct (state_exit_returns g loc m1 Hd1 Hc Hs) as (cur & m2 & He & R2 & _).
  unfold change_state. rewrite (bind_returned _ _ _ _ _ He).
  destruct (state_entry_returns g loc m2 R2) as (y & m3 & Hy & R3).
  rewrite (bind_returned _ _ _ _ _ Hy).
  unfold depth_ok, FSM_MAX_STATE_NEST_DEPTH.
  destruct y as [r|[]]; eexists; eexists; (split; [reflexivity | lia]).
Qed.

End SafetyFacts.

(** X16.  Memory safety.  From a record whose nest depth indexes the
    array, [fsmExecute] returns (no read or write outside
    [iNestedStateIds], no NULL dereference, the entry loop ends) and leaves
    the depth inside the array, provided the depth is at most 2 or the
    graph has no sub-state transition.  The record [fsmSetStartState]
    leaves has depth 0, and with a graph without sub-state transitions the
    condition holds again after every call. *)
Theorem fsmExecute_stays_inside_the_array :
  forall (World : Type) (app : Callbacks World) (g : FSM_CB) (ev : Z)
         (m : Machine World),
    depth_ok (obj m) ->
    iNestDepth (obj m) <= 2 \/ no_sub_transitions g ->
    exists r m', fsmExecute (Some g) ev m = Returned r m' /\ depth_ok (obj m').
Proof.
  intros World app g ev m. apply fsmExecute_returns_in_bounds.
Qed.

Lemma fsmExecute_stays_inside_the_array_witness :
  exists r m',
    fsmExecute (Some g_chain) 6 m_chain = Returned r m' /\ depth_ok (obj m').
Proof.
  assert (Hd : depth_ok (obj m_chain)) by (vm_compute; split; discriminate).
  assert (Hs : iNestDepth (obj m_chain) <= 2) by (vm_compute; discriminate).
  exact (fsmExecute_stays_inside_the_array _ _ g_chain 6 m_chain Hd (or_introl Hs)).
Defined.

(** ** What a call can do to the record and to the call log *)

Section ChangeShape.
Context {World : Type} {app : Callbacks World}.





End ChangeShape.

(** X17.  Whatever [fsmExecute] leaves in a slot of the stack is what the
    slot held before the call, or the target of a transition of the graph,
    or the initial substate id of a complex state of the graph. *)
Theorem stack_ids_come_from_the_graph :
  forall (World : Type) (app : Callbacks World) (g : FSM_CB) (ev : Z)
         (m m' : Machine World) (r : FSM_EXECUTION_RESULT),
    fsmExecute (Some g) ev m = Returned r m' ->
    forall i x,
      nest_get (iNestedStateIds (obj m')) i = Some x ->
      nest_get (iNestedStateIds (obj m)) i = Some x \/ graph_id g x.
Proof.
  intros World app g ev m m' r H i x Hx. unfold fsmExecute in H.
  destruct (FSM_CATCH_TRANSITION =? ev);
    [cbv [ret] in H; inversion H; subst; left; exact Hx|].
  apply bind_inv in H. destruct H as (x0 & m1 & Hf & H).
  destruct (find_transition_keeps _ _ _ _ _ Hf) as [O1 _].
  destruct x0 as [r0|loc];
    [cbv [ret] in H; inversion H; subst; left; rewrite <- O1; exact Hx|].
  destruct (result_eqb eFSM_RESULT_NEW_STATE (l_eResult loc)) eqn:Eq;
    [|cbv [ret] in H; inversion H; subst; left; rewrite <- O1; exact Hx].
  apply result_eqb_eq in Eq.
  destruct (find_transition_target _ _ _ _ _ Hf)
    as [_ [[N _]|(_ & s & t & Hs & Ht & Et & _)]]; [congruence|].
  unfold change_state in H.
  apply bind_inv in H. destruct H as (xe & m2 & He & H).
  pose proof (keeps_state_exit _ _ _ _ _ He) as K2. rewrite O1 in K2.
  destruct xe as [re|[]];
    [cbv [ret] in H; inversion H; subst; left; rewrite <- K2; exact Hx|].
  apply bind_inv in H. destruct H as (y & m3 & Hy & H).
  assert (m' = m3) by (destruct y; cbv [ret] in H; inversion H; reflexivity).
  subst m3. clear H. unfold state_entry in Hy.
  destruct (negb (FSM_ST_PARENT =? l_iNewStateId loc));
    [|cbv [ret] in Hy; inversion Hy; subst; left; rewrite <- K2; exact Hx].
  apply entry_loop_inv in Hy.
  destruct Hy as ((H0 & H1) & _ & Hg & Hk & Hch & _).
  destruct (Z.eq_dec i (iNestDepth (obj m2))) as [->|Ni].
  - right. left. exists s, t. rewrite Hg in Hx. inversion Hx; subst. auto.
  - destruct (Z_lt_le_dec i (iNestDepth (obj m2))) as [Lt|Ge].
    + left. rewrite <- K2, <- Hk by lia. exact Hx.
    + destruct (Z_lt_le_dec (iNestDepth (obj m')) i) as [Lt'|Le'].
      * left. rewrite <- K2, <- Hk by lia. exact Hx.
      * destruct (Hch i ltac:(lia)) as (p & s' & _ & Es' & Hc' & _ & Ei).
        right. right. exists s'. apply fsmGetState_some in Es'.
        rewrite Ei in Hx. inversion Hx; subst. tauto.
Qed.

Lemma stack_ids_come_from_the_graph_witness :
  nest_get (iNestedStateIds (obj (started 0 []))) 1 = Some 2 \/ graph_id g_chain 2.
Proof.
  assert (H : fsmExecute (Some g_chain) 1 (started 0 [])
              = Returned eFSM_RESULT_NEW_STATE m_chain) by (vm_compute; reflexivity).
  assert (Hx : nest_get (iNestedStateIds (obj m_chain)) 1 = Some 2)
    by (vm_compute; reflexivity).
  exact (stack_ids_come_from_the_graph _ _ g_chain 1 (started 0 []) m_chain _ H 1 2 Hx).
Defined.

(** X18.  The callbacks of one call run in four phases that never
    interleave: conditions, then actions, then exit callbacks, then entry
    callbacks.  A call that returns "no transition" has run conditions
    only, and a call that returns "no change" or "action failure" has run
    no exit and no entry callback. *)
Theorem callbacks_run_in_four_phases :
  forall (World : Type) (app : Callbacks World) (a_hFsm : option FSM_CB) (ev : Z)
         (m m' : Machine World) (r : FSM_EXECUTION_RESULT),
    fsmExecute a_hFsm ev m = Returned r m' ->
    exists cs acts exits entries,
      calls (env m') = calls (env m) ++ cs ++ acts ++ exits ++ entries /\
      Forall is_condition_call cs /\ Forall is_action_call acts /\
      Forall is_exit_call exits /\ Forall is_entry_call entries /\
      (r = eFSM_RESULT_NO_TRANSITION -> acts = []) /\
      (r <> eFSM_RESULT_NEW_STATE -> r <> eFSM_RESULT_INTERNAL_FAILURE ->
       exits = [] /\ entries = []).
Proof.
  intros World app a_hFsm ev m m' r H.
  unfold fsmExecute in H.
  destruct a_hFsm as [g|];
    [|cbv [ret] in H; inversion H; subst; exists [], [], [], [];
      rewrite app_nil_r; auto 10].
  destruct (FSM_CATCH_TRANSITION =? ev);
    [cbv [ret] in H; inversion H; subst; exists [], [], [], [];
     rewrite app_nil_r; auto 10|].
  apply bind_inv in H. destruct H as (x0 & m1 & Hf & H).
  destruct (find_transition_log _ _ _ _ _ Hf) as (cs & acts & E1 & Fc & Fa & Q).
  destruct x0 as [r0|loc].
  { cbv [ret] in H. inversion H; subst. exists cs, [], [], [].
    rewrite E1, !app_nil_r. auto 10. }
  destruct (result_eqb eFSM_RESULT_NEW_STATE (l_eResult loc)) eqn:Eq.
  - apply result_eqb_eq in Eq.
    pose proof (change_state_result _ _ _ _ _ H) as Hr. rewrite <- Eq in Hr.
    unfold change_state in H.
    apply bind_inv in H. destruct H as (xe & m2 & He & H).
    destruct (logs_state_exit _ _ _ _ _ He) as (exits & E2 & Fx).
    assert (Hne : (r = eFSM_RESULT_NO_TRANSITION -> acts = []) /\
                  (r <> eFSM_RESULT_NEW_STATE -> r <> eFSM_RESULT_INTERNAL_FAILURE ->
                   exits = [] /\ @nil Call = [])).
    { split; [destruct Hr; subst r; discriminate|].
      intros N1 N2. destruct Hr; contradiction. }
    destruct xe as [re|[]].
    + cbv [ret] in H. inversion H; subst. exists cs, acts, exits, [].
      rewrite E2, E1, app_nil_r, <- !app_assoc.
      split; [reflexivity|]. repeat (split; [assumption|]).
      split; [constructor | exact Hne].
    + apply bind_inv in H. destruct H as (y & m3 & Hy & H).
      destruct (logs_state_entry _ _ _ _ _ Hy) as (entries & E3 & Fe).
      assert (m' = m3) by (destruct y; cbv [ret] in H; inversion H; reflexivity).
      subst m3. exists cs, acts, exits, entries.
      rewrite E3, E2, E1, <- !app_assoc.
      split; [reflexivity|]. repeat (split; [assumption|]).
      split; [tauto|]. intros N1 N2. destruct Hr; contradiction.
  - cbv [ret] in H. inversion H; subst. exists cs, acts, [], [].
    rewrite E1, !app_nil_r. auto 10.
Qed.

Lemma callbacks_run_in_four_phases_witness :
  exists cs acts exits entries,
    calls (env m_chain) = calls (env (started 0 [])) ++ cs ++ acts ++ exits ++ entries /\
    Forall is_condition_call cs /\ Forall is_action_call acts /\
    Forall is_exit_call exits /\ Forall is_entry_call entries.
Proof.
  assert (H : fsmExecute (Some g_chain) 1 (started 0 [])
              = Returned eFSM_RESULT_NEW_STATE m_chain) by (vm_compute; reflexivity).
  destruct (callbacks_run_in_four_phases _ _ (Some g_chain) 1 (started 0 []) m_chain _ H)
    as (cs & acts & exits & entries & E & Fc & Fa & Fx & Fe & _).
  exists cs, acts, exits, entries. auto.
Defined.

(** ** The internal failure, and graphs that keep the stack on known states *)





(** ** Construction and destruction *)

Lemma fsmCreateObject_balance b :
  cb (snd (_fsmCreateObject b)) = cb b /\
  (allocations_left (heap (snd (_fsmCreateObject b)))
   + (if fst (_fsmCreateObject b) then 1 else 0)
   = allocations_left (heap b))%nat.
Proof.
  unfold _fsmCreateObject, allocations_left.
  destruct (heap b) as [|[|] rest] eqn:E; cbn; rewrite ?E; cbn; split; auto; lia.
Qed.

Lemma delete_transition_length t :
  length (delete_transition t)
  = S (length (listConditions t) + length (listActions t)).
Proof.
  unfold delete_transition. rewrite !length_app, !length_map. cbn [length]. lia.
Qed.

Lemma delete_state_length s :
  length (delete_state s) = S (length (flat_map delete_transition (listTransitions s))).
Proof. unfold delete_state. rewrite length_app. cbn [length]. lia. Qed.

Lemma destroy_states_app l s :
  length (flat_map delete_state (l ++ [s]))
  = (length (flat_map delete_state l) + length (delete_state s))%nat.
Proof. rewrite flat_map_app, length_app. cbn. rewrite app_nil_r. reflexivity. Qed.

Lemma delete_state_add_transition s t :
  length (delete_state (add_transition s t))
  = (length (delete_state s) + length (delete_transition t))%nat.
Proof.
  unfold delete_state, add_transition, _fsmAddObjectToList. cbn.
  rewrite flat_map_app, !length_app. cbn. rewrite app_nil_r. cbn. lia.
Qed.

Lemma destroy_states_update l f : forall h s,
  nth_error l h = Some s ->
  (length (flat_map delete_state (update_state l h f)) + length (delete_state s)
   = length (flat_map delete_state l) + length (delete_state (f s)))%nat.
Proof.
  induction l as [|s0 l IH]; intros [|h] s H; cbn in H; try discriminate.
  - inversion H; subst. cbn. rewrite !length_app. lia.
  - cbn. rewrite !length_app. specialize (IH h s H). lia.
Qed.

Lemma destroy_states_add_transition l h s t :
  nth_error l h = Some s ->
  length (flat_map delete_state (update_state l h (fun s0 => add_transition s0 t)))
  = (length (flat_map delete_state l) + length (delete_transition t))%nat.
Proof.
  intros H. pose proof (destroy_states_update l (fun s0 => add_transition s0 t) h s H) as E.
  cbv beta in E. rewrite delete_state_add_transition in E. lia.
Qed.

Lemma balance_set_create_error b : balance (set_create_error b) = balance b.
Proof. reflexivity. Qed.

Lemma delete_transition_add_action t f :
  length (delete_transition (add_action t f)) = S (length (delete_transition t)).
Proof.
  unfold delete_transition, add_action, _fsmAddObjectToList.
  cbn [listConditions listActions].
  rewrite !length_app, !length_map, !length_app. cbn [length]. lia.
Qed.

Lemma delete_transition_add_condition t f :
  length (delete_transition (add_condition t f)) = S (length (delete_transition t)).
Proof.
  unfold delete_transition, add_condition, _fsmAddObjectToList.
  cbn [listConditions listActions].
  rewrite !length_app, !length_map, !length_app. cbn [length]. lia.
Qed.

Lemma add_actions_balance : forall fns t b done t' b',
  add_actions fns t b = (done, t', b') ->
  listStates (cb b') = listStates (cb b) /\
  (length (delete_transition t') + allocations_left (heap b')
   = length (delete_transition t) + allocations_left (heap b))%nat.
Proof.
  induction fns as [|f fns IH]; intros t b done t' b'; cbn [add_actions].
  - intros H; inversion H; subst. auto.
  - destruct (fsmCreateObject_balance b) as [Hcb Hl].
    destruct (_fsmCreateObject b) as [ok b1]. cbn [fst snd] in Hcb, Hl. destruct ok.
    + intros H. apply IH in H. destruct H as [H1 H2]. rewrite Hcb in H1.
      split; [exact H1|]. rewrite H2, delete_transition_add_action. lia.
    + intros H; inversion H; subst. unfold set_create_error. cbn [heap cb listStates].
      rewrite Hcb. split; [reflexivity | lia].
Qed.

Lemma add_conditions_balance : forall fns t b t' b',
  add_conditions fns t b = Some (t', b') ->
  listStates (cb b') = listStates (cb b) /\
  bCreateError (cb b') = bCreateError (cb b) /\
  (length (delete_transition t') + allocations_left (heap b')
   = length (delete_transition t) + allocations_left (heap b))%nat.
Proof.
  induction fns as [|f fns IH]; intros t b t' b'; cbn [add_conditions].
  - intros H; inversion H; subst. auto.
  - destruct (fsmCreateObject_balance b) as [Hcb Hl].
    destruct (_fsmCreateObject b) as [ok b1]. cbn [fst snd] in Hcb, Hl.
    destruct ok; [|discriminate].
    intros H. apply IH in H. destruct H as (H1 & H2 & H3). rewrite Hcb in H1, H2.
    split; [exact H1|]. split; [exact H2|].
    rewrite H3, delete_transition_add_condition. lia.
Qed.

Lemma balance_states b l :
  balance (set_states b l)
  = (length (flat_map delete_state l) + 1 + allocations_left (heap b))%nat.
Proof.
  unfold balance, fsmDestroyFsm, set_states. cbn [cb heap listStates].
  rewrite length_app. cbn [length]. lia.
Qed.

Lemma balance_unfold b :
  balance b
  = (length (flat_map delete_state (listStates (cb b))) + 1
     + allocations_left (heap b))%nat.
Proof.
  unfold balance, fsmDestroyFsm, set_states. cbn [cb heap listStates].
  rewrite length_app. cbn [length]. lia.
Qed.

Lemma fsmCreateState_balance b id fpEntry fpExit :
  balance (snd (fsmCreateState b id fpEntry fpExit)) = balance b.
Proof.
  unfold fsmCreateState. destruct (0 >? id); [reflexivity|].
  destruct (_fsmGetState (listStates (cb b)) id); [reflexivity|].
  destruct (fsmCreateObject_balance b) as [Hcb Hl].
  destruct (_fsmCreateObject b) as [ok b1]. cbn [fst snd] in Hcb, Hl.
  destruct ok; cbn [snd].
  - rewrite balance_states, balance_unfold. unfold _fsmAddObjectToList.
    rewrite destroy_states_app, Hcb. cbn. lia.
  - rewrite balance_set_create_error, !balance_unfold, Hcb. lia.
Qed.

Lemma fsmCreateComplexState_balance b id init fpEntry fpExit :
  balance (snd (fsmCreateComplexState b id init fpEntry fpExit)) = balance b.
Proof.
  unfold fsmCreateComplexState.
  pose proof (fsmCreateState_balance b id fpEntry fpExit) as E.
  destruct (fsmCreateState b id fpEntry fpExit) as [[h|] b1] eqn:Ec;
    cbn [snd] in E |- *; [|exact E].
  rewrite <- E, balance_states, balance_unfold.
  destruct (nth_error (listStates (cb b1)) h) as [s|] eqn:En.
  - match goal with
    | |- context [update_state _ h ?f] =>
        pose proof (destroy_states_update (listStates (cb b1)) f h s En) as U
    end.
    cbv beta in U.
    rewrite !delete_state_length in U. cbn [listTransitions] in U. lia.
  - assert (U : forall l f h', nth_error l h' = None ->
                  update_state l h' f = l).
    { induction l as [|s0 l IH]; intros f [|h'] Hn; cbn in *;
        try reflexivity; try discriminate. rewrite IH by exact Hn. reflexivity. }
    rewrite U by exact En. reflexivity.
Qed.

Lemma fsmCreateAnyState_balance b :
  balance (snd (fsmCreateAnyState b)) = balance b.
Proof.
  unfold fsmCreateAnyState.
  destruct (state_position (listStates (cb b)) FSM_ST_ANY); [reflexivity|].
  destruct (fsmCreateObject_balance b) as [Hcb Hl].
  destruct (_fsmCreateObject b) as [ok b1]. cbn [fst snd] in Hcb, Hl.
  destruct ok; cbn [snd].
  - rewrite balance_states, balance_unfold. unfold _fsmAddObjectToList.
    rewrite destroy_states_app, Hcb. cbn. lia.
  - rewrite balance_set_create_error, !balance_unfold, Hcb. lia.
Qed.

Lemma link_transition_balance b0 b1 b2 h s t0 t :
  nth_error (listStates (cb b0)) h = Some s ->
  cb b1 = cb b0 ->
  (allocations_left (heap b1) + 1 = allocations_left (heap b0))%nat ->
  listStates (cb b2) = listStates (cb b1) ->
  (length (delete_transition t) + allocations_left (heap b2)
   = length (delete_transition t0) + allocations_left (heap b1))%nat ->
  length (delete_transition t0) = 1%nat ->
  balance (set_states b2
             (update_state (listStates (cb b2)) h (fun s0 => add_transition s0 t)))
  = balance b0.
Proof.
  intros Hs Hcb Hl Hst Ht Ht0.
  rewrite balance_states, balance_unfold, Hst, Hcb.
  rewrite (destroy_states_add_transition _ _ _ _ Hs). lia.
Qed.

Lemma fsmCatchTransition_balance b h target fns ok b' :
  fsmCatchTransition b h target fns = Some (ok, b') -> balance b' = balance b.
Proof.
  unfold fsmCatchTransition. destruct h as [h|]; [|intros H; inversion H; reflexivity].
  destruct (nth_error (listStates (cb b)) h) as [s|] eqn:Es; [|discriminate].
  destruct (_fsmGetTransition (listTransitions s) FSM_CATCH_TRANSITION);
    [intros H; inversion H; reflexivity|].
  destruct (fsmCreateObject_balance b) as [Hcb Hl].
  destruct (_fsmCreateObject b) as [okc b1]. cbn [fst snd] in Hcb, Hl.
  destruct okc.
  - destruct (add_actions fns _ b1) as [[done t] b2] eqn:Ea.
    apply add_actions_balance in Ea. destruct Ea as [Hst Ht].
    intros H; inversion H; subst.
    eapply link_transition_balance; eauto.
  - intros H; inversion H; subst.
    rewrite balance_set_create_error, !balance_unfold, Hcb. lia.
Qed.

Lemma fsmTransition_gen_balance is_sub b h ev c target fns ok b' :
  fsmTransition_gen is_sub b h ev c target fns = Some (ok, b') -> balance b' = balance b.
Proof.
  unfold fsmTransition_gen. destruct h as [h|]; [|intros H; inversion H; reflexivity].
  destruct (nth_error (listStates (cb b)) h) as [s|] eqn:Es; [|discriminate].
  destruct ((FSM_CATCH_TRANSITION =? ev) || (FSM_ST_ANY =? target));
    [intros H; inversion H; reflexivity|].
  destruct (fsmCreateObject_balance b) as [Hcb Hl].
  destruct (_fsmCreateObject b) as [okt b1]. cbn [fst snd] in Hcb, Hl.
  destruct okt;
    [|intros H; inversion H; subst;
      rewrite balance_set_create_error, !balance_unfold, Hcb; lia].
  cbv zeta. destruct c as [c|].
  - destruct (fsmCreateObject_balance b1) as [Hcb1 Hl1].
    destruct (_fsmCreateObject b1) as [okc b2]. cbn [fst snd] in Hcb1, Hl1.
    destruct okc; [|discriminate].
    destruct (add_actions fns _ b2) as [[done t] b3] eqn:Ea.
    apply add_actions_balance in Ea. destruct Ea as [Hst Ht].
    intros H; inversion H; subst.
    rewrite balance_states, balance_unfold, Hst, Hcb1, Hcb.
    rewrite (destroy_states_add_transition _ _ _ _ Es).
    cbn in Ht. lia.
  - destruct (add_actions fns _ b1) as [[done t] b3] eqn:Ea.
    apply add_actions_balance in Ea. destruct Ea as [Hst Ht].
    intros H; inversion H; subst.
    eapply link_transition_balance; eauto.
Qed.

Lemma fsmTransitionEx_balance b h ev conds target fns ok b' :
  fsmTransitionEx b h ev conds target fns = Some (ok, b') -> balance b' = balance b.
Proof.
  unfold fsmTransitionEx. destruct h as [h|]; [|intros H; inversion H; reflexivity].
  destruct (nth_error (listStates (cb b)) h) as [s|] eqn:Es; [|discriminate].
  destruct (FSM_CATCH_TRANSITION =? ev); [intros H; inversion H; reflexivity|].
  destruct (fsmCreateObject_balance b) as [Hcb Hl].
  destruct (_fsmCreateObject b) as [okt b1]. cbn [fst snd] in Hcb, Hl.
  destruct okt;
    [|intros H; inversion H; subst;
      rewrite balance_set_create_error, !balance_unfold, Hcb; lia].
  destruct (add_conditions conds _ b1) as [[t1 b2]|] eqn:Ec; [|discriminate].
  apply add_conditions_balance in Ec. destruct Ec as (Hst1 & _ & Ht1).
  assert (Hset : length (delete_transition (set_target t1 target))
                 = length (delete_transition t1))
    by (rewrite !delete_transition_length; reflexivity).
  rewrite (delete_transition_length {| iNewStateId := 0 |}) in Ht1.
  cbn [listConditions listActions length Nat.add] in Ht1.
  destruct (FSM_ST_ANY =? target).
  - intros H; inversion H; subst.
    rewrite balance_set_create_error, balance_states, balance_unfold, Hst1, Hcb.
    rewrite (destroy_states_add_transition _ _ _ _ Es), Hset. lia.
  - destruct (add_actions fns _ b2) as [[done t] b3] eqn:Ea.
    apply add_actions_balance in Ea. destruct Ea as [Hst Ht]. rewrite Hset in Ht.
    intros H; inversion H; subst.
    rewrite balance_states, balance_unfold, Hst, Hst1, Hcb.
    rewrite (destroy_states_add_transition _ _ _ _ Es). lia.
Qed.

Lemma run_op_balance op b ok b' :
  run_op op b = Some (ok, b') -> balance b' = balance b.
Proof.
  destruct op; cbn [run_op]; unfold handle_ok.
  - intros H; inversion H. apply fsmCreateState_balance.
  - intros H; inversion H. apply fsmCreateComplexState_balance.
  - intros H; inversion H. apply fsmCreateAnyState_balance.
  - apply fsmTransition_gen_balance.
  - apply fsmTransitionEx_balance.
  - apply fsmCatchTransition_balance.
Qed.

(** X21.  No leak.  Whatever calls of the construction interface follow
    [fsmCreateFsm], failed ones included, every object obtained from
    [_fsmCreateObject] is linked into the graph: [fsmDestroyFsm] frees
    exactly as many objects as allocations have succeeded. *)
Theorem destroy_frees_every_allocation :
  forall (heap0 : list bool) (b0 b : Builder) (ops : list BuildOp),
    fsmCreateFsm heap0 = Some b0 ->
    run_ops ops b0 = Some b ->
    (length (fsmDestroyFsm (Some (cb b))) + allocations_left (heap b)
     = allocations_left heap0)%nat.
Proof.
  intros heap0 b0 b ops Hc Hr.
  assert (H0 : balance b0 = allocations_left heap0).
  { unfold fsmCreateFsm in Hc. destruct heap0 as [|[|] rest]; try discriminate.
    inversion Hc; subst. reflexivity. }
  rewrite <- H0. clear Hc H0. fold (balance b).
  revert b0 Hr. induction ops as [|op ops IH]; intros b0 Hr; cbn [run_ops] in Hr.
  - inversion Hr; reflexivity.
  - destruct (run_op op b0) as [[ok b1]|] eqn:Eo; [|discriminate].
    rewrite (IH _ Hr). exact (run_op_balance _ _ _ _ Eo).
Qed.

Lemma destroy_frees_every_allocation_witness :
  (length (fsmDestroyFsm (Some (cb (b_catch 2)))) + allocations_left (heap (b_catch 2))
   = allocations_left (repeat true 21))%nat.
Proof.
  assert (Hc : fsmCreateFsm (repeat true 21) = Some (fresh_builder 20))
    by (vm_compute; reflexivity).
  assert (Hr : run_ops ops_catch (fresh_builder 20) = Some (b_catch 2))
    by (vm_compute; reflexivity).
  exact (destroy_frees_every_allocation _ _ _ _ Hc Hr).
Defined.

(** ** The start state *)

(** X22.  [fsmSetStartState] makes any record usable, whatever it held:
    the getters return the start state, as current and as top-level
    state, and the previous state given; the slots above the first are
    left as they were; and the first [fsmExecute] on the record returns
    with the depth inside the array, for every graph and every event. *)
Theorem fsmSetStartState_makes_the_record_usable :
  forall (World : Type) (app : Callbacks World) (g : FSM_CB) (ev : Z)
         (o : FSM_OBJECT_STATE) (a_iStartingStateId a_iPreviousStateId : Z)
         (e : Env World),
    fsmGetCurrentState (Some (fsmSetStartState o a_iStartingStateId a_iPreviousStateId))
      = Some a_iStartingStateId /\
    fsmGetCurrentTopLevelState
      (Some (fsmSetStartState o a_iStartingStateId a_iPreviousStateId))
      = a_iStartingStateId /\
    fsmGetPreviousState (Some (fsmSetStartState o a_iStartingStateId a_iPreviousStateId))
      = a_iPreviousStateId /\
    (forall i, i <> 0 ->
       nest_get (iNestedStateIds
                   (fsmSetStartState o a_iStartingStateId a_iPreviousStateId)) i
       = nest_get (iNestedStateIds o) i) /\
    exists r m',
      fsmExecute (Some g) ev
        {| obj := fsmSetStartState o a_iStartingStateId a_iPreviousStateId; env := e |}
        = Returned r m' /\
      depth_ok (obj m').
Proof.
  intros World app g ev o s p e.
  split; [reflexivity|]. split; [reflexivity|]. split; [reflexivity|]. split.
  - intros i Hi. unfold nest_get. cbn [fsmSetStartState iNestedStateIds slot1 slot2 slot3].
    destruct (Z.eqb_spec i 0); [contradiction | reflexivity].
  - apply fsmExecute_returns_in_bounds.
    + unfold depth_ok, FSM_MAX_STATE_NEST_DEPTH. cbn. lia.
    + left. cbn. lia.
Qed.

(** ** What a passing verification guarantees *)

Lemma filter_nil_false {A : Type} (f : A -> bool) (l : list A) :
  filter f l = [] -> forall x, In x l -> f x = false.
Proof.
  intros H x Hx. destruct (f x) eqn:E; [|reflexivity].
  assert (Hin : In x (filter f l)) by (apply filter_In; auto).
  rewrite H in Hin. destruct Hin.
Qed.

(** X23.  In a graph that [fsmVerifyFsm] accepts, the callback is never
    invoked, every transition target [>= 0] is the id of a state of the
    graph, and every state other than the any-state is the target of some
    transition.  The verifier looks at no initial substate and at no
    negative target: when those are in order as well, the graph keeps the
    stack on known states. *)
Theorem verified_graph_has_no_dangling_target :
  forall (World : Type) (app : Callbacks World) (g : FSM_CB)
         (a_fpVerifyCb : FSM_FUNC_VERIFY_CB) (e : Env World),
    fst (fsmVerifyFsm (Some g) a_fpVerifyCb e) = true ->
    calls (snd (fsmVerifyFsm (Some g) a_fpVerifyCb e)) = calls e /\
    (forall s t, In s (listStates g) -> In t (listTransitions s) ->
       0 <= iNewStateId t -> _fsmGetState (listStates g) (iNewStateId t) <> None) /\
    (forall s, In s (listStates g) -> iStateId s <> FSM_ST_ANY ->
       exists s' t, In s' (listStates g) /\ In t (listTransitions s') /\
                    iNewStateId t = iStateId s) /\
    ((forall s t, In s (listStates g) -> In t (listTransitions s) ->
        iNewStateId t < 0 ->
        iNewStateId t = FSM_ST_SAME
        \/ (iNewStateId t = FSM_ST_PARENT /\ bSubState t = false)) ->
     (forall s, In s (listStates g) -> bComplex s = true ->
        iInitialSubStateId s = FSM_ST_SAME
        \/ _fsmGetState (listStates g) (iInitialSubStateId s) <> None) ->
     closed_graph g).
Proof.
  intros World app g cbk e Hv.
  destruct (fsmVerifyFsm_run g cbk e) as [Htrue Hcalls].
  apply Htrue in Hv. unfold violations in Hv.
  apply app_eq_nil in Hv. destruct Hv as [Hent Hex].
  apply map_eq_nil in Hent. apply map_eq_nil in Hex.
  assert (Hknown : forall s t, In s (listStates g) -> In t (listTransitions s) ->
            0 <= iNewStateId t -> _fsmGetState (listStates g) (iNewStateId t) <> None).
  { intros s t Hs Ht Hpos.
    assert (Hin : In t (flat_map listTransitions (listStates g)))
      by (apply in_flat_map; exists s; auto).
    pose proof (filter_nil_false _ _ Hex t Hin) as Hf. cbv beta in Hf.
    assert (Hge : (iNewStateId t >=? 0) = true)
      by (rewrite Z.geb_leb; apply Z.leb_le; exact Hpos).
    rewrite Hge in Hf. cbn [andb] in Hf. apply negb_false_iff in Hf.
    apply fsmIsStateExitted_spec in Hf.
    destruct Hf as (s' & t' & Hs' & Eid & _).
    intros Hnone. apply fsmGetState_none in Hnone. apply Hnone.
    rewrite <- Eid. apply in_map. exact Hs'. }
  split; [|split; [exact Hknown|split]].
  - rewrite Hcalls. unfold violations. rewrite Hent, Hex. cbn.
    destruct cbk; cbn; apply app_nil_r.
  - intros s Hs Hany.
    pose proof (filter_nil_false _ _ Hent s Hs) as Hf. cbv beta in Hf.
    assert (Hna : negb (FSM_ST_ANY =? iStateId s) = true).
    { apply negb_true_iff. apply Z.eqb_neq. congruence. }
    rewrite Hna in Hf. cbn [andb] in Hf. apply negb_false_iff in Hf.
    apply fsmIsStateEntered_spec in Hf. exact Hf.
  - intros Hneg Hinit. split; [|exact Hinit].
    intros s t Hs Ht. destruct (Z_lt_le_dec (iNewStateId t) 0) as [Lt|Ge].
    + destruct (Hneg s t Hs Ht Lt) as [E|E]; auto.
    + right; right. split; [|exact (Hknown s t Hs Ht Ge)].
      unfold FSM_ST_PARENT. lia.
Qed.

Lemma verified_graph_has_no_dangling_target_witness :
  calls (snd (fsmVerifyFsm (Some g_catch) None {| world := @nil fptr; calls := [] |}))
  = [].
Proof.
  assert (Hv : fst (fsmVerifyFsm (Some g_catch) None
                      {| world := @nil fptr; calls := [] |}) = true)
    by (vm_compute; reflexivity).
  exact (proj1 (verified_graph_has_no_dangling_target _ _ g_catch None _ Hv)).
Defined.

(** ** From the construction calls to the engine *)

Lemma run_op_shape op b r b' :
  run_op op b = Some (r, b') ->
  listStates (cb b') = listStates (cb b)
  \/ (exists s, listStates (cb b') = listStates (cb b) ++ [s] /\ listTransitions s = [])
  \/ (exists h t,
        listStates (cb b') =
          update_state (listStates (cb b)) h (fun s => add_transition s t) /\
        bSubState t = is_sub_call op).
Proof.
  destruct op as [id fpEntry fpExit | id init fpEntry fpExit | |
                  is_sub h ev c target fns | h ev conds target fns | h target fns];
    cbn [run_op is_sub_call].
  - destruct (fsmCreateState b id fpEntry fpExit) as [r0 b0] eqn:E.
    apply fsmCreateState_run in E. unfold handle_ok. cbn.
    intros H; inversion H; subst r b'.
    destruct E as [(_ & H1 & _)|(_ & _ & _ & _ & H4 & _)]; [auto|].
    right; left. eexists. split; [exact H4 | reflexivity].
  - destruct (fsmCreateComplexState b id init fpEntry fpExit) as [r0 b0] eqn:E.
    apply fsmCreateComplexState_run in E. unfold handle_ok. cbn.
    intros H; inversion H; subst r b'.
    destruct E as [(_ & H1 & _)|(_ & _ & _ & _ & H4 & _)]; [auto|].
    right; left. eexists. split; [exact H4 | reflexivity].
  - destruct (fsmCreateAnyState b) as [r0 b0] eqn:E.
    apply fsmCreateAnyState_run in E. unfold handle_ok. cbn.
    intros H; inversion H; subst r b'.
    destruct E as [(h & _ & -> & _)|(_ & [(_ & _ & H1 & _)|(_ & _ & H1 & _)])];
      [auto | auto |].
    right; left. eexists. split; [exact H1 | reflexivity].
  - destruct h as [h|]; [|cbn; intros H; inversion H; subst; auto].
    intros H. apply fsmTransition_gen_run in H.
    destruct H as [(_ & H1 & _)|(_ & _ & t & k & H1 & _ & _ & Hb & _)]; [auto|].
    right; right. exists h, t. auto.
  - destruct h as [h|]; [|cbn; intros H; inversion H; subst; auto].
    intros H. apply fsmTransitionEx_run in H.
    destruct H as [(_ & H1 & _)|(_ & t & k & H1 & _ & _ & Hb & _)]; [auto|].
    right; right. exists h, t. auto.
  - destruct h as [h|]; [|cbn; intros H; inversion H; subst; auto].
    intros H. pose proof H as H0. unfold fsmCatchTransition in H0.
    destruct (nth_error (listStates (cb b)) h) as [s|] eqn:Es; [|discriminate]. clear H0.
    apply (fsmCatchTransition_run _ _ _ _ _ _ _ Es) in H.
    destruct H as [(_ & -> & _)|(_ & [(_ & _ & H1 & _)|(_ & t & k & H1 & _ & _ & Hb & _)])];
      [auto | auto |].
    right; right. exists h, t. auto.
Qed.

Lemma run_op_flat op b r b' :
  run_op op b = Some (r, b') -> is_sub_call op = false ->
  flat_states (listStates (cb b)) -> flat_states (listStates (cb b')).
Proof.
  intros H Hsub Hf. unfold flat_states in *.
  destruct (run_op_shape _ _ _ _ H) as [->|[(s & -> & Ht)|(h & t & -> & Hb)]].
  - exact Hf.
  - apply Forall_app. split; [exact Hf|]. constructor; [|constructor].
    rewrite Ht. constructor.
  - apply update_state_Forall; [exact Hf|].
    intros s _ Hs. unfold add_transition, _fsmAddObjectToList. cbn.
    apply Forall_app. split; [exact Hs|]. constructor; [|constructor]. congruence.
Qed.

Lemma flat_states_no_sub g : flat_states (listStates g) -> no_sub_transitions g.
Proof.
  intros Hf s t Hs Ht. unfold flat_states in Hf. rewrite Forall_forall in Hf.
  specialize (Hf s Hs). rewrite Forall_forall in Hf. exact (Hf t Ht).
Qed.

(** X24.  A graph built by any sequence of construction calls none of
    which is [fsmTransitionSub] has no sub-state transition, whichever
    calls failed; so [fsmExecute] on it, from any record whose depth
    indexes the array, returns and leaves such a record: no sequence of
    events can run the engine outside [iNestedStateIds]. *)
Theorem graph_built_without_sub_calls_is_memory_safe :
  forall (World : Type) (app : Callbacks World) (heap0 : list bool)
         (b0 b : Builder) (ops : list BuildOp) (ev : Z) (m : Machine World),
    fsmCreateFsm heap0 = Some b0 ->
    run_ops ops b0 = Some b ->
    forallb (fun op => negb (is_sub_call op)) ops = true ->
    depth_ok (obj m) ->
    no_sub_transitions (cb b) /\
    exists r m', fsmExecute (Some (cb b)) ev m = Returned r m' /\ depth_ok (obj m').
Proof.
  intros World app heap0 b0 b ops ev m Hc Hr Hops Hd.
  assert (Hflat : flat_states (listStates (cb b))).
  { assert (H0 : flat_states (listStates (cb b0))).
    { unfold fsmCreateFsm in Hc. destruct heap0 as [|[|] rest]; try discriminate.
      inversion Hc; subst. constructor. }
    clear Hc. revert b0 Hr H0.
    induction ops as [|op ops IH]; intros b0 Hr H0; cbn [run_ops] in Hr.
    - inversion Hr; subst. exact H0.
    - cbn [forallb] in Hops. apply andb_prop in Hops. destruct Hops as [Ho Hops].
      apply negb_true_iff in Ho.
      destruct (run_op op b0) as [[r b1]|] eqn:Eo; [|discriminate].
      apply (IH Hops b1 Hr). exact (run_op_flat _ _ _ _ Eo Ho H0). }
  pose proof (flat_states_no_sub _ Hflat) as Hno.
  split; [exact Hno|].
  apply fsmExecute_returns_in_bounds; [exact Hd | right; exact Hno].
Qed.

Lemma graph_built_without_sub_calls_is_memory_safe_witness :
  no_sub_transitions g_catch /\
  exists r m',
    fsmExecute (Some g_catch) 7 (started 0 []) = Returned r m' /\ depth_ok (obj m').
Proof.
  assert (Hc : fsmCreateFsm (repeat true 21) = Some (fresh_builder 20))
    by (vm_compute; reflexivity).
  assert (Hr : run_ops ops_catch (fresh_builder 20) = Some (b_catch 2))
    by (vm_compute; reflexivity).
  assert (Ho : forallb (fun op => negb (is_sub_call op)) ops_catch = true)
    by (vm_compute; reflexivity).
  assert (Hd : depth_ok (obj (started 0 []))) by (vm_compute; split; discriminate).
  exact (graph_built_without_sub_calls_is_memory_safe _ _ _ _ _ _ 7 (started 0 [])
           Hc Hr Ho Hd).
Defined.

(** ** Transitions of the any-state *)

(** X25.  A transition of the any-state is taken at depth 0.  When the
    scan of the active states finds no transition and the any-state
    supplies one that is not a sub-state transition and whose target is a
    state of the graph that does not descend, [fsmExecute] returns "new
    state", the exit callbacks of all active states run, innermost first,
    then the entry callback of the target; the nest depth becomes 0 and
    the target is both the current and the top-level state. *)
Theorem any_state_transition_unwinds_the_stack :
  forall (World : Type) (app : Callbacks World) (g : FSM_CB) (ev : Z)
         (m m0 m1 : Machine World) (loc0 loc : Locals) (T : Z) (sT : FSM_STATE),
    ev <> FSM_CATCH_TRANSITION -> depth_ok (obj m) ->
    nest_loop g ev (Z.to_nat (iNestDepth (obj m) + 1)) 0 initial_locals m
      = Returned (Continue loc0) m0 ->
    l_eResult loc0 = eFSM_RESULT_NO_TRANSITION ->
    any_state_fallback g ev loc0 m0 = Returned loc m1 ->
    l_eResult loc = eFSM_RESULT_NEW_STATE ->
    l_iNewStateId loc = T ->
    l_bNewStateIsSubState loc = false ->
    T <> FSM_ST_PARENT ->
    _fsmGetState (listStates g) T = Some sT ->
    bComplex sT && negb (FSM_ST_SAME =? iInitialSubStateId sT) = false ->
    exists m2,
      fsmExecute (Some g) ev m = Returned eFSM_RESULT_NEW_STATE m2 /\
      iNestDepth (obj m2) = 0 /\
      fsmGetCurrentState (Some (obj m2)) = Some T /\
      fsmGetCurrentTopLevelState (Some (obj m2)) = T /\
      Some (fsmGetPreviousState (Some (obj m2))) = fsmGetCurrentState (Some (obj m)) /\
      calls (env m2) =
        calls (env m1)
        ++ exit_calls g (iNestedStateIds (obj m))
             (Z.to_nat (iNestDepth (obj m) + 1)) (iNestDepth (obj m))
        ++ entry_calls sT.
Proof.
  intros World app g ev m m0 m1 loc0 loc T sT Hev Hd Hn Hr0 Ha Hres HT Hsub HnP HsT Hflat.
  assert (Hfind : find_transition g ev m = Returned (Continue loc) m1).
  { unfold find_transition.
    assert (Hg : get_depth m = Returned (iNestDepth (obj m)) m) by reflexivity.
    rewrite (bind_returned _ _ _ _ _ Hg), (bind_returned _ _ _ _ _ Hn).
    rewrite (bind_returned _ _ _ _ _ Ha). reflexivity. }
  assert (Hcd : l_iStateChangeDepth loc = 0).
  { destruct (nest_loop_keeps _ _ _ _ _ _ _ _ Hn) as [_ Hk].
    destruct (any_state_fallback_keeps _ _ _ _ _ _ Ha) as [_ ->].
    destruct Hk as [[_ E]|[[N _]|(_ & _ & E)]]; [exact E | contradiction | exact E]. }
  destruct (find_transition_keeps _ _ _ _ _ Hfind) as [O1 _].
  assert (Hd1 : depth_ok (obj m1)) by (rewrite O1; exact Hd).
  assert (EP : (FSM_ST_PARENT =? T) = false) by (apply Z.eqb_neq; congruence).
  pose proof Hd as Hd'. unfold depth_ok, FSM_MAX_STATE_NEST_DEPTH in Hd'.
  assert (Hc1 : 0 <= l_iStateChangeDepth loc <= iNestDepth (obj m1))
    by (rewrite O1, Hcd; lia).
  destruct (state_exit_log g loc m1 Hd1 Hsub Hc1) as (cur & e & Ecur & Hexit & L).
  rewrite HT, EP, Hcd in Hexit. rewrite Hcd in L.
  unfold fsmExecute.
  destruct (Z.eqb_spec FSM_CATCH_TRANSITION ev) as [E|_]; [congruence|].
  rewrite (bind_returned _ _ _ _ _ Hfind). rewrite Hres. cbn [result_eqb].
  unfold change_state, state_entry. rewrite (bind_returned _ _ _ _ _ Hexit).
  rewrite HT, EP, Hres. cbn [negb].
  change (Z.to_nat FSM_MAX_STATE_NEST_DEPTH) with 4%nat.
  destruct (nest_set_in_range (iNestedStateIds (obj m1)) 0 T ltac:(lia))
    as (a & Ea & Ga & Ka).
  match goal with
  | |- context [bind (entry_loop g ?n T) _ ?mm] =>
      destruct (entry_loop_known g 3 T sT mm a HsT Ea) as (w & Ee)
  end.
  cbv zeta in Ee. rewrite Hflat in Ee.
  rewrite (bind_returned _ _ _ _ _ Ee).
  eexists. split; [reflexivity|]. cbn. rewrite <- O1.
  split; [reflexivity|]. split; [exact Ga|].
  split; [cbn in Ga; congruence|]. split; [rewrite Ecur; reflexivity|].
  rewrite L, <- app_assoc. rewrite O1.
  replace (iNestDepth (obj m) - 0 + 1) with (iNestDepth (obj m) + 1) by lia.
  reflexivity.
Qed.

Lemma any_state_transition_unwinds_the_stack_witness :
  exists m2,
    fsmExecute (Some g_any_nested) 9 m_any_nested = Returned eFSM_RESULT_NEW_STATE m2 /\
    iNestDepth (obj m2) = 0 /\
    fsmGetCurrentTopLevelState (Some (obj m2)) = 2 /\
    calls (env m2)
      = calls (env m_any_nested) ++ [CallExit 71%nat; CallExit 70%nat; CallEntry 72%nat].
Proof.
  assert (Hd : depth_ok (obj m_any_nested)) by (vm_compute; split; discriminate).
  assert (Hn : nest_loop g_any_nested 9 (Z.to_nat (iNestDepth (obj m_any_nested) + 1)) 0
                 initial_locals m_any_nested
               = Returned (Continue initial_locals) m_any_nested)
    by (vm_compute; reflexivity).
  assert (Ha : any_state_fallback g_any_nested 9 initial_locals m_any_nested
               = Returned {| l_eResult := eFSM_RESULT_NEW_STATE;
                             l_iNewStateId := 2;
                             l_bNewStateIsSubState := false;
                             l_iStateChangeDepth := 0 |} m_any_nested)
    by (vm_compute; reflexivity).
  assert (Hs : _fsmGetState (listStates g_any_nested) 2
               = Some {| iStateId := 2; fpEntryAction := Some 72%nat;
                         listTransitions := [simple_transition 1 0];
                         fpExitAction := None; bComplex := false;
                         iInitialSubStateId := FSM_ST_SAME |})
    by (vm_compute; reflexivity).
  destruct (any_state_transition_unwinds_the_stack _ _ g_any_nested 9 m_any_nested
              m_any_nested m_any_nested initial_locals _ 2 _ ltac:(discriminate) Hd Hn
              eq_refl Ha eq_refl eq_refl eq_refl ltac:(discriminate) Hs eq_refl)
    as (m2 & H1 & H2 & _ & H4 & _ & H6).
  exists m2. split; [exact H1|]. split; [exact H2|]. split; [exact H4|].
  rewrite H6. vm_compute. reflexivity.
Defined.

(** ** The creation-error flag as a summary of the construction *)

Lemma run_op_success op b b' :
  run_op op b = Some (true, b') -> bCreateError (cb b') = bCreateError (cb b).
Proof.
  destruct op as [id fpEntry fpExit | id init fpEntry fpExit | |
                  is_sub h ev c target fns | h ev conds target fns | h target fns];
    cbn [run_op].
  - destruct (fsmCreateState b id fpEntry fpExit) as [r0 b0] eqn:E.
    apply fsmCreateState_run in E. unfold handle_ok. cbn.
    intros H; inversion H; subst b'.
    destruct E as [(-> & _)|(_ & _ & _ & _ & _ & H5)]; [discriminate | exact H5].
  - destruct (fsmCreateComplexState b id init fpEntry fpExit) as [r0 b0] eqn:E.
    apply fsmCreateComplexState_run in E. unfold handle_ok. cbn.
    intros H; inversion H; subst b'.
    destruct E as [(-> & _)|(_ & _ & _ & _ & _ & H5)]; [discriminate | exact H5].
  - destruct (fsmCreateAnyState b) as [r0 b0] eqn:E.
    apply fsmCreateAnyState_run in E. unfold handle_ok. cbn.
    intros H; inversion H; subst b'.
    destruct E as [(h & _ & -> & _)|(_ & [(-> & _)|(_ & _ & _ & H2)])];
      [reflexivity | discriminate | exact H2].
  - destruct h as [h|]; [|cbn; discriminate].
    intros H. apply fsmTransition_gen_run in H.
    destruct H as [(E & _)|(_ & _ & t & k & _ & _ & _ & _ & _ & _ & _ & _ & H8 & _)];
      [discriminate | exact (H8 eq_refl)].
  - destruct h as [h|]; [|cbn; discriminate].
    intros H. apply fsmTransitionEx_run in H.
    destruct H as [(E & _)|(_ & t & k & _ & _ & _ & _ & _ & _ & _ & _ & _ & H8 & _)];
      [discriminate | exact (H8 eq_refl)].
  - destruct h as [h|]; [|cbn; discriminate].
    intros H. pose proof H as H0. unfold fsmCatchTransition in H0.
    destruct (nth_error (listStates (cb b)) h) as [s|] eqn:Es; [|discriminate]. clear H0.
    apply (fsmCatchTransition_run _ _ _ _ _ _ _ Es) in H.
    destruct H as [(E & _)|(_ & [(E & _)|(_ & t & k & _ & _ & _ & _ & _ & _ & _ & _ & H8 & _)])];
      [discriminate | discriminate | exact (H8 eq_refl)].
Qed.

Lemma run_ops_results_flag : forall ops b rs b',
  run_ops_results ops b = Some (rs, b') ->
  (bCreateError (cb b') = false ->
   bCreateError (cb b) = false /\
   Forall2 (fun op r => failure_is_flagged op -> r = true) ops rs)
  /\ (bCreateError (cb b) = false -> Forall (fun r => r = true) rs ->
      bCreateError (cb b') = false).
Proof.
  induction ops as [|op ops IH]; intros b rs b' H; cbn [run_ops_results] in H.
  - inversion H; subst. split; [intros E; split; [exact E | constructor] | auto].
  - destruct (run_op op b) as [[r b1]|] eqn:Eo; [|discriminate].
    destruct (run_ops_results ops b1) as [[rs1 b2]|] eqn:Er; [|discriminate].
    inversion H; subst rs b'. clear H.
    destruct (IH _ _ _ Er) as [IH1 IH2].
    destruct (run_op_grown _ _ _ _ Eo) as (_ & Hmono & Hflag).
    split.
    + intros E. destruct (IH1 E) as [E1 F].
      assert (E0 : bCreateError (cb b) = false)
        by (destruct Hmono as [<-|Ht]; [exact E1 | congruence]).
      split; [exact E0|]. constructor; [|exact F].
      intros Hf. destruct r; [reflexivity|].
      rewrite (Hflag eq_refl Hf) in E1. discriminate.
    + intros E0 Hall. inversion Hall; subst.
      apply IH2; [|assumption].
      rewrite (run_op_success _ _ _ Eo). exact E0.
Qed.

(** X26.  After any sequence of construction calls on a fresh graph,
    [fsmHasCreateErrorOccurred] summarises the calls: when it reports no
    error, every call whose failure is recorded (all but
    [fsmCatchTransition] and calls given a NULL handle) has succeeded; and
    when every call has succeeded it reports no error. *)
Theorem creation_error_flag_summarises_the_calls :
  forall (heap0 : list bool) (b0 b : Builder) (ops : list BuildOp) (rs : list bool),
    fsmCreateFsm heap0 = Some b0 ->
    run_ops_results ops b0 = Some (rs, b) ->
    (fsmHasCreateErrorOccurred (Some (cb b)) = false ->
     Forall2 (fun op r => failure_is_flagged op -> r = true) ops rs)
    /\ (Forall (fun r => r = true) rs ->
        fsmHasCreateErrorOccurred (Some (cb b)) = false).
Proof.
  intros heap0 b0 b ops rs Hc Hr.
  assert (H0 : bCreateError (cb b0) = false).
  { unfold fsmCreateFsm in Hc. destruct heap0 as [|[|] rest]; try discriminate.
    inversion Hc; subst. reflexivity. }
  destruct (run_ops_results_flag _ _ _ _ Hr) as [H1 H2].
  cbn [fsmHasCreateErrorOccurred]. split.
  - intros E. exact (proj2 (H1 E)).
  - intros Hall. exact (H2 H0 Hall).
Qed.

Lemma creation_error_flag_summarises_the_calls_witness :
  fsmHasCreateErrorOccurred (Some g_catch) = false.
Proof.
  assert (Hc : fsmCreateFsm (repeat true 21) = Some (fresh_builder 20))
    by (vm_compute; reflexivity).
  assert (Hr : run_ops_results ops_catch (fresh_builder 20)
               = Some (repeat true 10, b_catch 2)) by (vm_compute; reflexivity).
  assert (Ha : Forall (fun r => r = true) (repeat true 10))
    by (repeat constructor).
  exact (proj2 (creation_error_flag_summarises_the_calls _ _ _ _ _ Hc Hr) Ha).
Defined.
